(** * mcp-swarm: the process manager, its request queue and the profile tools

    A shallow embedding of the parts of [process-manager.ts],
    [request-queue.ts], [db.ts], [config.ts] and [tools.ts] that decide
    how stderr is captured, when a closed transport is reconnected, when a
    pool is scaled, and what reaches the SQLite store; of the session
    handling of [http-server.ts]; and of the merge of [search.ts].

    Conventions.  A JavaScript [Map] that is iterated is an association
    list in insertion order; a SQLite table with a primary key and a JS
    [Map]/[Set] that is only looked up are [gmap]/[gset].  Console output
    and event emission do not feed back into the state and are left out.
    What the outside world decides (does the transport connect, does it
    close while the connect is pending, which pid does the child get,
    what does the SDK transport of a session do with a request, what
    time is it) is an explicit argument of the operation.  A plain
    object read with [obj[name]] is its own properties together with
    the names it inherits from [Object.prototype].  Every operation is
    run to completion: what other tasks could do while it waits at an
    [await] is not part of it. *)

From Stdlib Require Import Ascii.
From stdpp Require Import gmap strings list pretty sorting.
From Equations Require Import Equations.

(** ** JavaScript string primitives *)

Module JsString.

(** [s.length] *)
Definition len (s : string) : nat := String.length s.

(** [s.slice(0, n)] for [0 <= n] *)
Fixpoint slice0 (n : nat) (s : string) : string :=
  match n, s with
  | S n', String c s' => String c (slice0 n' s')
  | _, _ => ""
  end.

(** [s.startsWith(p)] *)
Fixpoint startsWith (p s : string) : bool :=
  match p, s with
  | "", _ => true
  | String a p', String b s' => if Ascii.eqb a b then startsWith p' s' else false
  | String _ _, "" => false
  end.

(** [s.includes(needle)] *)
Fixpoint includes (needle s : string) : bool :=
  startsWith needle s ||
  match s with
  | "" => false
  | String _ s' => includes needle s'
  end.

(** [s.indexOf(needle)], [None] standing for [-1] *)
Fixpoint indexOf (needle s : string) : option nat :=
  if startsWith needle s then Some 0
  else match s with
       | "" => None
       | String _ s' => S <$> indexOf needle s'
       end.

(** [s.split("\n")]: the segments between line feeds, one more than
    there are line feeds. *)
Fixpoint split_lines (s : string) : list string :=
  match s with
  | "" => [""]
  | String c s' =>
      if Ascii.eqb c "010"%char then "" :: split_lines s'
      else match split_lines s' with
           | seg :: rest => String c seg :: rest
           | [] => [String c ""]
           end
  end.

(** [Boolean(s)]: a string is truthy unless it is empty. *)
Definition truthy (s : string) : bool :=
  match s with "" => false | _ => true end.

(** [parts.join(sep)] *)
Fixpoint join (sep : string) (parts : list string) : string :=
  match parts with
  | [] => ""
  | [p] => p
  | p :: rest => p +:+ sep +:+ join sep rest
  end.

(** [s.repeat(n)] for a one-character string *)
Fixpoint repeat_char (c : ascii) (n : nat) : string :=
  match n with
  | 0 => ""
  | S n' => String c (repeat_char c n')
  end.

End JsString.

(** ** Capture of a child's stderr ([_spawnStdio], the ["data"] handler) *)

Module Stderr.
Import JsString.

Definition MAX_STDERR_LINES : nat := 50.
Definition MAX_STDERR_LINE_LENGTH : nat := 1000.

(** [rawLine.length > MAX ? rawLine.slice(0, MAX) + "..." : rawLine] *)
Definition capture_line (rawLine : string) : string :=
  if bool_decide (MAX_STDERR_LINE_LENGTH < len rawLine)
  then slice0 MAX_STDERR_LINE_LENGTH rawLine +:+ "..."
  else rawLine.

(** [buffer.push(line); if (buffer.length > MAX) buffer.shift();] *)
Definition push_line (stderrBuffer : list string) (line : string) : list string :=
  let pushed := stderrBuffer ++ [line] in
  if bool_decide (MAX_STDERR_LINES < length pushed) then drop 1 pushed else pushed.

(** [chunk.toString().split("\n").filter(Boolean)] *)
Definition chunk_lines (chunk : string) : list string :=
  filter (λ l, truthy l = true) (split_lines chunk).

(** The body of [stderrStream.on("data", ...)]. *)
Definition on_data (stderrBuffer : list string) (chunk : string) : list string :=
  foldl (λ buf rawLine, push_line buf (capture_line rawLine))
        stderrBuffer (chunk_lines chunk).

(** The buffer of a fresh [ManagedServer] is [[]]; this is the tail after
    the child has written [chunks]. *)
Definition tail_after (chunks : list string) : list string :=
  foldl on_data [] chunks.

(** Every line ever pushed, oldest first. *)
Definition captured (chunks : list string) : list string :=
  chunks ≫= (λ chunk, capture_line <$> chunk_lines chunk).

(** The last [n] elements of [l]. *)
Definition last_n {A} (n : nat) (l : list A) : list A := drop (length l - n) l.

End Stderr.

(** ** Shared types ([types.ts]) *)

(** [ServerConfig.type].  The declared union has three members; the
    dispatch in [_doSpawn] has a fourth branch for anything else (a row
    of the store is cast, not checked), kept here as [OTHER]. *)
Inductive TransportType :=
  | STDIO
  | SSE
  | STREAMABLE_HTTP
  | OTHER (raw : string).

Global Instance TransportType_eq_dec : EqDecision TransportType.
Proof. solve_decision. Defined.

(** [String(config.type)] as it appears in messages. *)
Definition type_name (t : TransportType) : string :=
  match t with
  | STDIO => "STDIO"
  | SSE => "SSE"
  | STREAMABLE_HTTP => "STREAMABLE_HTTP"
  | OTHER raw => raw
  end.

Module ServerConfig.
Record t := mk {
  name : string;
  type : TransportType;
  command : option string;
  args : option (list string);
  env : option (list (string * string));
  url : option string;
  description : option string;
  headers : option (list (string * string));
  stateful : option bool;
}.

(** [{ ...config, name: n }] *)
Definition with_name (n : string) (c : t) : t :=
  mk n (type c) (command c) (args c) (env c) (url c) (description c)
     (headers c) (stateful c).

(** [{ ...config, args: a }] *)
Definition with_args (a : list string) (c : t) : t :=
  mk (name c) (type c) (command c) (Some a) (env c) (url c) (description c)
     (headers c) (stateful c).
End ServerConfig.

Record CachedTool := {
  tool_name : string;
  tool_description : option string;
  inputSchema : string;
}.

Inductive Status := connecting | connected | error | stopped.

Global Instance Status_eq_dec : EqDecision Status.
Proof. solve_decision. Defined.

(** The SDK objects a live server holds; only their presence matters. *)
Inductive Client := TheClient.
Inductive Transport := TheTransport (kind : TransportType).

Module ManagedServer.
(** [oid] is not a field of the TypeScript interface: it stands for the
    identity of the JavaScript object, which [_scheduleReconnect]
    compares with [!==]. *)
Record t := mk {
  oid : nat;
  name : string;
  config : ServerConfig.t;
  client : option Client;
  transport : option Transport;
  status : Status;
  tools : list CachedTool;
  pid : option nat;
  stderrBuffer : list string;
  errorMessage : option string;
  reconnectAttempts : nat;
}.

Definition set_client (v : option Client) (m : t) : t :=
  mk (oid m) (name m) (config m) v (transport m) (status m) (tools m)
     (pid m) (stderrBuffer m) (errorMessage m) (reconnectAttempts m).
Definition set_transport (v : option Transport) (m : t) : t :=
  mk (oid m) (name m) (config m) (client m) v (status m) (tools m)
     (pid m) (stderrBuffer m) (errorMessage m) (reconnectAttempts m).
Definition set_status (v : Status) (m : t) : t :=
  mk (oid m) (name m) (config m) (client m) (transport m) v (tools m)
     (pid m) (stderrBuffer m) (errorMessage m) (reconnectAttempts m).
Definition set_tools (v : list CachedTool) (m : t) : t :=
  mk (oid m) (name m) (config m) (client m) (transport m) (status m) v
     (pid m) (stderrBuffer m) (errorMessage m) (reconnectAttempts m).
Definition set_pid (v : option nat) (m : t) : t :=
  mk (oid m) (name m) (config m) (client m) (transport m) (status m) (tools m)
     v (stderrBuffer m) (errorMessage m) (reconnectAttempts m).
Definition set_stderrBuffer (v : list string) (m : t) : t :=
  mk (oid m) (name m) (config m) (client m) (transport m) (status m) (tools m)
     (pid m) v (errorMessage m) (reconnectAttempts m).
Definition set_errorMessage (v : option string) (m : t) : t :=
  mk (oid m) (name m) (config m) (client m) (transport m) (status m) (tools m)
     (pid m) (stderrBuffer m) v (reconnectAttempts m).
Definition set_reconnectAttempts (v : nat) (m : t) : t :=
  mk (oid m) (name m) (config m) (client m) (transport m) (status m) (tools m)
     (pid m) (stderrBuffer m) (errorMessage m) v.
End ManagedServer.

Module ServerInstance.
Record t := mk {
  internalName : string;
  baseName : string;
  index : nat;
  busy : bool;
  lastActiveAt : nat;
}.

Definition set_busy (v : bool) (i : t) : t :=
  mk (internalName i) (baseName i) (index i) v (lastActiveAt i).
End ServerInstance.

Record ProfileServer := {
  ps_name : string;
  ps_command : string;
  ps_args : list string;
  ps_description : string;
  ps_env : option (list (string * string));
}.

Record Profile := {
  profile_description : string;
  profile_servers : list ProfileServer;
}.

(** [ProfilesConfig = Record<string, Profile>], the built-in profiles read
    from [profiles.json]: the own properties of the parsed object, in
    the order of [Object.entries]. *)
Definition ProfilesConfig := list (string * Profile).

(** ** A JavaScript [Map] with string keys, in insertion order *)

Module JsMap.
Section ops.
Context {V : Type}.

Fixpoint get (k : string) (m : list (string * V)) : option V :=
  match m with
  | [] => None
  | (k', v) :: rest => if decide (k' = k) then Some v else get k rest
  end.

Definition has (k : string) (m : list (string * V)) : bool :=
  bool_decide (is_Some (get k m)).

(** [m.set(k, v)]: an existing key keeps its place, a new one goes last. *)
Fixpoint set (k : string) (v : V) (m : list (string * V)) : list (string * V) :=
  match m with
  | [] => [(k, v)]
  | (k', v') :: rest =>
      if decide (k' = k) then (k, v) :: rest else (k', v') :: set k v rest
  end.

Definition delete (k : string) (m : list (string * V)) : list (string * V) :=
  filter (λ kv, kv.1 ≠ k) m.

Definition keys (m : list (string * V)) : list string := fst <$> m.
Definition values (m : list (string * V)) : list V := snd <$> m.
End ops.
End JsMap.

(** ** A plain JavaScript object read with [obj[name]]

    The object is what [JSON.parse] gives: its own properties are those
    of the text, and it inherits from [Object.prototype].  [obj[name]]
    finds an own property first and a member of the prototype
    otherwise; [Object.keys] and [Object.entries] give the own
    properties only. *)

Module JsObject.
(** The property names of [Object.prototype]. *)
Definition prototype_names : list string :=
  ["constructor"; "__defineGetter__"; "__defineSetter__"; "hasOwnProperty";
   "__lookupGetter__"; "__lookupSetter__"; "isPrototypeOf";
   "propertyIsEnumerable"; "toString"; "valueOf"; "__proto__";
   "toLocaleString"].

(** What [obj[name]] evaluates to: the value of an own property, or a
    member of the prototype (a function, or the prototype itself for
    [__proto__]: truthy in both cases, and without the properties of
    the values), or [undefined]. *)
Inductive Property (V : Type) :=
  | Own (v : V)
  | Inherited
  | Missing.
Arguments Own {V} v.
Arguments Inherited {V}.
Arguments Missing {V}.

Definition get {V : Type} (name : string) (own : list (string * V)) : Property V :=
  match JsMap.get name own with
  | Some v => Own v
  | None =>
      if bool_decide (name ∈ prototype_names) then Inherited else Missing
  end.
End JsObject.

(** ** Configuration constants ([config.ts]) *)

Module Config.
Definition AUTO_RECONNECT_MAX_RETRIES : nat := 3.
Definition AUTO_RECONNECT_BASE_DELAY_MS : nat := 2000.

(** [parseInt(process.env.MAX_SERVER_INSTANCES || "4", 10)] with the
    variable unset. *)
Definition MAX_SERVER_INSTANCES_default : nat := 4.

Definition KNOWN_STATEFUL_SERVERS : gset string :=
  list_to_set
    ["playwright"; "puppeteer"; "puppeteer-mcp"; "sequential-thinking"; "git-mcp"].
End Config.

(** ** The SQLite store ([db.ts]) *)

(** What a statement wrapped in [try]/[catch] can do. *)
Inductive Result (A : Type) :=
  | Ok (a : A)
  | Throw (message : string).
Arguments Ok {A} a.
Arguments Throw {A} message.

Module Db.
Import JsString.

(** A row of table [servers] (the key [name] is the key of the map). *)
Record ServerRow := {
  row_type : TransportType;
  row_command : option string;
  row_args : list string;
  row_env : list (string * string);
  row_url : option string;
  row_description : option string;
  row_headers : list (string * string);
  row_stateful : bool;
}.

(** A row of table [profiles]. *)
Record ProfileRow := {
  row_profile_description : string;
  row_profile_servers : list ProfileServer;
}.

Record Tables := {
  servers : gmap string ServerRow;
  pids : gmap string nat;
  profiles : gmap string ProfileRow;
}.

(** The module variable [db]: [null] until [initDb] has run. *)
Definition t := option Tables.

Definition empty : Tables := {| servers := ∅; pids := ∅; profiles := ∅ |}.

(** [getDb()] *)
Definition getDb (db : t) : Result Tables :=
  match db with
  | Some d => Ok d
  | None => Throw "Database not initialized. Call initDb() first."
  end.

(** [x || null] for an optional string *)
Definition or_null (x : option string) : option string :=
  match x with
  | Some s => if truthy s then Some s else None
  | None => None
  end.

Definition row_of (config : ServerConfig.t) : ServerRow :=
  {| row_type := ServerConfig.type config;
     row_command := or_null (ServerConfig.command config);
     row_args := default [] (ServerConfig.args config);
     row_env := default [] (ServerConfig.env config);
     row_url := or_null (ServerConfig.url config);
     row_description := or_null (ServerConfig.description config);
     row_headers := default [] (ServerConfig.headers config);
     row_stateful :=
       default (bool_decide (ServerConfig.name config ∈ Config.KNOWN_STATEFUL_SERVERS))
               (ServerConfig.stateful config) |}.

(** [upsertServer(config)]: INSERT ... ON CONFLICT(name) DO UPDATE *)
Definition upsertServer (config : ServerConfig.t) (db : t) : Result t :=
  match getDb db with
  | Throw e => Throw e
  | Ok d =>
      Ok (Some {| servers := <[ServerConfig.name config := row_of config]> (servers d);
                  pids := pids d;
                  profiles := profiles d |})
  end.

(** The [ServerConfig] that [listServers] and [getServer] build from a
    row. *)
Definition config_of_row (name : string) (row : ServerRow) : ServerConfig.t :=
  ServerConfig.mk name (row_type row)
    (or_null (row_command row))
    (Some (row_args row))
    (Some (row_env row))
    (or_null (row_url row))
    (or_null (row_description row))
    (if bool_decide (0 < length (row_headers row)) then Some (row_headers row) else None)
    (Some (row_stateful row)).

(** [listServers()].  The query has no [ORDER BY], so the order of the
    rows is the one SQLite happens to give; here it is the order of the
    keys. *)
Definition listServers (db : t) : Result (list ServerConfig.t) :=
  match getDb db with
  | Throw e => Throw e
  | Ok d => Ok ((λ r, config_of_row r.1 r.2) <$> map_to_list (servers d))
  end.

(** [savePid(name, pid)] *)
Definition savePid (name : string) (pid : nat) (db : t) : Result t :=
  match getDb db with
  | Throw e => Throw e
  | Ok d =>
      Ok (Some {| servers := servers d;
                  pids := <[name := pid]> (pids d);
                  profiles := profiles d |})
  end.

(** [upsertProfile(name, profile)]: INSERT ... ON CONFLICT(name) DO UPDATE *)
Definition upsertProfile (name : string) (profile : ProfileRow) (db : t) : Result t :=
  match getDb db with
  | Throw e => Throw e
  | Ok d =>
      Ok (Some {| servers := servers d;
                  pids := pids d;
                  profiles := <[name := profile]> (profiles d) |})
  end.

(** [removeProfile(name)] *)
Definition removeProfile (name : string) (db : t) : Result (t * bool) :=
  match getDb db with
  | Throw e => Throw e
  | Ok d =>
      Ok (Some {| servers := servers d;
                  pids := pids d;
                  profiles := delete name (profiles d) |},
          bool_decide (is_Some (profiles d !! name)))
  end.

(** [getProfile(name)] *)
Definition getProfile (name : string) (db : t) : Result (option ProfileRow) :=
  match getDb db with
  | Throw e => Throw e
  | Ok d => Ok (profiles d !! name)
  end.

(** [listDbProfiles()], each row with its name, in the order of the
    keys (the query has no [ORDER BY]). *)
Definition listDbProfiles (db : t) : Result (list (string * ProfileRow)) :=
  match getDb db with
  | Throw e => Throw e
  | Ok d => Ok (map_to_list (profiles d))
  end.

(** The names under which table [servers] has a row; nothing is stored
    before [initDb]. *)
Definition stored_server (name : string) (db : t) : option ServerRow :=
  db ≫= (λ d, servers d !! name).

Definition stored_profile (name : string) (db : t) : option ProfileRow :=
  db ≫= (λ d, profiles d !! name).

Definition stored_pid (name : string) (db : t) : option nat :=
  db ≫= (λ d, pids d !! name).

(** The rows of [name] in tables [servers] and [pids] are in [d'] what
    they are in [d]. *)
Definition same_rows (name : string) (d d' : t) : Prop :=
  stored_server name d' = stored_server name d
  ∧ stored_pid name d' = stored_pid name d.

(** [getServer(name)] *)
Definition getServer (name : string) (db : t) : Result (option ServerConfig.t) :=
  match getDb db with
  | Throw e => Throw e
  | Ok d => Ok (config_of_row name <$> servers d !! name)
  end.

(** [removeServer(name)]; the boolean is [result.changes > 0]. *)
Definition removeServer (name : string) (db : t) : Result (t * bool) :=
  match getDb db with
  | Throw e => Throw e
  | Ok d =>
      Ok (Some {| servers := delete name (servers d);
                  pids := pids d;
                  profiles := profiles d |},
          bool_decide (is_Some (servers d !! name)))
  end.
End Db.

(** ** The request queue ([request-queue.ts]) *)

Module RequestQueue.
Import ServerInstance.

Record QueuedRequest := {
  serverName : string;
  toolName : string;
  args : string;
  enqueuedAt : nat;
}.

(** [executing] is not a field of the class: it records the calls that
    [_execute] has handed to the executor and that have not settled. *)
Record t := mk {
  queues : gmap string (list QueuedRequest);
  instances : gmap string (list ServerInstance.t);
  pendingScaleUps : gset string;
  executing : list (QueuedRequest * string);
}.

Definition empty : t := mk ∅ ∅ ∅ [].

(** The array after [arr[existing] = instance] or [arr.push(instance)]. *)
Fixpoint replace_or_push (instance : ServerInstance.t) (arr : list ServerInstance.t)
  : list ServerInstance.t :=
  match arr with
  | [] => [instance]
  | i :: rest =>
      if decide (internalName i = internalName instance) then instance :: rest
      else i :: replace_or_push instance rest
  end.

(** [registerInstance(instance)] *)
Definition registerInstance (instance : ServerInstance.t) (q : t) : t :=
  let arr := default [] (instances q !! baseName instance) in
  mk (queues q)
     (<[baseName instance := replace_or_push instance arr]> (instances q))
     (pendingScaleUps q) (executing q).

(** [getInstances(baseName)] *)
Definition getInstances (base : string) (q : t) : list ServerInstance.t :=
  default [] (instances q !! base).

(** What identifies a registered instance: its name and its index. *)
Definition slot (i : ServerInstance.t) : string * nat :=
  (internalName i, index i).

(** [clearPendingScaleUp(serverName)] *)
Definition clearPendingScaleUp (server : string) (q : t) : t :=
  mk (queues q) (instances q) (pendingScaleUps q ∖ {[server]}) (executing q).

(** [drainServer(serverName, reason)]; the number is the count of
    rejected requests. *)
Definition drainServer (server : string) (q : t) : t * nat :=
  (mk (delete server (queues q))
      (delete server (instances q))
      (pendingScaleUps q ∖ {[server]})
      (executing q),
   length (default [] (queues q !! server))).

(** The [for] loop of [_dispatch]: every idle instance takes the head of
    the queue and is marked busy ([_execute] sets [busy] before its
    first [await]). *)
Fixpoint dispatch_loop (insts : list ServerInstance.t) (queue : list QueuedRequest)
  : list ServerInstance.t * list QueuedRequest * list (QueuedRequest * string) :=
  match insts with
  | [] => ([], queue, [])
  | instance :: rest =>
      match queue with
      | [] => (insts, [], [])
      | request :: queue' =>
          if busy instance then
            let '(rest', q', started) := dispatch_loop rest queue in
            (instance :: rest', q', started)
          else
            let '(rest', q', started) := dispatch_loop rest queue' in
            (set_busy true instance :: rest', q',
             (request, internalName instance) :: started)
      end
  end.

(** [_dispatch(serverName)] at time [now] *)
Definition _dispatch (server : string) (now : nat) (q : t) : t :=
  match queues q !! server with
  | None => q
  | Some [] => q
  | Some queue =>
      let q1 :=
        match instances q !! server with
        | Some (_ :: _) => q
        | _ => registerInstance (ServerInstance.mk server server 0 false now) q
        end in
      let '(insts', queue', started) :=
        dispatch_loop (default [] (instances q1 !! server)) queue in
      mk (<[server := queue']> (queues q1))
         (<[server := insts']> (instances q1))
         (pendingScaleUps q1)
         (executing q1 ++ started)
  end.

(** The instances that pass the test [!instance.busy] of the loop. *)
Definition idle (insts : list ServerInstance.t) : list ServerInstance.t :=
  filter (λ i, busy i = false) insts.

(** [triggerDispatch(serverName)] *)
Definition triggerDispatch (server : string) (now : nat) (q : t) : t :=
  _dispatch server now q.

(** [enqueue(serverName, toolName, args)] up to the returned promise *)
Definition enqueue (server tool arguments : string) (now : nat) (q : t) : t :=
  let queue := default [] (queues q !! server) in
  let request := {| serverName := server; toolName := tool;
                    args := arguments; enqueuedAt := now |} in
  _dispatch server now
    (mk (<[server := queue ++ [request]]> (queues q))
        (instances q) (pendingScaleUps q) (executing q)).

(** The array after [arr.splice(idx, 1)] at the first match, if any. *)
Fixpoint splice_first (name : string) (arr : list ServerInstance.t)
  : list ServerInstance.t :=
  match arr with
  | [] => []
  | i :: rest =>
      if decide (internalName i = name) then rest else i :: splice_first name rest
  end.

(** [unregisterInstance(internalName, baseName)] *)
Definition unregisterInstance (name base : string) (q : t) : t :=
  match instances q !! base with
  | None => q
  | Some arr =>
      let arr' := splice_first name arr in
      mk (queues q)
         (if bool_decide (length arr' = 0) then delete base (instances q)
          else <[base := arr']> (instances q))
         (pendingScaleUps q) (executing q)
  end.

(** [getQueueDepth(serverName)] *)
Definition getQueueDepth (server : string) (q : t) : nat :=
  length (default [] (queues q !! server)).

(** [now - t > limit] and [now - t < limit] on JavaScript numbers: the
    difference can be negative. *)
Definition older_than (limit now t : nat) : bool :=
  bool_decide (Z.of_nat limit < Z.of_nat now - Z.of_nat t)%Z.
Definition younger_than (limit now t : nat) : bool :=
  bool_decide (Z.of_nat now - Z.of_nat t < Z.of_nat limit)%Z.

Section tick.
(** [QUEUE_REQUEST_TTL_MS] and [SCALE_UP_WAIT_MS], read from the
    environment at start-up. *)
Variable QUEUE_REQUEST_TTL_MS : nat.
Variable SCALE_UP_WAIT_MS : nat.

(** The [while] loop of [_expireStaleRequests] on one queue: the
    requests it rejects and the queue it leaves. *)
Fixpoint expire_head (now : nat) (queue : list QueuedRequest)
  : list QueuedRequest * list QueuedRequest :=
  match queue with
  | [] => ([], [])
  | request :: rest =>
      if older_than QUEUE_REQUEST_TTL_MS now (enqueuedAt request)
      then let '(expired, kept) := expire_head now rest in (request :: expired, kept)
      else ([], queue)
  end.

(** [_expireStaleRequests()] at time [now]: the queue afterwards and,
    per server, the requests rejected with a timeout.  The loop treats
    each entry of [queues] on its own, so the order of the entries does
    not show. *)
Definition _expireStaleRequests (now : nat) (q : t)
  : t * gmap string (list QueuedRequest) :=
  (mk (omap (λ queue, match (expire_head now queue).2 with
                      | [] => None
                      | kept => Some kept
                      end) (queues q))
      (instances q) (pendingScaleUps q) (executing q),
   filter (λ kv, kv.2 ≠ []) ((λ queue, (expire_head now queue).1) <$> queues q)).

(** The tests of [_checkScaleUp] on one entry of [queues]. *)
Definition wants_scale_up (now : nat) (q : t) (server : string)
    (queue : list QueuedRequest) : bool :=
  match queue with
  | [] => false
  | oldest :: _ =>
      if bool_decide (server ∈ pendingScaleUps q) then false
      else if younger_than SCALE_UP_WAIT_MS now (enqueuedAt oldest) then false
      else match instances q !! server with
           | None | Some [] => false
           | Some insts => forallb busy insts
           end
  end.

(** [_checkScaleUp()] at time [now]: the queue afterwards and the servers
    for which [onScaleUp] is called.  Each entry is tested against its
    own queue, instances and pending flag only, and a signal sets the
    flag of its own server only. *)
Definition _checkScaleUp (now : nat) (q : t) : t * gset string :=
  let signalled : gset string :=
    dom (filter (λ kv, wants_scale_up now q kv.1 kv.2 = true) (queues q)) in
  (mk (queues q) (instances q) (pendingScaleUps q ∪ signalled) (executing q),
   signalled).
End tick.
End RequestQueue.

(** ** The process manager ([process-manager.ts]) *)

(** What the outside world does during one spawn attempt. *)
Record SpawnOutcome := {
  (* chunks the child writes to stderr while the client connects *)
  stderr_chunks : list string;
  (* None: client.connect resolved within CONNECT_TIMEOUT_MS;
     Some e: it rejected, or the timeout won, with message e *)
  connect_error : option string;
  (* the transport closes while client.connect is pending, as it does
     when the child exits before the handshake; a close after the
     connect has resolved is a step of its own *)
  closed_while_connecting : bool;
  (* transport.pid *)
  transport_pid : option nat;
  (* the tools listTools() returns, None if it throws *)
  listTools_result : option (list CachedTool);
}.

Module ProcessManager.
Import JsString.

(** A pending [setTimeout] of [_scheduleReconnect]: its delay in ms and
    the object its callback has captured. *)
Record Timer := {
  delay : nat;
  owner : nat;
}.

(** The fields of the class that the modelled methods read or write,
    together with the store they write to. *)
Record t := mk {
  servers : list (string * ManagedServer.t);
  reconnectTimers : gmap string Timer;
  requestQueue : RequestQueue.t;
  scalingInProgress : gset string;
  (* sessionId -> (serverName -> internalName) *)
  sessionInstances : gmap string (list (string * string));
  sessionTempDirs : gmap string (list string);
  next_oid : nat;
  db : Db.t;
}.

Definition set_servers (v : list (string * ManagedServer.t)) (pm : t) : t :=
  mk v (reconnectTimers pm) (requestQueue pm) (scalingInProgress pm)
     (sessionInstances pm) (sessionTempDirs pm) (next_oid pm) (db pm).
Definition set_reconnectTimers (v : gmap string Timer) (pm : t) : t :=
  mk (servers pm) v (requestQueue pm) (scalingInProgress pm)
     (sessionInstances pm) (sessionTempDirs pm) (next_oid pm) (db pm).
Definition set_requestQueue (v : RequestQueue.t) (pm : t) : t :=
  mk (servers pm) (reconnectTimers pm) v (scalingInProgress pm)
     (sessionInstances pm) (sessionTempDirs pm) (next_oid pm) (db pm).
Definition set_scalingInProgress (v : gset string) (pm : t) : t :=
  mk (servers pm) (reconnectTimers pm) (requestQueue pm) v
     (sessionInstances pm) (sessionTempDirs pm) (next_oid pm) (db pm).
Definition set_sessionInstances (v : gmap string (list (string * string))) (pm : t) : t :=
  mk (servers pm) (reconnectTimers pm) (requestQueue pm) (scalingInProgress pm)
     v (sessionTempDirs pm) (next_oid pm) (db pm).
Definition set_sessionTempDirs (v : gmap string (list string)) (pm : t) : t :=
  mk (servers pm) (reconnectTimers pm) (requestQueue pm) (scalingInProgress pm)
     (sessionInstances pm) v (next_oid pm) (db pm).
Definition set_next_oid (v : nat) (pm : t) : t :=
  mk (servers pm) (reconnectTimers pm) (requestQueue pm) (scalingInProgress pm)
     (sessionInstances pm) (sessionTempDirs pm) v (db pm).
Definition set_db (v : Db.t) (pm : t) : t :=
  mk (servers pm) (reconnectTimers pm) (requestQueue pm) (scalingInProgress pm)
     (sessionInstances pm) (sessionTempDirs pm) (next_oid pm) v.

(** A manager right after construction, with the store as given. *)
Definition init (d : Db.t) : t := mk [] ∅ RequestQueue.empty ∅ ∅ ∅ 0 d.

(** A mutation of a [ManagedServer] is seen through the [servers] map
    that holds the object. *)
Definition put (m : ManagedServer.t) (pm : t) : t :=
  set_servers (JsMap.set (ManagedServer.name m) m (servers pm)) pm.

Definition nl : string := String "010"%char "".

(** [name.includes("#") || name.includes("@")] *)
Definition is_derived_name (name : string) : bool :=
  includes "#" name || includes "@" name.

(** *** Persistence sweeps *)

(** The loop of [saveLocalConfig]; a throwing [upsertServer] leaves the
    loop through the enclosing [catch]. *)
Fixpoint saveLocalConfig_loop (values : list ManagedServer.t) (d : Db.t) : Db.t :=
  match values with
  | [] => d
  | server :: rest =>
      if is_derived_name (ManagedServer.name server) then saveLocalConfig_loop rest d
      else match Db.upsertServer (ManagedServer.config server) d with
           | Ok d' => saveLocalConfig_loop rest d'
           | Throw _ => d
           end
  end.

(** [saveLocalConfig()] *)
Definition saveLocalConfig (pm : t) : t :=
  set_db (saveLocalConfig_loop (JsMap.values (servers pm)) (db pm)) pm.

(** [if (server.pid)]: [null] and [0] are falsy. *)
Definition pid_truthy (pid : option nat) : option nat :=
  match pid with
  | Some (S p) => Some (S p)
  | _ => None
  end.

(** The loop of [savePids]. *)
Fixpoint savePids_loop (entries : list (string * ManagedServer.t)) (d : Db.t) : Db.t :=
  match entries with
  | [] => d
  | (name, server) :: rest =>
      if is_derived_name name then savePids_loop rest d
      else match pid_truthy (ManagedServer.pid server) with
           | None => savePids_loop rest d
           | Some pid =>
               match Db.savePid name pid d with
               | Ok d' => savePids_loop rest d'
               | Throw _ => d
               end
           end
  end.

(** [savePids()] *)
Definition savePids (pm : t) : t :=
  set_db (savePids_loop (servers pm) (db pm)) pm.

(** *** Stop *)

(** [stopServer(name)].  Closing the client and the transport, and the
    fields reset afterwards, concern only the object that has just left
    the map. *)
Definition stopServer (name : string) (pm : t) : t :=
  let pm0 := set_reconnectTimers (delete name (reconnectTimers pm)) pm in
  match JsMap.get name (servers pm0) with
  | None => pm0
  | Some server =>
      let pm1 := set_servers (JsMap.delete name (servers pm0)) pm0 in
      let baseName :=
        if includes "#" name then slice0 (default 0 (indexOf "#" name)) name
        else name in
      let '(queue', drained) := RequestQueue.drainServer baseName (requestQueue pm1) in
      let pm2 := set_requestQueue queue' pm1 in
      if negb (includes "@" name) && negb (includes "#" name)
      then saveLocalConfig (savePids pm2)
      else pm2
  end.

(** *** The close handlers and the reconnect timer *)

(** [_scheduleReconnect(managed)] up to [setTimeout]: the object and the
    timer map afterwards. *)
Definition _scheduleReconnect (managed : ManagedServer.t)
    (timers : gmap string Timer) : ManagedServer.t * gmap string Timer :=
  if decide (ManagedServer.status managed = stopped) then (managed, timers)
  else if bool_decide (Config.AUTO_RECONNECT_MAX_RETRIES
                       ≤ ManagedServer.reconnectAttempts managed)
  then (managed, timers)
  else
    let delay := Config.AUTO_RECONNECT_BASE_DELAY_MS
                 * 2 ^ ManagedServer.reconnectAttempts managed in
    let managed' := ManagedServer.set_reconnectAttempts
                      (S (ManagedServer.reconnectAttempts managed)) managed in
    (managed',
     <[ManagedServer.name managed :=
         {| delay := delay; owner := ManagedServer.oid managed |}]> timers).

(** [managed.status === "connected" || managed.status === "connecting"] *)
Definition is_up (managed : ManagedServer.t) : bool :=
  bool_decide (ManagedServer.status managed = connected)
  || bool_decide (ManagedServer.status managed = connecting).

(** The five markers of a permanent failure, looked for in the
    lower-cased stderr tail.  [toLowerCase] acts on the letters A to Z;
    the markers are made of ASCII characters only. *)
Definition lower_char (c : ascii) : ascii :=
  let n := nat_of_ascii c in
  if bool_decide (65 ≤ n) && bool_decide (n ≤ 90) then ascii_of_nat (n + 32) else c.

Fixpoint toLowerCase (s : string) : string :=
  match s with
  | "" => ""
  | String c s' => String (lower_char c) (toLowerCase s')
  end.

Definition isPermanentFailure (stderrBuffer : list string) : bool :=
  let stderrText := toLowerCase (join nl stderrBuffer) in
  includes "e404" stderrText
  || includes "not found" stderrText
  || includes "enoent" stderrText
  || includes "command not found" stderrText
  || includes "not in this registry" stderrText.

(** [transport.onclose] as [_spawnStdio] installs it *)
Definition onclose_stdio (managed : ManagedServer.t) (timers : gmap string Timer)
  : ManagedServer.t * gmap string Timer :=
  if is_up managed then
    let m1 := ManagedServer.set_errorMessage
                (Some "Server process exited unexpectedly. Check stderr for details.")
                (ManagedServer.set_status error managed) in
    if includes "@" (ServerConfig.name (ManagedServer.config m1)) then (m1, timers)
    else if isPermanentFailure (ManagedServer.stderrBuffer m1) then
      (ManagedServer.set_errorMessage
         (Some ("Permanent failure: "
                +:+ join nl (Stderr.last_n 5 (ManagedServer.stderrBuffer m1))))
         m1,
       timers)
    else _scheduleReconnect m1 timers
  else (managed, timers).

(** [transport.onclose] as [_spawnSSE] installs it *)
Definition onclose_sse (managed : ManagedServer.t) (timers : gmap string Timer)
  : ManagedServer.t * gmap string Timer :=
  if is_up managed then
    _scheduleReconnect
      (ManagedServer.set_errorMessage (Some "SSE connection closed unexpectedly.")
         (ManagedServer.set_status error managed))
      timers
  else (managed, timers).

(** [transport.onclose] as [_spawnStreamableHTTP] installs it *)
Definition onclose_http (managed : ManagedServer.t) (timers : gmap string Timer)
  : ManagedServer.t * gmap string Timer :=
  if is_up managed then
    _scheduleReconnect
      (ManagedServer.set_errorMessage (Some "HTTP connection closed unexpectedly.")
         (ManagedServer.set_status error managed))
      timers
  else (managed, timers).

(** The handler that the spawn of [managed] has installed on its
    transport: [_doSpawn] picks the spawn method by [config.type]. *)
Definition onclose (managed : ManagedServer.t) (timers : gmap string Timer)
  : ManagedServer.t * gmap string Timer :=
  match ServerConfig.type (ManagedServer.config managed) with
  | STDIO => onclose_stdio managed timers
  | SSE => onclose_sse managed timers
  | STREAMABLE_HTTP => onclose_http managed timers
  | OTHER _ => (managed, timers)
  end.

(** *** Spawn *)

(** [!config.command], [!config.url] *)
Definition missing (x : option string) : bool :=
  match x with
  | Some s => negb (truthy s)
  | None => true
  end.

(** [client.connect(transport)] raced against the connect timeout, with
    the close handler [handler] installed on the transport.  When the
    transport closes while the connect is pending, the handler runs on
    the object, whose status is still [connecting], before the connect
    is rejected. *)
Definition connect (out : SpawnOutcome)
    (handler : ManagedServer.t → gmap string Timer
               → ManagedServer.t * gmap string Timer)
    (managed : ManagedServer.t) (timers : gmap string Timer)
  : ManagedServer.t * gmap string Timer * Result unit :=
  match connect_error out with
  | Some e =>
      let '(managed', timers') :=
        if closed_while_connecting out then handler managed timers
        else (managed, timers) in
      (managed', timers', Throw e)
  | None => (managed, timers, Ok ())
  end.

(** [_spawnStdio(managed, config)]: the object and the reconnect timers
    as the call leaves them, and whether the call returned or threw. *)
Definition _spawnStdio (managed : ManagedServer.t) (config : ServerConfig.t)
    (out : SpawnOutcome) (timers : gmap string Timer)
  : ManagedServer.t * gmap string Timer * Result unit :=
  if missing (ServerConfig.command config)
  then (managed, timers, Throw "STDIO servers require a command.")
  else
    let m1 := ManagedServer.set_transport (Some (TheTransport STDIO)) managed in
    let m2 := ManagedServer.set_client (Some TheClient) m1 in
    let m3 := ManagedServer.set_stderrBuffer
                (foldl Stderr.on_data (ManagedServer.stderrBuffer m2) (stderr_chunks out))
                m2 in
    match connect out onclose_stdio m3 timers with
    | (m4, timers', Throw e) => (m4, timers', Throw e)
    | (m4, timers', Ok _) =>
        (ManagedServer.set_pid (transport_pid out) m4, timers', Ok ())
    end.

(** [_spawnSSE(managed, config)] *)
Definition _spawnSSE (managed : ManagedServer.t) (config : ServerConfig.t)
    (out : SpawnOutcome) (timers : gmap string Timer)
  : ManagedServer.t * gmap string Timer * Result unit :=
  if missing (ServerConfig.url config)
  then (managed, timers, Throw "SSE servers require a URL.")
  else
    let m1 := ManagedServer.set_transport (Some (TheTransport SSE)) managed in
    let m2 := ManagedServer.set_client (Some TheClient) m1 in
    connect out onclose_sse m2 timers.

(** [_spawnStreamableHTTP(managed, config)] *)
Definition _spawnStreamableHTTP (managed : ManagedServer.t) (config : ServerConfig.t)
    (out : SpawnOutcome) (timers : gmap string Timer)
  : ManagedServer.t * gmap string Timer * Result unit :=
  if missing (ServerConfig.url config)
  then (managed, timers, Throw "Streamable HTTP servers require a URL.")
  else
    let m1 := ManagedServer.set_transport (Some (TheTransport STREAMABLE_HTTP)) managed in
    let m2 := ManagedServer.set_client (Some TheClient) m1 in
    connect out onclose_http m2 timers.

(** The object literal at the head of [_doSpawn]. *)
Definition fresh_managed (id : nat) (config : ServerConfig.t) : ManagedServer.t :=
  ManagedServer.mk id (ServerConfig.name config) config None None connecting
                   [] None [] None 0.

(** The message the [catch] of [_doSpawn] leaves in [errorMessage]. *)
Definition spawn_error_message (e : string) (stderrBuffer : list string) : string :=
  if bool_decide (0 < length stderrBuffer)
  then e +:+ nl +:+ nl +:+ "Stderr output:" +:+ nl
         +:+ join nl (Stderr.last_n 10 stderrBuffer)
  else e.

(** [_doSpawn(config)], run to completion: the manager afterwards and
    the [ManagedServer] it returns. *)
Definition _doSpawn (config : ServerConfig.t) (out : SpawnOutcome) (pm : t)
  : t * ManagedServer.t :=
  let name := ServerConfig.name config in
  let pm1 := if JsMap.has name (servers pm) then stopServer name pm else pm in
  let managed := fresh_managed (next_oid pm1) config in
  let pm2 := put managed (set_next_oid (S (next_oid pm1)) pm1) in
  let attempt :=
    match ServerConfig.type config with
    | STDIO => Some (_spawnStdio managed config out (reconnectTimers pm2))
    | SSE => Some (_spawnSSE managed config out (reconnectTimers pm2))
    | STREAMABLE_HTTP =>
        Some (_spawnStreamableHTTP managed config out (reconnectTimers pm2))
    | OTHER _ => None
    end in
  match attempt with
  | None =>
      let m := ManagedServer.set_errorMessage
                 (Some ("Unknown transport type: "
                        +:+ type_name (ServerConfig.type config)))
                 (ManagedServer.set_status error managed) in
      (put m pm2, m)
  | Some (m, timers, Ok _) =>
      let pm3 := set_reconnectTimers timers pm2 in
      let m1 := ManagedServer.set_reconnectAttempts 0
                  (ManagedServer.set_status connected m) in
      let m2 := match listTools_result out with
                | Some tools => ManagedServer.set_tools tools m1
                | None => m1
                end in
      (saveLocalConfig (savePids (put m2 pm3)), m2)
  | Some (m, timers, Throw e) =>
      let pm3 := set_reconnectTimers timers pm2 in
      let m1 := ManagedServer.set_errorMessage
                  (Some (spawn_error_message e (ManagedServer.stderrBuffer m)))
                  (ManagedServer.set_status error m) in
      let m2 := ManagedServer.set_transport None
                  (ManagedServer.set_client None m1) in
      (put m2 pm3, m2)
  end.

(** [spawnServer(config)].  With every operation run to completion no
    spawn of the same name is in flight, so the lock is free. *)
Definition spawnServer (config : ServerConfig.t) (out : SpawnOutcome) (pm : t)
  : t * ManagedServer.t :=
  _doSpawn config out pm.

(** *** Transport close and reconnect *)

(** The transport of the live server called [name] closes. *)
Definition transport_closed (name : string) (pm : t) : t :=
  match JsMap.get name (servers pm) with
  | None => pm
  | Some managed =>
      let '(managed', timers) := onclose managed (reconnectTimers pm) in
      set_reconnectTimers timers (put managed' pm)
  end.

(** The callback of the timer that [_scheduleReconnect] has set for
    [name] runs; [out] is what the new spawn attempt meets. *)
Definition reconnect_timer_fired (name : string) (out : SpawnOutcome) (pm : t) : t :=
  match reconnectTimers pm !! name with
  | None => pm
  | Some timer =>
      let pm0 := set_reconnectTimers (delete name (reconnectTimers pm)) pm in
      match JsMap.get name (servers pm0) with
      | None => pm0
      | Some managed =>
          if negb (bool_decide (ManagedServer.oid managed = owner timer)) then pm0
          else if decide (ManagedServer.status managed = stopped) then pm0
          else
            let config := ManagedServer.config managed in
            let pm1 := set_servers (JsMap.delete name (servers pm0)) pm0 in
            let '(pm2, newManaged) := _doSpawn config out pm1 in
            if decide (ManagedServer.status newManaged = connected)
            then put (ManagedServer.set_reconnectAttempts 0 newManaged) pm2
            else put (ManagedServer.set_reconnectAttempts
                        (ManagedServer.reconnectAttempts managed) newManaged) pm2
      end
  end.

(** *** Pool scaling *)

(** [while (existingIndexes.has(newIndex)) newIndex++;]  The loop ends
    because each round leaves one index of the set behind. *)
Equations? next_free_index (existingIndexes : gset nat) (newIndex : nat) : nat
  by wf (size (filter (λ i, newIndex ≤ i) existingIndexes)) lt :=
  next_free_index existingIndexes newIndex with decide (newIndex ∈ existingIndexes) := {
    | left _ => next_free_index existingIndexes (S newIndex)
    | right _ => newIndex }.
Proof.
  apply subset_size. split.
  - intros i Hi. apply elem_of_filter in Hi as [Hle Hi].
    apply elem_of_filter. split; [lia | done].
  - intros Hsub. specialize (Hsub newIndex).
    rewrite !elem_of_filter in Hsub.
    destruct Hsub as [Hlt _]; [split; [lia | done] | lia].
Qed.

(** [k] is the least index from [n] on that [existing] does not hold. *)
Definition least_free_from (n : nat) (existing : gset nat) (k : nat) : Prop :=
  n ≤ k ∧ (k ∉ existing) ∧ (∀ j, n ≤ j → j < k → j ∈ existing).

(** The indexes of the instances registered for [base]. *)
Definition indexes_in_use (base : string) (pm : t) : gset nat :=
  list_to_set (ServerInstance.index
                 <$> RequestQueue.getInstances base (requestQueue pm)).

(** What [_handleScaleUp] has decided when it reaches its [try]. *)
Inductive ScaleUpDecision :=
  | AlreadyScaling
  | Refused
  | ScaleTo (newIndex : nat) (internalName : string) (config : ServerConfig.t).

Section scaling.
(** [MAX_SERVER_INSTANCES], read from the environment at start-up. *)
Variable MAX_SERVER_INSTANCES : nat.

(** [_handleScaleUp(serverName)] up to the choice of the new name. *)
Definition scale_up_decision (serverName : string) (pm : t) : ScaleUpDecision :=
  if bool_decide (serverName ∈ scalingInProgress pm) then AlreadyScaling
  else
    let instances := RequestQueue.getInstances serverName (requestQueue pm) in
    if bool_decide (MAX_SERVER_INSTANCES ≤ length instances) then Refused
    else
      match JsMap.get serverName (servers pm) with
      | None => Refused
      | Some primaryServer =>
          let primaryConfig := ManagedServer.config primaryServer in
          if negb (bool_decide (ServerConfig.type primaryConfig = STDIO))
             || bool_decide (ServerConfig.stateful primaryConfig = Some true)
          then Refused
          else
            let existingIndexes : gset nat :=
              list_to_set (ServerInstance.index <$> instances) in
            let newIndex := next_free_index existingIndexes 1 in
            let internalName := serverName +:+ "#" +:+ pretty newIndex in
            ScaleTo newIndex internalName
                    (ServerConfig.with_name internalName primaryConfig)
      end.

(** [_handleScaleUp(serverName)] at time [now]; [out] is what the
    spawn of the new instance meets. *)
Definition _handleScaleUp (serverName : string) (out : SpawnOutcome) (now : nat)
    (pm : t) : t :=
  match scale_up_decision serverName pm with
  | AlreadyScaling => pm
  | Refused =>
      set_requestQueue
        (RequestQueue.clearPendingScaleUp serverName (requestQueue pm)) pm
  | ScaleTo newIndex internalName config =>
      let pm1 := set_scalingInProgress ({[serverName]} ∪ scalingInProgress pm) pm in
      let '(pm2, managed) := spawnServer config out pm1 in
      let pm3 :=
        if decide (ManagedServer.status managed = connected) then
          set_requestQueue
            (RequestQueue.triggerDispatch serverName now
               (RequestQueue.registerInstance
                  (ServerInstance.mk internalName serverName newIndex false now)
                  (requestQueue pm2)))
            pm2
        else if JsMap.has internalName (servers pm2)
        then stopServer internalName pm2
        else pm2 in
      set_requestQueue
        (RequestQueue.clearPendingScaleUp serverName (requestQueue pm3))
        (set_scalingInProgress (scalingInProgress pm3 ∖ {[serverName]}) pm3)
  end.
End scaling.

(** *** Calls and session-owned instances *)

(** The two early returns of [callTool]; past them the call goes to the
    worker, whose answer is not modelled. *)
Inductive CallGate :=
  | ServerNotFound
  | ServerNotConnected (status : Status)
  | Forwarded.

Definition callTool_gate (serverName : string) (pm : t) : CallGate :=
  match JsMap.get serverName (servers pm) with
  | None => ServerNotFound
  | Some server =>
      if negb (bool_decide (ManagedServer.status server = connected))
         || negb (bool_decide (is_Some (ManagedServer.client server)))
      then ServerNotConnected (ManagedServer.status server)
      else Forwarded
  end.

(** What [callToolQueued] answers with, or whom it asks. *)
Inductive QueuedReply :=
  | NoPrimaryForSession
  | SessionSpawnFailed (internalName : string) (errorMessage : option string)
  | DirectCall (internalName : string) (gate : CallGate)
  | Enqueued.

(** The launch arguments of a session instance: the branch of
    [_callStatefulInstance] for Playwright and Puppeteer.  [tempDir] is
    the directory [mkdtempSync] would create; the result also tells
    whether it was used. *)
Definition session_config (primaryConfig : ServerConfig.t) (internalName tempDir : string)
  : ServerConfig.t * bool :=
  let sessionConfig := ServerConfig.with_name internalName primaryConfig in
  match ServerConfig.type primaryConfig, ServerConfig.args primaryConfig with
  | STDIO, Some primaryArgs =>
      if bool_decide (ServerConfig.command primaryConfig = Some "npx")
         || bool_decide (ServerConfig.command primaryConfig = Some "node")
      then
        let argsStr := toLowerCase (join " " primaryArgs) in
        if includes "playwright" argsStr
        then (ServerConfig.with_args (primaryArgs ++ ["--isolated"]) sessionConfig, false)
        else if includes "puppeteer" argsStr
        then (ServerConfig.with_args
                (primaryArgs ++ ["--user-data-dir=" +:+ tempDir]) sessionConfig,
              true)
        else (sessionConfig, false)
      else (sessionConfig, false)
  | _, _ => (sessionConfig, false)
  end.

(** [_callStatefulInstance(serverName, toolName, args, sessionId)] *)
Definition _callStatefulInstance (serverName sessionId tempDir : string)
    (out : SpawnOutcome) (pm : t) : t * QueuedReply :=
  let shortSession := slice0 8 sessionId in
  let internalName := serverName +:+ "@" +:+ shortSession in
  let sessionMap := default [] (sessionInstances pm !! sessionId) in
  let pm0 := set_sessionInstances (<[sessionId := sessionMap]> (sessionInstances pm)) pm in
  if (negb (JsMap.has serverName sessionMap) || negb (JsMap.has internalName (servers pm0)))
     && negb (JsMap.has internalName (servers pm0))
  then
    match JsMap.get serverName (servers pm0) with
    | None => (pm0, NoPrimaryForSession)
    | Some primary =>
        let '(sessionConfig, usedTempDir) :=
          session_config (ManagedServer.config primary) internalName tempDir in
        let pm1 :=
          if usedTempDir
          then set_sessionTempDirs
                 (<[sessionId := default [] (sessionTempDirs pm0 !! sessionId) ++ [tempDir]]>
                    (sessionTempDirs pm0)) pm0
          else pm0 in
        let '(pm2, managed) := spawnServer sessionConfig out pm1 in
        if negb (bool_decide (ManagedServer.status managed = connected))
        then (pm2, SessionSpawnFailed internalName (ManagedServer.errorMessage managed))
        else
          let pm3 := set_sessionInstances
                       (<[sessionId := JsMap.set serverName internalName sessionMap]>
                          (sessionInstances pm2)) pm2 in
          (pm3, DirectCall internalName (callTool_gate internalName pm3))
    end
  else (pm0, DirectCall internalName (callTool_gate internalName pm0)).

(** [callToolQueued(serverName, toolName, args, sessionId?)] at time [now] *)
Definition callToolQueued (serverName toolName args : string)
    (sessionId : option string) (tempDir : string) (out : SpawnOutcome) (now : nat)
    (pm : t) : t * QueuedReply :=
  let primaryStateful :=
    match JsMap.get serverName (servers pm) with
    | Some primaryServer =>
        bool_decide (ServerConfig.stateful (ManagedServer.config primaryServer) = Some true)
    | None => false
    end in
  let sessionGiven :=
    match sessionId with
    | Some sid => truthy sid
    | None => false
    end in
  if sessionGiven && primaryStateful
  then _callStatefulInstance serverName (default "" sessionId) tempDir out pm
  else
    let q := requestQueue pm in
    let q1 :=
      if bool_decide (length (RequestQueue.getInstances serverName q) = 0)
         && JsMap.has serverName (servers pm)
      then RequestQueue.registerInstance
             (ServerInstance.mk serverName serverName 0 false now) q
      else q in
    (set_requestQueue (RequestQueue.enqueue serverName toolName args now q1) pm,
     Enqueued).
(** *** The shape of the live index *)

(** Every entry of the live index is filed under the name of its object,
    which is also the name in its configuration, and no name is filed
    twice. *)
Definition filed_by_name (live : list (string * ManagedServer.t)) : Prop :=
  NoDup (JsMap.keys live)
  ∧ ∀ k m, (k, m) ∈ live →
      ManagedServer.name m = k ∧ ServerConfig.name (ManagedServer.config m) = k.

(** The index is filed by name and the rows of [name] are those of [d]. *)
Definition filed_with_rows (name : string) (d : Db.t) (pm : t) : Prop :=
  filed_by_name (servers pm) ∧ Db.same_rows name d (db pm).

(** [restartServer(name)]; [None] stands for the [null] it returns when
    the server is not live. *)
Definition restartServer (name : string) (out : SpawnOutcome) (pm : t)
  : t * option ManagedServer.t :=
  match JsMap.get name (servers pm) with
  | None => (pm, None)
  | Some server =>
      let config := ManagedServer.config server in
      let '(pm', managed) := spawnServer config out (stopServer name pm) in
      (pm', Some managed)
  end.

(** [stopAll()]: the timers are cleared, then [stopServer] runs for
    every name that was live, in the order of the map. *)
Definition stopAll (pm : t) : t :=
  foldl (λ acc name, stopServer name acc)
        (set_reconnectTimers ∅ pm)
        (JsMap.keys (servers pm)).

(** [releaseSessionInstances(sessionId)]: the manager afterwards and the
    temporary directories handed to [rmSync]. *)
Definition releaseSessionInstances (sessionId : string) (pm : t) : t * list string :=
  match sessionInstances pm !! sessionId with
  | None | Some [] => (pm, [])
  | Some sessionMap =>
      let pm1 :=
        foldl (λ acc internalName,
                 if JsMap.has internalName (servers acc)
                 then stopServer internalName acc else acc)
              pm (JsMap.values sessionMap) in
      let pm2 := set_sessionInstances (delete sessionId (sessionInstances pm1)) pm1 in
      match sessionTempDirs pm2 !! sessionId with
      | Some tempDirs =>
          (set_sessionTempDirs (delete sessionId (sessionTempDirs pm2)) pm2, tempDirs)
      | None => (pm2, [])
      end
  end.

(** [hashIdx >= 0 ? name.slice(0, hashIdx) : name] *)
Definition base_of (name : string) : string :=
  match indexOf "#" name with
  | Some hashIdx => slice0 hashIdx name
  | None => name
  end.

(** The loop of [_getAllInstancesByBase]. *)
Fixpoint instancesByBase_loop (values : list ManagedServer.t) (seen : gset string)
    (q : RequestQueue.t) : list (string * list ServerInstance.t) :=
  match values with
  | [] => []
  | server :: rest =>
      let baseName := base_of (ManagedServer.name server) in
      if bool_decide (baseName ∈ seen) then instancesByBase_loop rest seen q
      else
        match RequestQueue.getInstances baseName q with
        | [] => instancesByBase_loop rest ({[baseName]} ∪ seen) q
        | instances =>
            (baseName, instances) :: instancesByBase_loop rest ({[baseName]} ∪ seen) q
        end
  end.

(** [_getAllInstancesByBase()] *)
Definition _getAllInstancesByBase (pm : t) : list (string * list ServerInstance.t) :=
  instancesByBase_loop (JsMap.values (servers pm)) ∅ (requestQueue pm).

Section idle.
(** [IDLE_KILL_MS], read from the environment at start-up. *)
Variable IDLE_KILL_MS : nat.

(** The four tests of [_checkIdleInstances] that spare an instance. *)
Definition idle_victim (now : nat) (instance : ServerInstance.t) : bool :=
  if bool_decide (ServerInstance.index instance = 0) then false
  else if ServerInstance.busy instance then false
  else if includes "@" (ServerInstance.internalName instance) then false
  else if RequestQueue.younger_than IDLE_KILL_MS now (ServerInstance.lastActiveAt instance)
  then false
  else true.

(** The body of the inner loop: unregister, then stop. *)
Definition reap (now : nat) (baseName : string) (pm : t) (instance : ServerInstance.t) : t :=
  if idle_victim now instance then
    stopServer (ServerInstance.internalName instance)
      (set_requestQueue
         (RequestQueue.unregisterInstance (ServerInstance.internalName instance) baseName
            (requestQueue pm))
         pm)
  else pm.

(** [_checkIdleInstances()] at time [now] *)
Definition _checkIdleInstances (now : nat) (pm : t) : t :=
  foldl (λ acc entry, foldl (reap now entry.1) acc entry.2)
        pm (_getAllInstancesByBase pm).
End idle.
End ProcessManager.

(** ** The tool handlers ([tools.ts]) *)

Module Tools.
Import JsString.

(** [/^[a-zA-Z0-9_-]+$/], the schema of a server or profile name *)
Definition name_char (c : ascii) : bool :=
  let n := nat_of_ascii c in
  (bool_decide (97 ≤ n) && bool_decide (n ≤ 122))
  || (bool_decide (65 ≤ n) && bool_decide (n ≤ 90))
  || (bool_decide (48 ≤ n) && bool_decide (n ≤ 57))
  || bool_decide (n = 95) || bool_decide (n = 45).

Fixpoint all_name_chars (s : string) : bool :=
  match s with
  | "" => true
  | String c s' => name_char c && all_name_chars s'
  end.

Definition name_matches (s : string) : bool := truthy s && all_name_chars s.

(** *** [add_managed_server] *)

Record AddServerParams := {
  name : string;
  type : TransportType;
  command : option string;
  args : option (list string);
  env : option (list (string * string));
  url : option string;
  description : option string;
  headers : option (list (string * string));
  stateful : option bool;
}.

(** The answers of the handler; [add_isError] is the [isError] flag. *)
Inductive AddServerReply :=
  | StdioRequiresCommand
  | RequiresUrl (type : TransportType)
  | FailedToStart (errorMessage : option string)
  | SuccessfullyStarted (pid : option nat) (tools : nat) (stateful : bool).

Definition add_isError (r : AddServerReply) : bool :=
  match r with
  | SuccessfullyStarted _ _ _ => false
  | _ => true
  end.

(** The [ServerConfig] the handler builds from its parameters. *)
Definition config_of (params : AddServerParams) : ServerConfig.t :=
  ServerConfig.mk (name params) (type params) (command params)
    (Some (default [] (args params)))
    (Some (default [] (env params)))
    (url params) (description params) (headers params)
    (Some (default (bool_decide (name params ∈ Config.KNOWN_STATEFUL_SERVERS))
                   (stateful params))).

(** The handler of [add_managed_server]; [out] is what the spawn meets. *)
Definition add_managed_server (params : AddServerParams) (out : SpawnOutcome)
    (pm : ProcessManager.t) : ProcessManager.t * AddServerReply :=
  if bool_decide (type params = STDIO) && ProcessManager.missing (command params)
  then (pm, StdioRequiresCommand)
  else if (bool_decide (type params = SSE) || bool_decide (type params = STREAMABLE_HTTP))
          && ProcessManager.missing (url params)
  then (pm, RequiresUrl (type params))
  else
    let config := config_of params in
    let '(pm1, managed) := ProcessManager.spawnServer config out pm in
    if decide (ManagedServer.status managed = error)
    then (pm1, FailedToStart (ManagedServer.errorMessage managed))
    else
      let pm2 :=
        match Db.upsertServer config (ProcessManager.db pm1) with
        | Ok d => ProcessManager.set_db d pm1
        | Throw _ => pm1
        end in
      (pm2,
       SuccessfullyStarted (ManagedServer.pid managed)
         (length (ManagedServer.tools managed))
         (default false (ServerConfig.stateful config))).

(** *** [remove_managed_server], [stop_server], [start_server] *)

Inductive RemoveServerReply :=
  | RemoveNeedsName
  | SuccessfullyRemoved (removedFromStore : bool)
  | ErrorRemoving (message : string).

(** The handler of [remove_managed_server] *)
Definition remove_managed_server (name : string) (pm : ProcessManager.t)
  : ProcessManager.t * RemoveServerReply :=
  if negb (truthy name) then (pm, RemoveNeedsName)
  else
    let pm1 := if JsMap.has name (ProcessManager.servers pm)
               then ProcessManager.stopServer name pm else pm in
    match Db.removeServer name (ProcessManager.db pm1) with
    | Ok (d, removed) => (ProcessManager.set_db d pm1, SuccessfullyRemoved removed)
    | Throw e => (pm1, ErrorRemoving e)
    end.

Inductive StopServerReply :=
  | NotCurrentlyRunning
  | StoppedConfigPreserved.

(** The handler of [stop_server] *)
Definition stop_server (name : string) (pm : ProcessManager.t)
  : ProcessManager.t * StopServerReply :=
  if negb (JsMap.has name (ProcessManager.servers pm)) then (pm, NotCurrentlyRunning)
  else (ProcessManager.stopServer name pm, StoppedConfigPreserved).

Inductive StartServerReply :=
  | AlreadyRunning
  | NotFoundInDatabase
  | StartFailed (errorMessage : option string)
  | StartedSuccessfully (pid : option nat) (tools : nat)
  | ErrorStarting (message : string).

(** The handler of [start_server]; [out] is what the spawn meets. *)
Definition start_server (name : string) (out : SpawnOutcome) (pm : ProcessManager.t)
  : ProcessManager.t * StartServerReply :=
  if JsMap.has name (ProcessManager.servers pm)
     && bool_decide (ManagedServer.status <$> JsMap.get name (ProcessManager.servers pm)
                     = Some connected)
  then (pm, AlreadyRunning)
  else
    match Db.getServer name (ProcessManager.db pm) with
    | Throw e => (pm, ErrorStarting e)
    | Ok None => (pm, NotFoundInDatabase)
    | Ok (Some config) =>
        let '(pm1, managed) := ProcessManager.spawnServer config out pm in
        if decide (ManagedServer.status managed = error)
        then (pm1, StartFailed (ManagedServer.errorMessage managed))
        else (pm1, StartedSuccessfully (ManagedServer.pid managed)
                     (length (ManagedServer.tools managed)))
    end.

(** *** [update_server] *)

Record UpdateServerParams := {
  u_name : string;
  u_command : option string;
  u_args : option (list string);
  u_env : option (list (string * string));
  u_url : option string;
  u_description : option string;
  u_headers : option (list (string * string));
  u_stateful : option bool;
}.

(** [if (params.x !== undefined) config.x = params.x] *)
Definition merged {A} (given current : option A) : option A :=
  match given with
  | Some x => Some x
  | None => current
  end.

(** The configuration after the handler has merged the fields given. *)
Definition merge_update (params : UpdateServerParams) (config : ServerConfig.t)
  : ServerConfig.t :=
  ServerConfig.mk (ServerConfig.name config) (ServerConfig.type config)
    (merged (u_command params) (ServerConfig.command config))
    (merged (u_args params) (ServerConfig.args config))
    (merged (u_env params) (ServerConfig.env config))
    (merged (u_url params) (ServerConfig.url config))
    (merged (u_description params) (ServerConfig.description config))
    (merged (u_headers params) (ServerConfig.headers config))
    (merged (u_stateful params) (ServerConfig.stateful config)).

Inductive UpdateServerReply :=
  | UpdateNotFound
  | UpdatedButFailedToRestart (errorMessage : option string)
  | UpdatedAndRestarted (pid : option nat) (tools : nat)
  | UpdatedNotRunning
  | ErrorUpdating (message : string).

(** The handler of [update_server]; [out] is what the restart meets. *)
Definition update_server (params : UpdateServerParams) (out : SpawnOutcome)
    (pm : ProcessManager.t) : ProcessManager.t * UpdateServerReply :=
  let current :=
    match JsMap.get (u_name params) (ProcessManager.servers pm) with
    | Some existing => Ok (Some (ManagedServer.config existing))
    | None => Db.getServer (u_name params) (ProcessManager.db pm)
    end in
  match current with
  | Throw e => (pm, ErrorUpdating e)
  | Ok None => (pm, UpdateNotFound)
  | Ok (Some config0) =>
      let config := merge_update params config0 in
      match Db.upsertServer config (ProcessManager.db pm) with
      | Throw e => (pm, ErrorUpdating e)
      | Ok d =>
          let pm1 := ProcessManager.set_db d pm in
          if JsMap.has (u_name params) (ProcessManager.servers pm1) then
            let '(pm2, managed) :=
              ProcessManager.spawnServer config out
                (ProcessManager.stopServer (u_name params) pm1) in
            if decide (ManagedServer.status managed = error)
            then (pm2, UpdatedButFailedToRestart (ManagedServer.errorMessage managed))
            else (pm2, UpdatedAndRestarted (ManagedServer.pid managed)
                         (length (ManagedServer.tools managed)))
          else (pm1, UpdatedNotRunning)
      end
  end.

(** *** Profiles *)

Record CreateProfileServer := {
  cps_name : string;
  cps_command : string;
  cps_args : list string;
  cps_description : option string;
}.

Record CreateProfileParams := {
  cp_name : string;
  cp_description : string;
  cp_servers : list CreateProfileServer;
}.

Inductive CreateProfileReply :=
  | ProfileNeedsServer
  | ProfileCreated (name : string) (servers : nat)
  | ErrorCreatingProfile (message : string).

Definition create_isError (r : CreateProfileReply) : bool :=
  match r with
  | ProfileCreated _ _ => false
  | _ => true
  end.

(** [s.description || s.name] *)
Definition description_or_name (s : CreateProfileServer) : string :=
  match cps_description s with
  | Some d => if truthy d then d else cps_name s
  | None => cps_name s
  end.

(** The bundle the handler hands to [upsertProfile]. *)
Definition bundle_of (params : CreateProfileParams) : Db.ProfileRow :=
  {| Db.row_profile_description := cp_description params;
     Db.row_profile_servers :=
       (λ s, {| ps_name := cps_name s;
                ps_command := cps_command s;
                ps_args := cps_args s;
                ps_description := description_or_name s;
                ps_env := None |}) <$> cp_servers params |}.

(** The handler of [create_profile]. *)
Definition create_profile (params : CreateProfileParams) (db : Db.t)
  : Db.t * CreateProfileReply :=
  if bool_decide (length (cp_servers params) = 0) then (db, ProfileNeedsServer)
  else
    match Db.upsertProfile (cp_name params) (bundle_of params) db with
    | Ok db' => (db', ProfileCreated (cp_name params) (length (cp_servers params)))
    | Throw e => (db, ErrorCreatingProfile e)
    end.

Section registerAllTools.
(** The built-in profiles with which the tools are registered. *)
Variable profilesConfig : ProfilesConfig.

Inductive DeleteProfileReply :=
  | CannotDeleteBuiltin
  | ProfileNotInDatabase
  | ProfileDeleted
  | ErrorDeletingProfile (message : string).

(** The handler of [delete_profile].  The guard is
    [if (profilesConfig[params.name])]. *)
Definition delete_profile (name : string) (db : Db.t) : Db.t * DeleteProfileReply :=
  match JsObject.get name profilesConfig with
  | JsObject.Own _ | JsObject.Inherited => (db, CannotDeleteBuiltin)
  | JsObject.Missing =>
      match Db.removeProfile name db with
      | Throw e => (db, ErrorDeletingProfile e)
      | Ok (db', removed) =>
          if removed then (db', ProfileDeleted) else (db', ProfileNotInDatabase)
      end
  end.

Inductive ProfileSource := builtin | custom.

(** [ServersUndefined]: [profilesConfig[params.profile_name]] is a member
    of [Object.prototype], so its [servers] is [undefined]; the loop over
    it, or [servers.map], throws, and the [catch] of the handler answers
    with an error. *)
Inductive ProfileLookup :=
  | ProfileFound (source : ProfileSource) (servers : list ProfileServer)
  | ProfileNotFound
  | ServersUndefined
  | LookupFailed (message : string).

(** How [activate_profile] and [deactivate_profile] find the servers
    of a profile: [profilesConfig[params.profile_name]] first, then the
    store. *)
Definition lookup_profile (profile_name : string) (db : Db.t) : ProfileLookup :=
  match JsObject.get profile_name profilesConfig with
  | JsObject.Own builtinProfile =>
      ProfileFound builtin (profile_servers builtinProfile)
  | JsObject.Inherited => ServersUndefined
  | JsObject.Missing =>
      match Db.getProfile profile_name db with
      | Throw e => LookupFailed e
      | Ok None => ProfileNotFound
      | Ok (Some dbProfile) => ProfileFound custom (Db.row_profile_servers dbProfile)
      end
  end.

(** The profiles [list_profiles] prints, in its order, each with its
    tag, description and servers; the run status of the servers and
    the layout of the text are left out. *)
Definition list_profiles (db : Db.t)
  : list (string * ProfileSource * string * list ProfileServer) :=
  let builtinNames : gset string := list_to_set (JsMap.keys profilesConfig) in
  let dbProfiles :=
    match Db.listDbProfiles db with
    | Ok rows => rows
    | Throw _ => []
    end in
  ((λ p, (p.1, builtin, profile_description p.2, profile_servers p.2))
     <$> profilesConfig)
  ++ ((λ r, (r.1, custom, Db.row_profile_description r.2, Db.row_profile_servers r.2))
        <$> filter (λ r, r.1 ∉ builtinNames) dbProfiles).
End registerAllTools.
End Tools.

(** ** Start-up ([index.ts]) *)

Module Startup.
(** [processManager.loadLocalConfig()] *)
Definition loadLocalConfig (pm : ProcessManager.t) : list ServerConfig.t :=
  match Db.listServers (ProcessManager.db pm) with
  | Ok configs => configs
  | Throw _ => []
  end.

(** The filter of [restoreServers] for configurations that can be
    spawned. *)
Definition valid_config (config : ServerConfig.t) : bool :=
  if bool_decide (ServerConfig.type config = STDIO)
     && ProcessManager.missing (ServerConfig.command config)
  then false
  else if (bool_decide (ServerConfig.type config = SSE)
           || bool_decide (ServerConfig.type config = STREAMABLE_HTTP))
          && ProcessManager.missing (ServerConfig.url config)
  then false
  else true.

(** The configurations that [restoreServers] hands to [spawnServer]. *)
Definition restored (pm : ProcessManager.t) : list ServerConfig.t :=
  filter (λ config, JsMap.has (ServerConfig.name config) (ProcessManager.servers pm) = false)
         (filter (λ config, valid_config config = true) (loadLocalConfig pm)).
End Startup.

(** ** The HTTP front end ([http-server.ts]) *)

Module HttpServer.
Import JsString.

(** [SESSION_IDLE_TIMEOUT_MS] of [config.ts] *)
Definition SESSION_IDLE_TIMEOUT_MS : Z := 30 * 60 * 1000.

(** The [meta] of a [ManagedSession]; its transport and its [McpServer]
    belong to the SDK. *)
Record BridgeSession := {
  sessionId : string;
  createdAt : nat;
  lastActiveAt : nat;
}.

(** The map [sessions] of [startHttpServer] and the manager that the
    handlers share. *)
Record t := mk {
  sessions : list (string * BridgeSession);
  processManager : ProcessManager.t;
}.

(** [cleanupSession(sessionId, sessions, processManager)]; the list is
    what [releaseSessionInstances] hands to [rmSync]. *)
Definition cleanupSession (id : string) (st : t) : t * list string :=
  match JsMap.get id (sessions st) with
  | None => (st, [])
  | Some _ =>
      let '(pm', dirs) := ProcessManager.releaseSessionInstances id (processManager st) in
      (mk (JsMap.delete id (sessions st)) pm', dirs)
  end.

Inductive Method :=
  | OPTIONS
  | GET
  | POST
  | DELETE
  | OTHER_METHOD (raw : string).

(** What [handleRequest] does with a request for [/mcp]: the status it
    answers with, or the session whose transport gets the request. *)
Inductive McpReply :=
  | NoContent204
  | ToTransport (sessionId : string)
  | SessionNotFound404
  | MissingSessionId400
  | TooManySessions503
  | ToNewSession (sessionId : string)
  | MethodNotAllowed405.

(** What the transport of a session does with a request handed to it.
    The transport and the [McpServer] behind it belong to the SDK:
    [runs] is what the tool calls of the request do to the manager, and
    [closes] tells whether the transport closes while it has the
    request, as it does for a DELETE, or when [mcpServer.connect] of a
    new session fails.  Closing the transport calls its [onclose], which
    is [cleanupSession]. *)
Record Handling := {
  runs : ProcessManager.t → ProcessManager.t;
  closes : bool;
}.

(** [await session.transport.handleRequest(req, res)] for the session
    [id]. *)
Definition transport_handleRequest (id : string) (handling : Handling) (st : t) : t :=
  let st1 := mk (sessions st) (runs handling (processManager st)) in
  if closes handling then (cleanupSession id st1).1 else st1.

Section handleRequest.
(** [MAX_SESSIONS], read from the environment at start-up. *)
Variable MAX_SESSIONS : nat.

(** [handleRequest] for the URL [/mcp]: [header] is the header
    [mcp-session-id], [uuid] is what [randomUUID] gives if a session is
    created, [now] is the time, and [handling] is what the transport
    does if the request is handed to one. *)
Definition handleRequest_mcp (method : Method) (header : option string) (uuid : string)
    (now : nat) (handling : Handling) (st : t) : t * McpReply :=
  match method with
  | OPTIONS => (st, NoContent204)
  | _ =>
      let given := match header with Some id => truthy id | None => false end in
      let id := default "" header in
      match (if given then JsMap.get id (sessions st) else None) with
      | Some session =>
          (transport_handleRequest id handling
             (mk (JsMap.set id {| sessionId := sessionId session;
                                  createdAt := createdAt session;
                                  lastActiveAt := now |} (sessions st))
                 (processManager st)),
           ToTransport id)
      | None =>
          match method with
          | GET | DELETE =>
              (st, if given then SessionNotFound404 else MissingSessionId400)
          | POST =>
              if bool_decide (MAX_SESSIONS ≤ length (sessions st))
              then (st, TooManySessions503)
              else (transport_handleRequest uuid handling
                      (mk (JsMap.set uuid {| sessionId := uuid; createdAt := now;
                                             lastActiveAt := now |} (sessions st))
                          (processManager st)),
                    ToNewSession uuid)
          | _ => (st, MethodNotAllowed405)
          end
      end
  end.
End handleRequest.

(** The callback of the session cleanup timer at time [now]. *)
Definition cleanup_tick (now : nat) (st : t) : t :=
  foldl (λ acc entry,
           if bool_decide (SESSION_IDLE_TIMEOUT_MS
                           < Z.of_nat now - Z.of_nat (lastActiveAt entry.2))%Z
           then (cleanupSession entry.1 acc).1 else acc)
        st (sessions st).

End HttpServer.

(** ** Merging the registry searches ([search.ts]) *)

Module RegistrySearch.
Import JsString.

Inductive Source := registry | npm | smithery.

(** The fields of a package and of a tagged result that the merge
    reads. *)
Record Package := {
  registryType : option string;
  identifier : option string;
}.

Record TaggedServer := {
  name : option string;
  packages : option (list Package);
  _source : Source;
  _popularity : option nat;
}.

(** [s.slice(n)] for [0 <= n] *)
Fixpoint slice_from (n : nat) (s : string) : string :=
  match n, s with
  | S n', String _ s' => slice_from n' s'
  | _, _ => s
  end.

(** [s.replace(/^[^/]+\//, "")]: the match is the first segment, which
    is not empty, with the slash that ends it. *)
Definition drop_first_segment (s : string) : string :=
  match indexOf "/" s with
  | Some (S n) => slice_from (S (S n)) s
  | _ => s
  end.

(** [s.replace(/^@[^/]+\//, "")] *)
Definition drop_npm_scope (s : string) : string :=
  match s with
  | String "@" rest =>
      match indexOf "/" rest with
      | Some (S n) => slice_from (S (S n)) rest
      | _ => s
      end
  | _ => s
  end.

(** [s.replace(/^io\.github\.[^/]+\//, "")] *)
Definition drop_registry_prefix (s : string) : string :=
  if startsWith "io.github." s then
    match indexOf "/" (slice_from 10 s) with
    | Some (S n) => slice_from (S (S n)) (slice_from 10 s)
    | _ => s
    end
  else s.

(** [/[a-z0-9]/] *)
Definition lower_alnum (c : ascii) : bool :=
  let n := nat_of_ascii c in
  (bool_decide (97 ≤ n) && bool_decide (n ≤ 122))
  || (bool_decide (48 ≤ n) && bool_decide (n ≤ 57)).

(** [s.replace(/[^a-z0-9]/g, "")] *)
Fixpoint strip_non_alnum (s : string) : string :=
  match s with
  | "" => ""
  | String c s' => if lower_alnum c then String c (strip_non_alnum s')
                   else strip_non_alnum s'
  end.

(** [normalizeServerName(name)] *)
Definition normalizeServerName (name : string) : string :=
  strip_non_alnum
    (drop_first_segment
       (drop_registry_prefix
          (drop_npm_scope (ProcessManager.toLowerCase name)))).

(** [hasInstallInfo(s)] *)
Definition hasInstallInfo (s : TaggedServer) : bool :=
  existsb (λ p, match identifier p with Some i => truthy i | None => false end
                && (bool_decide (registryType p = Some "npm")
                    || bool_decide (registryType p = Some "pypi")))
          (default [] (packages s)).

(** The key under which the merge files an entry. *)
Definition key_of (entry : TaggedServer) : string :=
  normalizeServerName (default "" (name entry)).

(** The body of the loop that fills [byKey]. *)
Definition dedupe_step (byKey : list (string * TaggedServer)) (entry : TaggedServer)
  : list (string * TaggedServer) :=
  match JsMap.get (key_of entry) byKey with
  | None => JsMap.set (key_of entry) entry byKey
  | Some existing =>
      if negb (hasInstallInfo existing) && hasInstallInfo entry
      then JsMap.set (key_of entry) entry byKey
      else byKey
  end.

(** The comparator handed to [sort]. *)
Definition compare (a b : TaggedServer) : Z :=
  let aInstall : Z := if hasInstallInfo a then 1%Z else 0%Z in
  let bInstall : Z := if hasInstallInfo b then 1%Z else 0%Z in
  if bool_decide (aInstall ≠ bInstall) then (bInstall - aInstall)%Z
  else (Z.of_nat (default 0%nat (_popularity b))
        - Z.of_nat (default 0%nat (_popularity a)))%Z.

(** [Array.prototype.sort] is stable, and [compare] orders the entries
    by a total preorder, so the sorted array is the one that stable
    insertion gives. *)
Fixpoint insert (x : TaggedServer) (l : list TaggedServer) : list TaggedServer :=
  match l with
  | [] => [x]
  | y :: l' => if bool_decide (compare x y ≤ 0)%Z then x :: l else y :: insert x l'
  end.

Definition sort (l : list TaggedServer) : list TaggedServer := foldr insert [] l.

(** [searchRegistry(query, limit)] from the answers of the three
    sources on. *)
Definition searchRegistry (official fromNpm fromSmithery : list TaggedServer)
    (limit : nat) : list TaggedServer :=
  let all := official ++ fromNpm ++ fromSmithery in
  let byKey := foldl dedupe_step [] all in
  take limit (sort (JsMap.values byKey)).

(** [a] may stand before [b] in the result: it has install information
    and [b] has none, or they agree on that and [a] is at least as
    popular. *)
Definition ranks_before (a b : TaggedServer) : Prop :=
  (hasInstallInfo a = true ∧ hasInstallInfo b = false)
  ∨ (hasInstallInfo a = hasInstallInfo b
     ∧ default 0 (_popularity b) ≤ default 0 (_popularity a)).

(** What the loop that fills [byKey] keeps true. *)
Definition deduped (seen : list TaggedServer) (byKey : list (string * TaggedServer)) : Prop :=
  NoDup (JsMap.keys byKey)
  ∧ (∀ k v, (k, v) ∈ byKey → key_of v = k ∧ v ∈ seen)
  ∧ ∀ e, e ∈ seen →
      ∃ v, JsMap.get (key_of e) byKey = Some v
           ∧ (hasInstallInfo e = true → hasInstallInfo v = true).

End RegistrySearch.

(** ** Concrete runs *)

Module Scenario.
Import ProcessManager.

(** A spawn that connects and lists no tools. *)
Definition connects (pid : option nat) : SpawnOutcome :=
  {| stderr_chunks := []; connect_error := None;
     closed_while_connecting := false;
     transport_pid := pid; listTools_result := Some [] |}.

(** A spawn whose child dies before the handshake: the transport
    closes while the connect is pending. *)
Definition fails (message : string) : SpawnOutcome :=
  {| stderr_chunks := []; connect_error := Some message;
     closed_while_connecting := true;
     transport_pid := None; listTools_result := None |}.

(** A stateful worker reached over SSE, as a client may declare it. *)
Definition notes_params : Tools.AddServerParams :=
  {| Tools.name := "notes"; Tools.type := SSE;
     Tools.command := None; Tools.args := None; Tools.env := None;
     Tools.url := Some "http://127.0.0.1:3001/sse";
     Tools.description := None; Tools.headers := None;
     Tools.stateful := Some true |}.

(** The manager after [notes] has been declared and the session
    [a1b2c3d4-5e6f-4a7b-8c9d-0123456789ab] has called one of its tools. *)
Definition notes_in_session : ProcessManager.t * QueuedReply :=
  let pm1 := (Tools.add_managed_server notes_params (connects None)
                (init (Some Db.empty))).1 in
  callToolQueued "notes" "read" "{}"
                 (Some "a1b2c3d4-5e6f-4a7b-8c9d-0123456789ab")
                 "/tmp/mcp-a1b2c3d4-x" (connects None) 10 pm1.

(** Two local workers: the package of [alpha] does not exist, [beta] is
    fine. *)
Definition alpha_params : Tools.AddServerParams :=
  {| Tools.name := "alpha"; Tools.type := STDIO;
     Tools.command := Some "npx"; Tools.args := Some ["-y"; "no-such-package"];
     Tools.env := None; Tools.url := None; Tools.description := None;
     Tools.headers := None; Tools.stateful := None |}.

Definition beta_params : Tools.AddServerParams :=
  {| Tools.name := "beta"; Tools.type := STDIO;
     Tools.command := Some "uvx"; Tools.args := Some ["mcp-server-fetch"];
     Tools.env := None; Tools.url := None; Tools.description := None;
     Tools.headers := None; Tools.stateful := None |}.

(** [alpha] is declared and fails to start. *)
Definition after_alpha : ProcessManager.t * Tools.AddServerReply :=
  Tools.add_managed_server alpha_params (fails "Connection closed")
                           (init (Some Db.empty)).

(** Then [beta] is declared and starts. *)
Definition after_beta : ProcessManager.t * Tools.AddServerReply :=
  Tools.add_managed_server beta_params (connects (Some 4242)) after_alpha.1.

(** The supervisor is started again on the store that run has left. *)
Definition next_start : ProcessManager.t := init (db after_beta.1).

(** A client without a session calls a tool of [beta]: the primary is
    registered with the queue and takes the call. *)
Definition beta_busy : ProcessManager.t :=
  (callToolQueued "beta" "fetch" "{}" None "" (connects None) 5 after_beta.1).1.

(** While [beta] is busy the queue asks for one more instance, and
    [beta#1] is started. *)
Definition beta_scaled : ProcessManager.t :=
  _handleScaleUp Config.MAX_SERVER_INSTANCES_default "beta" (connects (Some 4243)) 20
                 beta_busy.

(** [beta] is restarted while [beta#1] runs.  The stop of [beta] empties
    the pool, so that [beta#1] runs on without being registered. *)
Definition beta_restarted : ProcessManager.t :=
  (restartServer "beta" (connects (Some 4244)) beta_scaled).1.

(** Two more calls of a tool of [beta]: the primary is registered again
    and takes the first, the second waits. *)
Definition beta_busy_again : ProcessManager.t :=
  (callToolQueued "beta" "fetch" "{}" None "" (connects None) 31
     (callToolQueued "beta" "fetch" "{}" None "" (connects None) 30
        beta_restarted).1).1.

(** The tick of the queue at 2100, with [SCALE_UP_WAIT_MS] set to 2000,
    finds the second call waiting and asks for one more instance of
    [beta]. *)
Definition beta_asked_again : ProcessManager.t :=
  set_requestQueue
    (RequestQueue._checkScaleUp 2000 2100 (requestQueue beta_busy_again)).1
    beta_busy_again.

(** The scale-up that answers it. *)
Definition beta_scaled_again : ProcessManager.t :=
  _handleScaleUp Config.MAX_SERVER_INSTANCES_default "beta" (connects (Some 4245)) 2100
                 beta_asked_again.

(** A stateful browser worker, and the manager after a session has
    called it and the instance of the session has failed to start. *)
Definition browser_params : Tools.AddServerParams :=
  {| Tools.name := "browser"; Tools.type := STDIO;
     Tools.command := Some "npx"; Tools.args := Some ["-y"; "puppeteer-mcp-server"];
     Tools.env := None; Tools.url := None; Tools.description := None;
     Tools.headers := None; Tools.stateful := Some true |}.

Definition browser_declared : ProcessManager.t :=
  (Tools.add_managed_server browser_params (connects (Some 600))
     (init (Some Db.empty))).1.

Definition browser_session_failed : ProcessManager.t * QueuedReply :=
  callToolQueued "browser" "navigate" "{}"
                 (Some "a1b2c3d4-5e6f-4a7b-8c9d-0123456789ab")
                 "/tmp/mcp-a1b2c3d4-Zk3" (fails "Connection closed") 10
                 browser_declared.

(** The HTTP front end with the session of [notes_in_session] open. *)
Definition http_open : HttpServer.t :=
  HttpServer.mk
    [("a1b2c3d4-5e6f-4a7b-8c9d-0123456789ab",
      {| HttpServer.sessionId := "a1b2c3d4-5e6f-4a7b-8c9d-0123456789ab";
         HttpServer.createdAt := 5; HttpServer.lastActiveAt := 10 |})]
    notes_in_session.1.

(** The front end half an hour later, with a second session that
    has just been opened. *)
Definition http_two_open : HttpServer.t :=
  HttpServer.mk
    [("a1b2c3d4-5e6f-4a7b-8c9d-0123456789ab",
      {| HttpServer.sessionId := "a1b2c3d4-5e6f-4a7b-8c9d-0123456789ab";
         HttpServer.createdAt := 5; HttpServer.lastActiveAt := 10 |});
     ("0f1e2d3c-4b5a-4978-8695-a4b3c2d1e0f9",
      {| HttpServer.sessionId := "0f1e2d3c-4b5a-4978-8695-a4b3c2d1e0f9";
         HttpServer.createdAt := Z.to_nat 1800000;
         HttpServer.lastActiveAt := Z.to_nat 1800000 |})]
    notes_in_session.1.

(** One server as the official registry and as Smithery list it. *)
Definition github_official : RegistrySearch.TaggedServer :=
  {| RegistrySearch.name := Some "io.github.modelcontextprotocol/server-github";
     RegistrySearch.packages :=
       Some [{| RegistrySearch.registryType := Some "npm";
                RegistrySearch.identifier := Some "@modelcontextprotocol/server-github" |}];
     RegistrySearch._source := RegistrySearch.registry;
     RegistrySearch._popularity := None |}.

Definition github_smithery : RegistrySearch.TaggedServer :=
  {| RegistrySearch.name := Some "smithery-ai/server-github";
     RegistrySearch.packages := Some [];
     RegistrySearch._source := RegistrySearch.smithery;
     RegistrySearch._popularity := Some 1200 |}.

(** [beta] is declared stateful while [beta#1] runs; then the child of
    [beta#1] exits, and the reconnect timer that its close handler has
    set runs. *)
Definition beta_stateful_update : Tools.UpdateServerParams :=
  {| Tools.u_name := "beta"; Tools.u_command := None; Tools.u_args := None;
     Tools.u_env := None; Tools.u_url := None; Tools.u_description := None;
     Tools.u_headers := None; Tools.u_stateful := Some true |}.

Definition beta_made_stateful : ProcessManager.t :=
  (Tools.update_server beta_stateful_update (connects (Some 4246)) beta_scaled).1.

Definition beta_instance_closed : ProcessManager.t :=
  transport_closed "beta#1" beta_made_stateful.

Definition beta_instance_back : ProcessManager.t :=
  reconnect_timer_fired "beta#1" (connects (Some 4247)) beta_instance_closed.

(** New arguments for [beta]. *)
Definition beta_update : Tools.UpdateServerParams :=
  {| Tools.u_name := "beta"; Tools.u_command := None;
     Tools.u_args := Some ["mcp-server-fetch"; "--ignore-robots-txt"];
     Tools.u_env := None; Tools.u_url := None; Tools.u_description := None;
     Tools.u_headers := None; Tools.u_stateful := None |}.

(** A built-in profile, and a request to create a user profile of the
    same name. *)
Definition builtin_profiles : ProfilesConfig :=
  [("web", {| profile_description := "Web access";
              profile_servers :=
                [{| ps_name := "fetch"; ps_command := "uvx";
                    ps_args := ["mcp-server-fetch"];
                    ps_description := "HTTP fetch"; ps_env := None |}] |})].

Definition web_params : Tools.CreateProfileParams :=
  {| Tools.cp_name := "web";
     Tools.cp_description := "My own web profile";
     Tools.cp_servers :=
       [{| Tools.cps_name := "crawler"; Tools.cps_command := "npx";
           Tools.cps_args := ["-y"; "crawler-mcp"];
           Tools.cps_description := None |}] |}.

(** The store after the user profile [web] has been filed. *)
Definition web_filed : Db.Tables :=
  default Db.empty (Tools.create_profile web_params (Some Db.empty)).1.

(** Requests to create user profiles under names that no built-in
    profile has. *)
Definition research_params : Tools.CreateProfileParams :=
  {| Tools.cp_name := "research";
     Tools.cp_description := "Papers and notes";
     Tools.cp_servers :=
       [{| Tools.cps_name := "arxiv"; Tools.cps_command := "uvx";
           Tools.cps_args := ["arxiv-mcp-server"];
           Tools.cps_description := Some "arXiv search" |};
        {| Tools.cps_name := "memory"; Tools.cps_command := "npx";
           Tools.cps_args := ["-y"; "@modelcontextprotocol/server-memory"];
           Tools.cps_description := None |}] |}.

Definition constructor_params : Tools.CreateProfileParams :=
  {| Tools.cp_name := "constructor";
     Tools.cp_description := "Build tools";
     Tools.cp_servers :=
       [{| Tools.cps_name := "make"; Tools.cps_command := "npx";
           Tools.cps_args := ["-y"; "make-mcp"];
           Tools.cps_description := None |}] |}.
End Scenario.

(** * Properties *)

(** ** JavaScript strings *)

Section js_string_facts.
Import JsString.

Lemma len_app (s t : string) : len (s +:+ t) = len s + len t.
Proof. induction s as [|c s IH]; simpl; [done | by rewrite IH]. Qed.

Lemma len_slice0 (n : nat) (s : string) : len (slice0 n s) = n `min` len s.
Proof.
  revert s; induction n as [|n IH]; intros [|c s]; simpl; try done.
  by rewrite IH.
Qed.

Lemma len_repeat_char (c : ascii) (n : nat) : len (repeat_char c n) = n.
Proof. induction n as [|n IH]; simpl; [done | by rewrite IH]. Qed.

End js_string_facts.

(** ** The stderr tail *)

Section stderr_tail.
Import JsString Stderr.

Lemma len_capture_line (rawLine : string) :
  len (capture_line rawLine) =
  if bool_decide (len rawLine ≤ MAX_STDERR_LINE_LENGTH) then len rawLine
  else MAX_STDERR_LINE_LENGTH + 3.
Proof.
  unfold capture_line.
  repeat case_bool_decide; try lia.
  rewrite len_app, len_slice0.
  change (len "...") with 3. lia.
Qed.

Lemma last_n_length {A} (n : nat) (l : list A) : length (last_n n l) = n `min` length l.
Proof. unfold last_n. rewrite length_drop. lia. Qed.

Lemma last_n_short {A} (n : nat) (l : list A) : length l ≤ n → last_n n l = l.
Proof. intros H. unfold last_n. by replace (length l - n) with 0 by lia. Qed.

(** Taking the last [n] elements early does not change the last [n]
    elements of what follows. *)
Lemma last_n_app_last_n {A} (n : nat) (l b : list A) :
  last_n n (last_n n l ++ b) = last_n n (l ++ b).
Proof.
  unfold last_n.
  rewrite <-(drop_app_le l b) by lia.
  rewrite drop_drop, length_drop. f_equal. rewrite !length_app. lia.
Qed.

Lemma push_line_last_n (buf : list string) (line : string) :
  length buf ≤ MAX_STDERR_LINES →
  push_line buf line = last_n MAX_STDERR_LINES (buf ++ [line]).
Proof.
  intros Hbuf. unfold push_line. cbv zeta.
  case_bool_decide as Hlen.
  - rewrite length_app in Hlen. simpl in Hlen.
    unfold last_n. rewrite length_app. simpl. f_equal. lia.
  - by rewrite last_n_short by lia.
Qed.

Lemma foldl_push_line (lines buf : list string) :
  length buf ≤ MAX_STDERR_LINES →
  foldl push_line buf lines = last_n MAX_STDERR_LINES (buf ++ lines).
Proof.
  revert buf. induction lines as [|x xs IH]; intros buf Hbuf; simpl.
  - rewrite app_nil_r. by rewrite last_n_short.
  - rewrite IH.
    + rewrite push_line_last_n by done.
      rewrite last_n_app_last_n.
      by rewrite (cons_middle x buf xs), (assoc_L (++)).
    + rewrite push_line_last_n, last_n_length by done. lia.
Qed.

Lemma on_data_foldl (chunk : string) (buf : list string) :
  on_data buf chunk = foldl push_line buf (capture_line <$> chunk_lines chunk).
Proof.
  unfold on_data. generalize (chunk_lines chunk) as ls. intros ls.
  revert buf. induction ls as [|l ls IH]; intros buf; simpl; [done | apply IH].
Qed.

Lemma foldl_on_data (chunks : list string) (buf : list string) :
  foldl on_data buf chunks = foldl push_line buf (captured chunks).
Proof.
  revert buf. induction chunks as [|c cs IH]; intros buf; [done|].
  unfold captured. simpl. rewrite foldl_app, IH. by rewrite on_data_foldl.
Qed.

Lemma captured_lengths (chunks : list string) :
  Forall (λ line, len line ≤ MAX_STDERR_LINE_LENGTH + 3) (captured chunks).
Proof.
  unfold captured. apply Forall_forall. intros line Hin.
  apply list_elem_of_bind in Hin as (chunk & Hline & _).
  apply list_elem_of_fmap in Hline as (raw & -> & _).
  rewrite len_capture_line. case_bool_decide; lia.
Qed.

(** C5, as amended.  Whatever chunks the child writes to stderr, the
    tail kept for it is the last 50 of the captured lines in the order
    they were written (so the oldest line is the first to go), it never
    holds more than 50 lines, and no line in it is longer than 1003
    characters: a raw line of at most 1000 characters is kept as it is,
    a longer one is cut to its first 1000 characters followed by the
    three-character marker ["..."]. *)
Theorem stderr_tail_bounds (chunks : list string) :
  tail_after chunks = last_n 50 (captured chunks)
  ∧ length (tail_after chunks) ≤ 50
  ∧ Forall (λ line, len line ≤ 1003) (tail_after chunks)
  ∧ ∀ rawLine,
      capture_line rawLine =
        (if bool_decide (len rawLine ≤ 1000) then rawLine
         else slice0 1000 rawLine +:+ "...")
      ∧ len (capture_line rawLine) =
        (if bool_decide (len rawLine ≤ 1000) then len rawLine else 1003).
Proof.
  assert (Htail : tail_after chunks = last_n 50 (captured chunks)).
  { unfold tail_after. rewrite foldl_on_data.
    by rewrite foldl_push_line by (simpl; lia). }
  split; [done|]. rewrite Htail. split; [|split].
  - rewrite last_n_length. lia.
  - unfold last_n. apply Forall_drop, captured_lengths.
  - intros rawLine. split.
    + unfold capture_line, MAX_STDERR_LINE_LENGTH.
      repeat case_bool_decide; (done || lia).
    + apply len_capture_line.
Qed.

(** C5 as it is written fails: a raw line of 1001 characters is
    captured as a line of 1003 characters. *)
Lemma stderr_line_exceeds_1000 :
  ¬ (∀ line, line ∈ tail_after [repeat_char "x" 1001] → len line ≤ 1000).
Proof.
  intros H.
  assert (Htail : tail_after [repeat_char "x" 1001]
                  = [repeat_char "x" 1000 +:+ "..."])
    by (vm_compute; reflexivity).
  rewrite Htail in H.
  specialize (H _ (list_elem_of_here _ _)).
  rewrite len_app, len_repeat_char in H.
  change (len "...") with 3 in H. lia.
Qed.

End stderr_tail.

(** ** Maps in insertion order *)

Section js_map_facts.
Context {V : Type}.
Implicit Types (m : list (string * V)) (k : string) (v : V).

Lemma get_set m k k' v :
  JsMap.get k (JsMap.set k' v m) = if decide (k' = k) then Some v else JsMap.get k m.
Proof.
  induction m as [|[k0 v0] m IH]; simpl.
  - done.
  - destruct (decide (k0 = k')) as [->|Hne]; simpl.
    + by destruct (decide (k' = k)).
    + destruct (decide (k0 = k)) as [->|Hne'].
      * by rewrite decide_False by congruence.
      * done.
Qed.

Lemma get_delete m k k' :
  JsMap.get k (JsMap.delete k' m) = if decide (k' = k) then None else JsMap.get k m.
Proof.
  unfold JsMap.delete.
  induction m as [|[k0 v0] m IH]; simpl.
  - by destruct (decide (k' = k)).
  - rewrite filter_cons. simpl.
    destruct (decide (k0 ≠ k')) as [Hne|Heq]; simpl.
    + rewrite IH. destruct (decide (k0 = k)) as [->|]; [|done].
      by rewrite decide_False by congruence.
    + apply dec_stable in Heq as ->. rewrite IH.
      by destruct (decide (k' = k)).
Qed.

Lemma has_get m k : JsMap.has k m = true ↔ is_Some (JsMap.get k m).
Proof. unfold JsMap.has. by rewrite bool_decide_eq_true. Qed.

Lemma has_false_get m k : JsMap.has k m = false ↔ JsMap.get k m = None.
Proof.
  unfold JsMap.has. rewrite bool_decide_eq_false. by rewrite eq_None_not_Some.
Qed.

(** Deleting a key that is not there leaves the map as it is. *)
Lemma delete_absent m k : JsMap.get k m = None → JsMap.delete k m = m.
Proof.
  unfold JsMap.delete. induction m as [|[k0 v0] m IH]; simpl; [done|].
  destruct (decide (k0 = k)) as [->|Hne]; [done|].
  intros Hget. rewrite filter_cons. simpl.
  rewrite decide_True by done. by rewrite IH.
Qed.

(** A key of the map is found by [get]. *)
Lemma key_get_Some m k : k ∈ JsMap.keys m → is_Some (JsMap.get k m).
Proof.
  unfold JsMap.keys. induction m as [|[k0 v0] m IH]; simpl.
  - intros Hin. by apply elem_of_nil in Hin.
  - intros Hin. case_decide; [by eauto|]. apply IH.
    by apply elem_of_cons in Hin as [-> | Hin].
Qed.

End js_map_facts.

(** ** The index of a new pool instance *)

Section next_index.
Import ProcessManager.

Lemma next_free_index_least (existing : gset nat) (n : nat) :
  least_free_from n existing (next_free_index existing n).
Proof.
  funelim (next_free_index existing n).
  - destruct H as (Hle & Hfree & Hbelow).
    split; [lia|]. split; [done|].
    intros j Hj Hjk. destruct (decide (j = newIndex)) as [->|]; [done|].
    apply Hbelow; lia.
  - split; [done|]. split; [done|]. intros j Hj Hjk. lia.
Qed.

Lemma least_free_from_unique (n : nat) (existing : gset nat) (k k' : nat) :
  least_free_from n existing k → least_free_from n existing k' → k = k'.
Proof.
  intros (Hle & Hfree & Hbelow) (Hle' & Hfree' & Hbelow').
  destruct (Nat.lt_trichotomy k k') as [Hlt|[->|Hgt]]; [|done|].
  - exfalso. apply Hfree, Hbelow'; lia.
  - exfalso. apply Hfree', Hbelow; lia.
Qed.

End next_index.

(** ** Reconnect after a transport close *)

Section reconnect.
Import JsString ProcessManager Scenario.

(** The handler that [_spawnStdio] installs never sets a timer for a
    session-owned instance. *)
Lemma onclose_stdio_session (managed : ManagedServer.t) (timers : gmap string Timer) :
  includes "@" (ServerConfig.name (ManagedServer.config managed)) = true →
  (onclose_stdio managed timers).2 = timers.
Proof.
  intros Hat. unfold onclose_stdio.
  destruct (is_up managed); [|done].
  simpl. by rewrite Hat.
Qed.

(** [_scheduleReconnect] looks at the status and the attempt count of
    the instance and at nothing else: the name plays no part. *)
Lemma _scheduleReconnect_sets_timer (managed : ManagedServer.t)
    (timers : gmap string Timer) :
  ManagedServer.status managed ≠ stopped →
  ManagedServer.reconnectAttempts managed < Config.AUTO_RECONNECT_MAX_RETRIES →
  (_scheduleReconnect managed timers).2 !! ManagedServer.name managed =
    Some {| delay := Config.AUTO_RECONNECT_BASE_DELAY_MS
                     * 2 ^ ManagedServer.reconnectAttempts managed;
            owner := ManagedServer.oid managed |}.
Proof.
  intros Hstatus Hattempts. unfold _scheduleReconnect.
  destruct (decide _) as [|_]; [done|].
  case_bool_decide; [lia|].
  simpl. apply lookup_insert_eq.
Qed.

(** The handlers that [_spawnSSE] and [_spawnStreamableHTTP] install set
    a timer whatever the name of the instance is. *)
Lemma onclose_sse_sets_timer (managed : ManagedServer.t) (timers : gmap string Timer) :
  is_up managed = true →
  ManagedServer.reconnectAttempts managed < Config.AUTO_RECONNECT_MAX_RETRIES →
  (onclose_sse managed timers).2 !! ManagedServer.name managed =
    Some {| delay := Config.AUTO_RECONNECT_BASE_DELAY_MS
                     * 2 ^ ManagedServer.reconnectAttempts managed;
            owner := ManagedServer.oid managed |}.
Proof.
  intros Hup Hattempts. unfold onclose_sse. rewrite Hup.
  by apply (_scheduleReconnect_sets_timer
              (ManagedServer.set_errorMessage _ (ManagedServer.set_status error managed))).
Qed.

Lemma onclose_http_sets_timer (managed : ManagedServer.t) (timers : gmap string Timer) :
  is_up managed = true →
  ManagedServer.reconnectAttempts managed < Config.AUTO_RECONNECT_MAX_RETRIES →
  (onclose_http managed timers).2 !! ManagedServer.name managed =
    Some {| delay := Config.AUTO_RECONNECT_BASE_DELAY_MS
                     * 2 ^ ManagedServer.reconnectAttempts managed;
            owner := ManagedServer.oid managed |}.
Proof.
  intros Hup Hattempts. unfold onclose_http. rewrite Hup.
  by apply (_scheduleReconnect_sets_timer
              (ManagedServer.set_errorMessage _ (ManagedServer.set_status error managed))).
Qed.

(** C2 fails on the code.  A stateful worker declared with transport SSE
    gets the session-owned instance [notes@a1b2c3d4]; when the transport
    of that instance closes, a reconnect is scheduled for it 2000 ms
    later, and when the timer runs the instance is spawned again. *)
Theorem session_instance_over_sse_reconnects :
  Tools.name_matches "notes" = true
  ∧ notes_in_session.2 = DirectCall "notes@a1b2c3d4" Forwarded
  ∧ includes "@" "notes@a1b2c3d4" = true
  ∧ (ServerConfig.type ∘ ManagedServer.config <$>
       JsMap.get "notes@a1b2c3d4" (servers notes_in_session.1)) = Some SSE
  ∧ reconnectTimers notes_in_session.1 !! "notes@a1b2c3d4" = None
  ∧ reconnectTimers (transport_closed "notes@a1b2c3d4" notes_in_session.1)
      !! "notes@a1b2c3d4" = Some {| delay := 2000; owner := 1 |}
  ∧ (ManagedServer.status <$>
       JsMap.get "notes@a1b2c3d4"
         (servers (reconnect_timer_fired "notes@a1b2c3d4" (connects None)
                     (transport_closed "notes@a1b2c3d4" notes_in_session.1))))
    = Some connected.
Proof. vm_compute. repeat split; reflexivity. Qed.

End reconnect.

(** ** What reaches table [servers] *)

Section persistence.
Import JsString ProcessManager Scenario.

Lemma saveLocalConfig_loop_uninitialised (values : list ManagedServer.t) :
  saveLocalConfig_loop values None = None.
Proof.
  induction values as [|server rest IH]; simpl; [done|].
  by destruct (is_derived_name _).
Qed.

(** The sweep never removes a row. *)
Lemma saveLocalConfig_loop_keeps (values : list ManagedServer.t) (d : Db.t)
    (name : string) :
  is_Some (Db.stored_server name d) →
  is_Some (Db.stored_server name (saveLocalConfig_loop values d)).
Proof.
  revert d. induction values as [|server rest IH]; intros d Hd; simpl; [done|].
  destruct (is_derived_name _); [by apply IH|].
  destruct d as [tables|]; simpl; [|done].
  apply IH. simpl.
  destruct (decide (ServerConfig.name (ManagedServer.config server) = name)) as [->|Hne].
  - rewrite lookup_insert_eq. by eexists.
  - by rewrite lookup_insert_ne.
Qed.

(** The sweep writes the configuration of every server of the live
    index whose name carries neither [#] nor [@]; it does not look at
    the status of the server. *)
Lemma saveLocalConfig_writes_every_primary (pm : ProcessManager.t)
    (tables : Db.Tables) (server : ManagedServer.t) :
  db pm = Some tables →
  server ∈ JsMap.values (servers pm) →
  is_derived_name (ManagedServer.name server) = false →
  is_Some (Db.stored_server (ServerConfig.name (ManagedServer.config server))
                            (db (saveLocalConfig pm))).
Proof.
  unfold saveLocalConfig. simpl.
  generalize (JsMap.values (servers pm)) as values. intros values.
  generalize (db pm) as d. intros d Hd Hin Hprimary. revert d tables Hd.
  induction Hin as [server rest|server other rest Hin IH]; intros d tables ->; simpl.
  - rewrite Hprimary. simpl.
    apply saveLocalConfig_loop_keeps. simpl. rewrite lookup_insert_eq. by eexists.
  - destruct (is_derived_name (ManagedServer.name other)); [by eapply IH|].
    simpl. by eapply IH.
Qed.

(** A spawn that ends in ERROR for a name that was not live writes
    nothing to the store. *)
Lemma _doSpawn_error_db (config : ServerConfig.t) (out : SpawnOutcome)
    (pm : ProcessManager.t) :
  JsMap.has (ServerConfig.name config) (servers pm) = false →
  ManagedServer.status (_doSpawn config out pm).2 = error →
  db (_doSpawn config out pm).1 = db pm.
Proof.
  intros Hfresh. unfold _doSpawn. cbv zeta. rewrite Hfresh.
  destruct (ServerConfig.type config).
  - destruct (_spawnStdio _ config out _) as [[m timers] [[]|e]]; simpl; [|done].
    by destruct (listTools_result out).
  - destruct (_spawnSSE _ config out _) as [[m timers] [[]|e]]; simpl; [|done].
    by destruct (listTools_result out).
  - destruct (_spawnStreamableHTTP _ config out _) as [[m timers] [[]|e]]; simpl; [|done].
    by destruct (listTools_result out).
  - done.
Qed.

(** The handler of [add_managed_server] itself keeps to the rule: when it
    answers with an error for a name that was not live, the store is as
    it was. *)
Lemma add_managed_server_error_db (params : Tools.AddServerParams)
    (out : SpawnOutcome) (pm : ProcessManager.t) :
  JsMap.has (Tools.name params) (servers pm) = false →
  Tools.add_isError (Tools.add_managed_server params out pm).2 = true →
  db (Tools.add_managed_server params out pm).1 = db pm.
Proof.
  intros Hfresh. unfold Tools.add_managed_server, spawnServer.
  destruct (_ && _); [done|]. destruct (_ && _); [done|].
  pose proof (_doSpawn_error_db (Tools.config_of params) out pm Hfresh) as Hdb.
  destruct (_doSpawn (Tools.config_of params) out pm) as [pm1 managed].
  simpl in Hdb. destruct (decide (ManagedServer.status managed = error)); simpl.
  - intros _. by apply Hdb.
  - done.
Qed.

(** C1 fails on the code.  [alpha] is declared and its spawn ends in
    ERROR: the handler answers with an error and writes nothing.  The
    failed instance stays in the live index, so when [beta] is declared
    next and connects, the sweep at the end of its spawn writes the
    configuration of [alpha] to the store as well, and the next start
    of the supervisor spawns [alpha] again. *)
Theorem failed_declare_is_persisted_by_later_sweep :
  Tools.name_matches "alpha" = true ∧ Tools.name_matches "beta" = true
  ∧ Tools.add_isError after_alpha.2 = true
  ∧ (ManagedServer.status <$> JsMap.get "alpha" (servers after_alpha.1)) = Some error
  ∧ Db.stored_server "alpha" (db after_alpha.1) = None
  ∧ Tools.add_isError after_beta.2 = false
  ∧ (ManagedServer.status <$> JsMap.get "alpha" (servers after_beta.1)) = Some error
  ∧ Db.stored_server "alpha" (db after_beta.1)
    = Some (Db.row_of (Tools.config_of alpha_params))
  ∧ "alpha" ∈ ServerConfig.name <$> Startup.restored next_start.
Proof.
  repeat split; try (vm_compute; reflexivity).
  assert (Hnames : ServerConfig.name <$> Startup.restored next_start = ["alpha"; "beta"])
    by (vm_compute; reflexivity).
  rewrite Hnames. apply list_elem_of_here.
Qed.

End persistence.

(** ** The live index under stop and spawn *)

Section live_index.
Import JsString ProcessManager.

Lemma stopServer_servers (name : string) (pm : ProcessManager.t) :
  servers (stopServer name pm) = JsMap.delete name (servers pm).
Proof.
  unfold stopServer. simpl.
  destruct (JsMap.get name (servers pm)) as [server|] eqn:Hget.
  - by case_match.
  - simpl. by rewrite delete_absent.
Qed.

Lemma _scheduleReconnect_keeps (managed : ManagedServer.t) (timers : gmap string Timer) :
  ManagedServer.name (_scheduleReconnect managed timers).1 = ManagedServer.name managed
  ∧ ManagedServer.config (_scheduleReconnect managed timers).1
    = ManagedServer.config managed.
Proof. unfold _scheduleReconnect. by repeat case_match. Qed.

(** A close handler changes neither the name nor the configuration of
    its object. *)
Lemma onclose_stdio_keeps (managed : ManagedServer.t) (timers : gmap string Timer) :
  ManagedServer.name (onclose_stdio managed timers).1 = ManagedServer.name managed
  ∧ ManagedServer.config (onclose_stdio managed timers).1 = ManagedServer.config managed.
Proof.
  unfold onclose_stdio.
  repeat case_match; try done.
  match goal with
  | |- context [_scheduleReconnect ?m ?t] => apply (_scheduleReconnect_keeps m t)
  end.
Qed.

Lemma onclose_sse_keeps (managed : ManagedServer.t) (timers : gmap string Timer) :
  ManagedServer.name (onclose_sse managed timers).1 = ManagedServer.name managed
  ∧ ManagedServer.config (onclose_sse managed timers).1 = ManagedServer.config managed.
Proof.
  unfold onclose_sse. case_match; [|done].
  match goal with
  | |- context [_scheduleReconnect ?m ?t] => apply (_scheduleReconnect_keeps m t)
  end.
Qed.

Lemma onclose_http_keeps (managed : ManagedServer.t) (timers : gmap string Timer) :
  ManagedServer.name (onclose_http managed timers).1 = ManagedServer.name managed
  ∧ ManagedServer.config (onclose_http managed timers).1 = ManagedServer.config managed.
Proof.
  unfold onclose_http. case_match; [|done].
  match goal with
  | |- context [_scheduleReconnect ?m ?t] => apply (_scheduleReconnect_keeps m t)
  end.
Qed.

Lemma onclose_keeps (managed : ManagedServer.t) (timers : gmap string Timer) :
  ManagedServer.name (onclose managed timers).1 = ManagedServer.name managed
  ∧ ManagedServer.config (onclose managed timers).1 = ManagedServer.config managed.
Proof.
  unfold onclose.
  destruct (ServerConfig.type (ManagedServer.config managed));
    [apply onclose_stdio_keeps | apply onclose_sse_keeps | apply onclose_http_keeps
    | done].
Qed.

Lemma connect_keeps out handler managed timers :
  (∀ m t, ManagedServer.name (handler m t).1 = ManagedServer.name m
          ∧ ManagedServer.config (handler m t).1 = ManagedServer.config m) →
  ManagedServer.name (connect out handler managed timers).1.1 = ManagedServer.name managed
  ∧ ManagedServer.config (connect out handler managed timers).1.1
    = ManagedServer.config managed.
Proof.
  intros Hhandler. unfold connect.
  destruct (connect_error out); [|done].
  destruct (closed_while_connecting out); [|done].
  specialize (Hhandler managed timers). by destruct (handler managed timers).
Qed.

Lemma _spawnStdio_keeps managed config out timers :
  ManagedServer.name (_spawnStdio managed config out timers).1.1
  = ManagedServer.name managed
  ∧ ManagedServer.config (_spawnStdio managed config out timers).1.1
    = ManagedServer.config managed.
Proof.
  unfold _spawnStdio. destruct (missing _); [done|].
  match goal with
  | |- context [connect out onclose_stdio ?m timers] =>
      pose proof (connect_keeps out onclose_stdio m timers onclose_stdio_keeps) as Hkeeps;
      destruct (connect out onclose_stdio m timers) as [[m4 timers'] [[]|e]]
  end; done.
Qed.

Lemma _spawnSSE_keeps managed config out timers :
  ManagedServer.name (_spawnSSE managed config out timers).1.1
  = ManagedServer.name managed
  ∧ ManagedServer.config (_spawnSSE managed config out timers).1.1
    = ManagedServer.config managed.
Proof.
  unfold _spawnSSE. destruct (missing _); [done|].
  match goal with
  | |- context [connect out onclose_sse ?m timers] =>
      apply (connect_keeps out onclose_sse m timers onclose_sse_keeps)
  end.
Qed.

Lemma _spawnStreamableHTTP_keeps managed config out timers :
  ManagedServer.name (_spawnStreamableHTTP managed config out timers).1.1
  = ManagedServer.name managed
  ∧ ManagedServer.config (_spawnStreamableHTTP managed config out timers).1.1
    = ManagedServer.config managed.
Proof.
  unfold _spawnStreamableHTTP. destruct (missing _); [done|].
  match goal with
  | |- context [connect out onclose_http ?m timers] =>
      apply (connect_keeps out onclose_http m timers onclose_http_keeps)
  end.
Qed.

Lemma _spawnStdio_name managed config out timers :
  ManagedServer.name (_spawnStdio managed config out timers).1.1
  = ManagedServer.name managed.
Proof. apply _spawnStdio_keeps. Qed.

Lemma _spawnSSE_name managed config out timers :
  ManagedServer.name (_spawnSSE managed config out timers).1.1
  = ManagedServer.name managed.
Proof. apply _spawnSSE_keeps. Qed.

Lemma _spawnStreamableHTTP_name managed config out timers :
  ManagedServer.name (_spawnStreamableHTTP managed config out timers).1.1
  = ManagedServer.name managed.
Proof. apply _spawnStreamableHTTP_keeps. Qed.

(** After a spawn the live index holds the returned object under the
    name of the configuration, and every other name as before. *)
Lemma _doSpawn_get (config : ServerConfig.t) (out : SpawnOutcome)
    (pm : ProcessManager.t) (k : string) :
  JsMap.get k (servers (_doSpawn config out pm).1)
  = if decide (ServerConfig.name config = k) then Some (_doSpawn config out pm).2
    else JsMap.get k (servers pm).
Proof.
  assert (Hpm1 : ∀ k, ServerConfig.name config ≠ k →
             JsMap.get k (servers (if JsMap.has (ServerConfig.name config) (servers pm)
                                   then stopServer (ServerConfig.name config) pm
                                   else pm))
             = JsMap.get k (servers pm)).
  { intros k' Hne. case_match; [|done].
    rewrite stopServer_servers, get_delete. by rewrite decide_False by done. }
  unfold _doSpawn. cbv zeta.
  set (pm1 := if JsMap.has _ _ then _ else _) in *.
  set (managed := fresh_managed (next_oid pm1) config).
  assert (Hsettled : ∀ (m : ManagedServer.t) (n : string),
             n = ServerConfig.name config →
             JsMap.get k (JsMap.set n m
                            (JsMap.set (ManagedServer.name managed) managed
                               (servers pm1)))
             = if decide (ServerConfig.name config = k) then Some m
               else JsMap.get k (servers pm)).
  { intros m n ->. rewrite !get_set. simpl.
    destruct (decide (ServerConfig.name config = k)); [done | by apply Hpm1]. }
  destruct (ServerConfig.type config).
  - pose proof (_spawnStdio_name managed config out (reconnectTimers pm1)) as Hname.
    destruct (_spawnStdio managed config out _) as [[m timers] [[]|e]]; simpl in *.
    + destruct (listTools_result out); by apply Hsettled.
    + by apply Hsettled.
  - pose proof (_spawnSSE_name managed config out (reconnectTimers pm1)) as Hname.
    destruct (_spawnSSE managed config out _) as [[m timers] [[]|e]]; simpl in *.
    + destruct (listTools_result out); by apply Hsettled.
    + by apply Hsettled.
  - pose proof (_spawnStreamableHTTP_name managed config out (reconnectTimers pm1))
      as Hname.
    destruct (_spawnStreamableHTTP managed config out _) as [[m timers] [[]|e]];
      simpl in *.
    + destruct (listTools_result out); by apply Hsettled.
    + by apply Hsettled.
  - simpl. by apply Hsettled.
Qed.

(** A local worker with a command whose client connects ends up
    connected. *)
Lemma _doSpawn_connected (config : ServerConfig.t) (out : SpawnOutcome)
    (pm : ProcessManager.t) :
  ServerConfig.type config = STDIO →
  missing (ServerConfig.command config) = false →
  connect_error out = None →
  ManagedServer.status (_doSpawn config out pm).2 = connected
  ∧ ManagedServer.config (_doSpawn config out pm).2 = config.
Proof.
  intros Htype Hcommand Hconnect.
  unfold _doSpawn, _spawnStdio, connect. cbv zeta.
  rewrite Htype, Hcommand, Hconnect. simpl.
  by destruct (listTools_result out).
Qed.

End live_index.

(** ** The instances registered with the queue *)

Section registered_instances.
Import RequestQueue.

Lemma dispatch_loop_slots (insts : list ServerInstance.t) (queue : list QueuedRequest) :
  slot <$> (dispatch_loop insts queue).1.1 = slot <$> insts.
Proof.
  revert queue. induction insts as [|i insts IH]; intros queue; simpl; [done|].
  destruct queue as [|request queue']; [done|].
  destruct (ServerInstance.busy i).
  - specialize (IH (request :: queue')).
    destruct (dispatch_loop insts (request :: queue')) as [[rest' q'] started].
    simpl in *. by f_equal.
  - specialize (IH queue').
    destruct (dispatch_loop insts queue') as [[rest' q'] started].
    simpl in *. by f_equal.
Qed.

Lemma replace_or_push_slot (instance : ServerInstance.t) (arr : list ServerInstance.t) :
  slot instance ∈ slot <$> replace_or_push instance arr.
Proof.
  induction arr as [|i arr IH]; simpl.
  - apply list_elem_of_here.
  - case_decide; simpl; [apply list_elem_of_here | by apply list_elem_of_further].
Qed.

Lemma registerInstance_slot (instance : ServerInstance.t) (q : RequestQueue.t) :
  slot instance
    ∈ slot <$> getInstances (ServerInstance.baseName instance) (registerInstance instance q).
Proof.
  unfold getInstances, registerInstance. simpl.
  rewrite lookup_insert_eq. simpl. apply replace_or_push_slot.
Qed.

(** A dispatch changes [busy] flags only: the slots of every pool stay
    as they are, and a pool without instances gets its primary. *)
Lemma _dispatch_slots (server base : string) (now : nat) (q : RequestQueue.t)
    (s : string * nat) :
  s ∈ slot <$> getInstances base q →
  s ∈ slot <$> getInstances base (_dispatch server now q).
Proof.
  intros Hs. unfold _dispatch.
  destruct (queues q !! server) as [[|request queue]|]; [done| |done].
  set (q1 := match instances q !! server with
             | Some (_ :: _) => q
             | _ => registerInstance (ServerInstance.mk server server 0 false now) q
             end).
  assert (Hq1 : s ∈ slot <$> getInstances base q1).
  { unfold q1. destruct (instances q !! server) as [[|i arr]|] eqn:Hinst; [| done |].
    - unfold getInstances, registerInstance in *. simpl.
      destruct (decide (server = base)) as [->|Hne].
      + rewrite Hinst in Hs. simpl in Hs. by apply elem_of_nil in Hs.
      + by rewrite lookup_insert_ne.
    - unfold getInstances, registerInstance in *. simpl.
      destruct (decide (server = base)) as [->|Hne].
      + rewrite Hinst in Hs. simpl in Hs. by apply elem_of_nil in Hs.
      + by rewrite lookup_insert_ne. }
  clearbody q1.
  pose proof (dispatch_loop_slots (default [] (instances q1 !! server))
                (request :: queue)) as Hloop.
  destruct (dispatch_loop _ _) as [[insts' queue'] started].
  unfold getInstances in *. simpl in *.
  destruct (decide (server = base)) as [->|Hne].
  - rewrite lookup_insert_eq. simpl. by rewrite Hloop.
  - by rewrite lookup_insert_ne.
Qed.

End registered_instances.

(** ** Scale-up *)

Section scale_up.
Import JsString ProcessManager.

Variable MAX_SERVER_INSTANCES : nat.

(** When [_handleScaleUp] goes on to spawn, the primary is a local,
    stateless worker, the pool is below its cap, and the instance is
    named after the least free index. *)
Lemma scale_up_decision_ScaleTo (base : string) (pm : ProcessManager.t)
    (k : nat) (name : string) (config : ServerConfig.t) :
  scale_up_decision MAX_SERVER_INSTANCES base pm = ScaleTo k name config →
  (base ∉ scalingInProgress pm)
  ∧ length (RequestQueue.getInstances base (requestQueue pm)) < MAX_SERVER_INSTANCES
  ∧ (∃ primary,
        JsMap.get base (servers pm) = Some primary
        ∧ ServerConfig.type (ManagedServer.config primary) = STDIO
        ∧ ServerConfig.stateful (ManagedServer.config primary) ≠ Some true
        ∧ config = ServerConfig.with_name name (ManagedServer.config primary))
  ∧ name = base +:+ "#" +:+ pretty k
  ∧ least_free_from 1 (indexes_in_use base pm) k.
Proof.
  unfold scale_up_decision. cbv zeta.
  case_bool_decide as Hscaling; [done|].
  case_bool_decide as Hcap; [done|].
  destruct (JsMap.get base (servers pm)) as [primary|]; [|done].
  case_bool_decide as Htype; simpl; [|done].
  case_bool_decide as Hstateful; simpl; [done|].
  intros [= <- <- <-].
  split; [done|]. split; [lia|]. split; [by exists primary|]. split; [done|].
  apply next_free_index_least.
Qed.

Lemma scale_up_decision_permitted (base : string) (pm : ProcessManager.t)
    (primary : ManagedServer.t) :
  JsMap.get base (servers pm) = Some primary →
  ServerConfig.type (ManagedServer.config primary) = STDIO →
  ServerConfig.stateful (ManagedServer.config primary) ≠ Some true →
  length (RequestQueue.getInstances base (requestQueue pm)) < MAX_SERVER_INSTANCES →
  base ∉ scalingInProgress pm →
  ∃ k, scale_up_decision MAX_SERVER_INSTANCES base pm
       = ScaleTo k (base +:+ "#" +:+ pretty k)
                 (ServerConfig.with_name (base +:+ "#" +:+ pretty k)
                                         (ManagedServer.config primary)).
Proof.
  intros Hprimary Htype Hstateful Hcap Hscaling.
  unfold scale_up_decision. cbv zeta.
  rewrite bool_decide_eq_false_2 by done.
  rewrite bool_decide_eq_false_2 by lia.
  rewrite Hprimary.
  rewrite (bool_decide_eq_true_2 _ Htype).
  rewrite (bool_decide_eq_false_2 _ Hstateful). simpl.
  by eexists.
Qed.

(** Under each of the three conditions the signal is turned down, or it
    is ignored because a scale-up for the base is already under way. *)
Lemma scale_up_decision_refused (base : string) (pm : ProcessManager.t) :
  (∀ primary, JsMap.get base (servers pm) = Some primary →
     ServerConfig.type (ManagedServer.config primary) ≠ STDIO
     ∨ ServerConfig.stateful (ManagedServer.config primary) = Some true
     ∨ MAX_SERVER_INSTANCES
       ≤ length (RequestQueue.getInstances base (requestQueue pm))) →
  scale_up_decision MAX_SERVER_INSTANCES base pm
  = if bool_decide (base ∈ scalingInProgress pm) then AlreadyScaling else Refused.
Proof.
  intros Hcond. unfold scale_up_decision. cbv zeta.
  case_bool_decide as Hscaling; [done|].
  case_bool_decide as Hcap; [done|].
  destruct (JsMap.get base (servers pm)) as [primary|]; [|done].
  destruct (Hcond primary eq_refl) as [Htype|[Hstateful|Hfull]].
  - by rewrite (bool_decide_eq_false_2 _ Htype).
  - rewrite (bool_decide_eq_true_2 _ Hstateful). by rewrite orb_true_r.
  - lia.
Qed.

(** A scale-up touches no entry of the live index but the one of the
    new instance. *)
Lemma _handleScaleUp_other_names (base : string) (out : SpawnOutcome) (now : nat)
    (pm : ProcessManager.t) (k : nat) (internalName : string)
    (config : ServerConfig.t) (name : string) :
  scale_up_decision MAX_SERVER_INSTANCES base pm = ScaleTo k internalName config →
  name ≠ internalName →
  JsMap.get name (servers (_handleScaleUp MAX_SERVER_INSTANCES base out now pm))
  = JsMap.get name (servers pm).
Proof.
  intros Hdecision Hne. unfold _handleScaleUp. rewrite Hdecision.
  apply scale_up_decision_ScaleTo in Hdecision
    as (_ & _ & (primary & _ & _ & _ & ->) & _ & _).
  unfold spawnServer.
  set (config := ServerConfig.with_name internalName _).
  set (pm1 := set_scalingInProgress _ pm).
  pose proof (_doSpawn_get config out pm1 name) as Hget.
  destruct (_doSpawn config out pm1) as [pm2 managed].
  simpl in Hget. rewrite decide_False in Hget by done.
  destruct (decide (ManagedServer.status managed = connected)); simpl; [done|].
  destruct (JsMap.has internalName (servers pm2)); simpl; [|done].
  rewrite stopServer_servers, get_delete. by rewrite decide_False by done.
Qed.

(** One scale-up signal.  A signal for [base] whose primary is missing,
    is not a local (STDIO) worker or is stateful, or whose pool already
    has [MAX_SERVER_INSTANCES] registered instances, spawns nothing: the
    live index is left as it is and the only thing that changes is the
    pending flag of the base, which is cleared (when a scale-up of the
    base is already under way the signal is dropped as a whole).  A
    signal that is not dropped leaves the base without a pending flag
    and without a scale-up under way, whatever else it does.  The only
    name a signal can add to the live index is [base#k] with [k] the
    least positive index that no instance registered with the queue for
    the base uses; an instance that runs without being registered does
    not count.  When scaling is permitted and the new child connects,
    that instance is live, CONNECTED, a clone of the primary, and
    registered with the queue under index [k]. *)
Theorem scale_up_refused_or_least_index (base : string) (out : SpawnOutcome)
    (now : nat) (pm : ProcessManager.t) :
  let instances := RequestQueue.getInstances base (requestQueue pm) in
  let pm' := _handleScaleUp MAX_SERVER_INSTANCES base out now pm in
  ((∀ primary, JsMap.get base (servers pm) = Some primary →
      ServerConfig.type (ManagedServer.config primary) ≠ STDIO
      ∨ ServerConfig.stateful (ManagedServer.config primary) = Some true
      ∨ MAX_SERVER_INSTANCES ≤ length instances) →
   servers pm' = servers pm
   ∧ pm' = if bool_decide (base ∈ scalingInProgress pm) then pm
           else set_requestQueue
                  (RequestQueue.clearPendingScaleUp base (requestQueue pm)) pm)
  ∧ (base ∉ scalingInProgress pm →
     (base ∉ RequestQueue.pendingScaleUps (requestQueue pm'))
     ∧ (base ∉ scalingInProgress pm'))
  ∧ (∀ name, JsMap.has name (servers pm') = true →
             JsMap.has name (servers pm) = false →
       ∃ k, name = base +:+ "#" +:+ pretty k
            ∧ least_free_from 1 (indexes_in_use base pm) k)
  ∧ (∀ primary, JsMap.get base (servers pm) = Some primary →
       ServerConfig.type (ManagedServer.config primary) = STDIO →
       ServerConfig.stateful (ManagedServer.config primary) ≠ Some true →
       length instances < MAX_SERVER_INSTANCES →
       base ∉ scalingInProgress pm →
       missing (ServerConfig.command (ManagedServer.config primary)) = false →
       connect_error out = None →
       ∃ k managed,
         least_free_from 1 (indexes_in_use base pm) k
         ∧ JsMap.get (base +:+ "#" +:+ pretty k) (servers pm') = Some managed
         ∧ ManagedServer.status managed = connected
         ∧ ManagedServer.config managed
           = ServerConfig.with_name (base +:+ "#" +:+ pretty k)
                                    (ManagedServer.config primary)
         ∧ (base +:+ "#" +:+ pretty k, k)
           ∈ RequestQueue.slot
               <$> RequestQueue.getInstances base (requestQueue pm')).
Proof.
  cbv zeta. split; [|split; [|split]].
  - intros Hcond. unfold _handleScaleUp.
    rewrite (scale_up_decision_refused _ _ Hcond).
    by case_bool_decide.
  - intros Hscaling. unfold _handleScaleUp.
    destruct (scale_up_decision _ base pm) as [| |k internalName config] eqn:Hdecision.
    + unfold scale_up_decision in Hdecision. cbv zeta in Hdecision.
      rewrite bool_decide_eq_false_2 in Hdecision by done.
      repeat case_match; done.
    + simpl. split; [|done].
      rewrite elem_of_difference, elem_of_singleton. tauto.
    + destruct (spawnServer config out _) as [pm2 managed]. simpl.
      rewrite !elem_of_difference, !elem_of_singleton. tauto.
  - intros name Hafter Hbefore. unfold _handleScaleUp in Hafter.
    destruct (scale_up_decision _ base pm) as [| |k internalName config] eqn:Hdecision.
    + congruence.
    + simpl in Hafter. congruence.
    + pose proof (scale_up_decision_ScaleTo _ _ _ _ _ Hdecision)
        as (_ & _ & _ & Hname & Hleast).
      exists k. split; [|done]. rewrite <-Hname.
      destruct (decide (name = internalName)) as [|Hne]; [done|].
      exfalso. apply has_false_get in Hbefore. apply has_get in Hafter as [m Hm].
      rewrite <-(_handleScaleUp_other_names base out now pm _ _ _ name Hdecision Hne)
        in Hbefore.
      unfold _handleScaleUp in Hbefore. rewrite Hdecision in Hbefore. congruence.
  - intros primary Hprimary Htype Hstateful Hcap Hscaling Hcommand Hconnect.
    destruct (scale_up_decision_permitted base pm primary) as [k Hdecision]; try done.
    pose proof (scale_up_decision_ScaleTo _ _ _ _ _ Hdecision)
      as (_ & _ & _ & _ & Hleast).
    unfold _handleScaleUp. rewrite Hdecision. unfold spawnServer.
    set (internalName := base +:+ "#" +:+ pretty k).
    set (config := ServerConfig.with_name internalName _).
    set (pm1 := set_scalingInProgress _ pm).
    pose proof (_doSpawn_get config out pm1 internalName) as Hget.
    destruct (_doSpawn_connected config out pm1) as [Hstatus Hconfig]; try done.
    destruct (_doSpawn config out pm1) as [pm2 managed].
    simpl in Hget, Hstatus, Hconfig. rewrite decide_True in Hget by done.
    rewrite decide_True by done. simpl.
    exists k, managed.
    split; [exact Hleast|]. split; [exact Hget|]. split; [exact Hstatus|].
    split; [exact Hconfig|].
    unfold RequestQueue.triggerDispatch.
    apply (_dispatch_slots base base now _ (internalName, k)).
    apply (registerInstance_slot
             (ServerInstance.mk internalName base k false now) (requestQueue pm2)).
Qed.

End scale_up.

(** ** Profiles *)

Section profiles.
Import JsString Tools Scenario.

Lemma get_Some_key {V} (m : list (string * V)) (k : string) (v : V) :
  JsMap.get k m = Some v → k ∈ JsMap.keys m.
Proof.
  unfold JsMap.keys. induction m as [|[k0 v0] m IH]; simpl; [done|].
  destruct (decide (k0 = k)) as [->|Hne].
  - intros _. apply list_elem_of_here.
  - intros Hget. by apply list_elem_of_further, IH.
Qed.

(** C4.  [create_profile] has no Conflict error, against the claim: the
    handler does not look at the built-in profiles.  Called under the
    name of a built-in profile, with at least one server entry and
    while the store is open, it answers without an error and stores the
    user bundle under that name.  The stored bundle can then not be
    reached: [activate_profile] and [deactivate_profile] find the
    servers of the built-in under the name, [list_profiles] does not
    list the stored bundle, and [delete_profile] refuses the name, so
    the bundle stays in the store. *)
Theorem create_profile_stored_but_shadowed (profilesConfig : ProfilesConfig)
    (params : CreateProfileParams) (tables : Db.Tables) (builtinProfile : Profile) :
  cp_servers params ≠ [] →
  JsMap.get (cp_name params) profilesConfig = Some builtinProfile →
  let result := create_profile params (Some tables) in
  result.2 = ProfileCreated (cp_name params) (length (cp_servers params))
  ∧ create_isError result.2 = false
  ∧ Db.stored_profile (cp_name params) result.1 = Some (bundle_of params)
  ∧ lookup_profile profilesConfig (cp_name params) result.1
    = ProfileFound builtin (profile_servers builtinProfile)
  ∧ (∀ description servers,
       (cp_name params, custom, description, servers)
       ∉ list_profiles profilesConfig result.1)
  ∧ delete_profile profilesConfig (cp_name params) result.1
    = (result.1, CannotDeleteBuiltin).
Proof.
  intros Hservers Hbuiltin. cbv zeta. unfold create_profile.
  assert (Hown : JsObject.get (cp_name params) profilesConfig
                 = JsObject.Own builtinProfile)
    by (unfold JsObject.get; by rewrite Hbuiltin).
  rewrite bool_decide_eq_false_2
    by (destruct (cp_servers params); [done | simpl; lia]).
  simpl. split; [done|]. split; [done|].
  split; [by rewrite lookup_insert_eq|].
  split; [unfold lookup_profile; by rewrite Hown|].
  split; [|unfold delete_profile; by rewrite Hown].
  intros description servers Hin. unfold list_profiles in Hin.
  apply elem_of_app in Hin as [Hin|Hin].
  - apply list_elem_of_fmap in Hin as ([name profile] & [=] & _).
  - apply list_elem_of_fmap in Hin as ([name row] & [= Hname _ _] & Hin).
    apply list_elem_of_filter in Hin as [Hnot _]. apply Hnot.
    simpl. rewrite <-Hname.
    apply elem_of_list_to_set. by eapply get_Some_key.
Qed.

(** The input on which C4 fails: [web] passes the schema of a profile
    name and is a built-in profile, and a user profile called [web] is
    created without an error and stored. *)
Lemma create_profile_accepts_builtin_name :
  name_matches "web" = true
  ∧ JsMap.has "web" builtin_profiles = true
  ∧ create_isError (create_profile web_params (Some Db.empty)).2 = false
  ∧ Db.stored_profile "web" (create_profile web_params (Some Db.empty)).1
    = Some (bundle_of web_params).
Proof. vm_compute. repeat split; reflexivity. Qed.

Lemma create_profile_stored_but_shadowed_witness :
  let result := create_profile web_params (Some Db.empty) in
  result.2 = ProfileCreated "web" 1
  ∧ create_isError result.2 = false
  ∧ Db.stored_profile "web" result.1 = Some (bundle_of web_params)
  ∧ lookup_profile builtin_profiles "web" result.1
    = ProfileFound builtin
        [{| ps_name := "fetch"; ps_command := "uvx";
            ps_args := ["mcp-server-fetch"];
            ps_description := "HTTP fetch"; ps_env := None |}]
  ∧ (∀ description servers,
       ("web", custom, description, servers)
       ∉ list_profiles builtin_profiles result.1)
  ∧ delete_profile builtin_profiles "web" result.1
    = (result.1, CannotDeleteBuiltin).
Proof.
  apply (create_profile_stored_but_shadowed builtin_profiles web_params Db.empty
           {| profile_description := "Web access";
              profile_servers :=
                [{| ps_name := "fetch"; ps_command := "uvx";
                    ps_args := ["mcp-server-fetch"];
                    ps_description := "HTTP fetch"; ps_env := None |}] |}).
  - simpl. discriminate.
  - reflexivity.
Defined.

End profiles.

Section scale_up_runs.
Import JsString ProcessManager Scenario.

(** Two signals with a cap of four: one for the stateful SSE worker
    [notes], which only clears its pending flag, and one for the local
    worker [beta], whose primary holds index 0, which brings up
    [beta#1] and leaves [beta] without a pending flag. *)
Lemma scale_up_refused_or_least_index_witness :
  let cap := Config.MAX_SERVER_INSTANCES_default in
  (servers (_handleScaleUp cap "notes" (connects (Some 7)) 20 notes_in_session.1)
     = servers notes_in_session.1
   ∧ _handleScaleUp cap "notes" (connects (Some 7)) 20 notes_in_session.1
     = set_requestQueue
         (RequestQueue.clearPendingScaleUp "notes" (requestQueue notes_in_session.1))
         notes_in_session.1)
  ∧ (("beta" ∉ RequestQueue.pendingScaleUps
                 (requestQueue
                    (_handleScaleUp cap "beta" (connects (Some 7)) 20 beta_busy)))
     ∧ ("beta" ∉ scalingInProgress
                   (_handleScaleUp cap "beta" (connects (Some 7)) 20 beta_busy)))
  ∧ (∃ k, "beta#1" = "beta" +:+ "#" +:+ pretty k
          ∧ least_free_from 1 (indexes_in_use "beta" beta_busy) k)
  ∧ (∃ k managed,
       least_free_from 1 (indexes_in_use "beta" beta_busy) k
       ∧ JsMap.get ("beta" +:+ "#" +:+ pretty k)
           (servers (_handleScaleUp cap "beta" (connects (Some 7)) 20 beta_busy))
         = Some managed
       ∧ ManagedServer.status managed = connected
       ∧ ManagedServer.config managed
         = ServerConfig.with_name ("beta" +:+ "#" +:+ pretty k)
                                  (Tools.config_of beta_params)
       ∧ ("beta" +:+ "#" +:+ pretty k, k)
         ∈ RequestQueue.slot
             <$> RequestQueue.getInstances "beta"
                   (requestQueue
                      (_handleScaleUp cap "beta" (connects (Some 7)) 20 beta_busy))).
Proof.
  intros cap. split; [|split; [|split]].
  - apply (scale_up_refused_or_least_index cap "notes" (connects (Some 7)) 20
             notes_in_session.1).
    intros primary Hprimary. vm_compute in Hprimary.
    injection Hprimary as <-. left. discriminate.
  - assert (Hscaling : "beta" ∉ scalingInProgress beta_busy).
    { apply (bool_decide_unpack _). by vm_compute. }
    exact (proj1 (proj2 (scale_up_refused_or_least_index cap "beta" (connects (Some 7))
                           20 beta_busy)) Hscaling).
  - apply (scale_up_refused_or_least_index cap "beta" (connects (Some 7)) 20 beta_busy).
    + vm_compute. reflexivity.
    + vm_compute. reflexivity.
  - destruct (scale_up_refused_or_least_index cap "beta" (connects (Some 7)) 20 beta_busy)
      as (_ & _ & _ & Hpermitted).
    apply (Hpermitted
             (default (fresh_managed 0 (Tools.config_of beta_params))
                      (JsMap.get "beta" (servers beta_busy)))).
    + vm_compute. reflexivity.
    + reflexivity.
    + discriminate.
    + vm_compute. lia.
    + vm_compute. discriminate.
    + reflexivity.
    + reflexivity.
Defined.

End scale_up_runs.

(** ** Scale-up beside instances that are not registered *)

Section scale_up_collision.
Import JsString ProcessManager Scenario.

(** C3 fails on the code.  [_handleScaleUp] takes the new index from
    the instances registered with the queue, not from the instances
    that run.  In the first run [beta] is restarted
    while [beta#1] runs: the stop of [beta] empties the pool, [beta#1]
    runs on without being registered, and when the queue asks for one
    more instance index 1 counts as free.  The scale-up then spawns
    under the name [beta#1], which stops the instance that was running
    under it, empties the pool again, so that the primary is no longer
    registered, and drops the call that was waiting.  In the second run
    [beta] is declared stateful while [beta#1] runs: a scale-up signal
    for [beta] is refused from then on, yet when the child of [beta#1]
    exits, the reconnect timer starts a new instance [beta#1]. *)
Theorem scale_up_index_of_running_instance_is_reused :
  (ManagedServer.status <$> JsMap.get "beta#1" (servers beta_asked_again)
   = Some connected
   ∧ ManagedServer.pid <$> JsMap.get "beta#1" (servers beta_asked_again)
     = Some (Some 4243)
   ∧ ManagedServer.oid <$> JsMap.get "beta#1" (servers beta_asked_again) = Some 2
   ∧ ServerInstance.internalName
       <$> RequestQueue.getInstances "beta" (requestQueue beta_asked_again)
     = ["beta"]
   ∧ (1 ∉ indexes_in_use "beta" beta_asked_again)
   ∧ "beta" ∈ RequestQueue.pendingScaleUps (requestQueue beta_asked_again)
   ∧ RequestQueue.getQueueDepth "beta" (requestQueue beta_asked_again) = 1
   ∧ (∃ config,
         scale_up_decision Config.MAX_SERVER_INSTANCES_default "beta" beta_asked_again
         = ScaleTo 1 "beta#1" config)
   ∧ ManagedServer.status <$> JsMap.get "beta#1" (servers beta_scaled_again)
     = Some connected
   ∧ ManagedServer.pid <$> JsMap.get "beta#1" (servers beta_scaled_again)
     = Some (Some 4245)
   ∧ ManagedServer.oid <$> JsMap.get "beta#1" (servers beta_scaled_again) = Some 4
   ∧ ServerInstance.internalName
       <$> RequestQueue.getInstances "beta" (requestQueue beta_scaled_again)
     = ["beta#1"]
   ∧ RequestQueue.getQueueDepth "beta" (requestQueue beta_scaled_again) = 0
   ∧ RequestQueue.executing (requestQueue beta_scaled_again)
     = RequestQueue.executing (requestQueue beta_asked_again))
  ∧ (ServerConfig.stateful
       <$> (ManagedServer.config <$> JsMap.get "beta" (servers beta_instance_closed))
     = Some (Some true)
     ∧ scale_up_decision Config.MAX_SERVER_INSTANCES_default "beta"
         beta_instance_closed = Refused
     ∧ ManagedServer.status <$> JsMap.get "beta#1" (servers beta_instance_closed)
       = Some error
     ∧ owner <$> reconnectTimers beta_instance_closed !! "beta#1" = Some 2
     ∧ ServerConfig.stateful
         <$> (ManagedServer.config <$> JsMap.get "beta" (servers beta_instance_back))
       = Some (Some true)
     ∧ ManagedServer.status <$> JsMap.get "beta#1" (servers beta_instance_back)
       = Some connected
     ∧ ManagedServer.pid <$> JsMap.get "beta#1" (servers beta_instance_back)
       = Some (Some 4247)
     ∧ ManagedServer.oid <$> JsMap.get "beta#1" (servers beta_instance_back)
       = Some 4).
Proof.
  split.
  - split_and!;
      lazymatch goal with
      | |- ∃ _, _ => eexists; by vm_compute
      | |- _ ∉ _ => apply (bool_decide_unpack _); by vm_compute
      | |- _ ∈ _ => apply (bool_decide_unpack _); by vm_compute
      | |- _ => by vm_compute
      end.
  - split_and!; by vm_compute.
Qed.

End scale_up_collision.

(** * Further properties *)

(** ** The store: what is read back *)

Section store_round_trip.
Import JsString.

Lemma or_null_idemp (x : option string) : Db.or_null (Db.or_null x) = Db.or_null x.
Proof.
  destruct x as [s|]; simpl; [|done].
  destruct (truthy s) eqn:Hs; simpl; [by rewrite Hs | done].
Qed.

Lemma or_null_clean (x : option string) : x ≠ Some "" → Db.or_null x = x.
Proof. destruct x as [[|c s]|]; simpl; done. Qed.

(** Writing a configuration that was read from the store gives the row
    it was read from. *)
Lemma row_of_config_of_row (config : ServerConfig.t) :
  Db.row_of (Db.config_of_row (ServerConfig.name config) (Db.row_of config))
  = Db.row_of config.
Proof.
  unfold Db.row_of, Db.config_of_row. simpl.
  rewrite !or_null_idemp. f_equal.
  case_bool_decide as Hlen; simpl; [done|].
  destruct (default [] (ServerConfig.headers config)); [done | simpl in Hlen; lia].
Qed.

(** A configuration stored with [upsertServer] and read back with
    [getServer] is the stored one up to the defaults of the table, and
    storing what was read changes nothing in the store. *)
Theorem upsertServer_getServer_fixpoint (config : ServerConfig.t) (tables : Db.Tables) :
  ∃ db1 config',
    Db.upsertServer config (Some tables) = Ok db1
    ∧ Db.getServer (ServerConfig.name config) db1 = Ok (Some config')
    ∧ ServerConfig.name config' = ServerConfig.name config
    ∧ ServerConfig.type config' = ServerConfig.type config
    ∧ ServerConfig.args config' = Some (default [] (ServerConfig.args config))
    ∧ ServerConfig.env config' = Some (default [] (ServerConfig.env config))
    ∧ Db.upsertServer config' db1 = Ok db1.
Proof.
  unfold Db.upsertServer, Db.getServer. simpl.
  eexists _, _. split; [reflexivity|]. simpl.
  rewrite lookup_insert_eq. simpl.
  split; [reflexivity|]. simpl.
  repeat (split; [done|]).
  rewrite row_of_config_of_row. by rewrite insert_insert_eq.
Qed.

(** A configuration whose optional texts are absent or not empty, whose
    header map is absent or not empty, and whose [args], [env] and
    [stateful] are given comes back from the store exactly as it went in;
    other names are not affected by the write. *)
Theorem upsertServer_getServer_exact (config : ServerConfig.t) (tables : Db.Tables) :
  ServerConfig.command config ≠ Some "" →
  ServerConfig.url config ≠ Some "" →
  ServerConfig.description config ≠ Some "" →
  ServerConfig.headers config ≠ Some [] →
  is_Some (ServerConfig.args config) →
  is_Some (ServerConfig.env config) →
  is_Some (ServerConfig.stateful config) →
  ∃ db1,
    Db.upsertServer config (Some tables) = Ok db1
    ∧ Db.getServer (ServerConfig.name config) db1 = Ok (Some config)
    ∧ ∀ other, other ≠ ServerConfig.name config →
        Db.getServer other db1 = Db.getServer other (Some tables).
Proof.
  intros Hcommand Hurl Hdescription Hheaders [args Hargs] [env Henv] [stateful Hstateful].
  unfold Db.upsertServer, Db.getServer. simpl.
  eexists. split; [reflexivity|]. simpl. split.
  - rewrite lookup_insert_eq. simpl. do 2 f_equal.
    destruct config as [n t c a e u d h s]. simpl in *. subst.
    unfold Db.config_of_row, Db.row_of. simpl.
    rewrite !or_null_idemp, !or_null_clean by done. f_equal.
    destruct h as [[|kv h]|]; simpl; done.
  - intros other Hother. by rewrite lookup_insert_ne.
Qed.

End store_round_trip.

(** ** The shape of the live index *)

Section filed_by_name_facts.
Import JsString ProcessManager.

Lemma elem_of_set {V} (l : list (string * V)) (k k' : string) (v v' : V) :
  (k', v') ∈ JsMap.set k v l → (k' = k ∧ v' = v) ∨ (k', v') ∈ l.
Proof.
  induction l as [|[k0 v0] l IH]; simpl.
  - intros Hin. apply list_elem_of_singleton in Hin as [= -> ->]. by left.
  - destruct (decide (k0 = k)) as [->|Hne]; intros Hin.
    + apply elem_of_cons in Hin as [[= -> ->]|Hin]; [by left|].
      right. by apply list_elem_of_further.
    + apply elem_of_cons in Hin as [[= -> ->]|Hin]; [right; apply list_elem_of_here|].
      destruct (IH Hin) as [?|?]; [by left|]. right. by apply list_elem_of_further.
Qed.

Lemma keys_set_NoDup {V} (l : list (string * V)) (k : string) (v : V) :
  NoDup (JsMap.keys l) → NoDup (JsMap.keys (JsMap.set k v l)).
Proof.
  unfold JsMap.keys. induction l as [|[k0 v0] l IH]; simpl.
  - intros _. apply NoDup_singleton.
  - intros Hnd. apply NoDup_cons in Hnd as [Hk0 Hnd].
    destruct (decide (k0 = k)) as [->|Hne]; simpl.
    + by apply NoDup_cons.
    + apply NoDup_cons. split; [|by apply IH].
      intros Hin. apply list_elem_of_fmap in Hin as ([k1 v1] & Hk1 & Hin).
      simpl in Hk1. subst k1.
      apply elem_of_set in Hin as [[? _]|Hin]; [done|].
      apply Hk0. apply list_elem_of_fmap. by exists (k0, v1).
Qed.

Lemma filed_by_name_set (live : list (string * ManagedServer.t)) (m : ManagedServer.t) :
  ServerConfig.name (ManagedServer.config m) = ManagedServer.name m →
  filed_by_name live →
  filed_by_name (JsMap.set (ManagedServer.name m) m live).
Proof.
  intros Hm [Hnd Hfiled]. split; [by apply keys_set_NoDup|].
  intros k m' Hin. apply elem_of_set in Hin as [[-> ->]|Hin]; [done | by apply Hfiled].
Qed.

Lemma filed_by_name_delete (live : list (string * ManagedServer.t)) (k : string) :
  filed_by_name live → filed_by_name (JsMap.delete k live).
Proof.
  intros [Hnd Hfiled]. unfold JsMap.delete. split.
  - unfold JsMap.keys in *. induction live as [|[k0 v0] live IH]; [done|].
    simpl in Hnd. apply NoDup_cons in Hnd as [Hk0 Hnd].
    rewrite filter_cons. simpl. destruct (decide (k0 ≠ k)); simpl.
    + apply NoDup_cons. split.
      * intros Hin. apply Hk0. apply list_elem_of_fmap in Hin as (kv & -> & Hin).
        apply list_elem_of_filter in Hin as [_ Hin].
        apply list_elem_of_fmap. by exists kv.
      * apply IH; [done|]. intros k1 m1 Hin. apply Hfiled. by apply list_elem_of_further.
    + apply IH; [done|]. intros k1 m1 Hin. apply Hfiled. by apply list_elem_of_further.
  - intros k1 m1 Hin. apply list_elem_of_filter in Hin as [_ Hin]. by apply Hfiled.
Qed.

Lemma set_set {V} (l : list (string * V)) (k : string) (v v' : V) :
  JsMap.set k v (JsMap.set k v' l) = JsMap.set k v l.
Proof.
  induction l as [|[k0 v0] l IH]; simpl.
  - by rewrite decide_True.
  - destruct (decide (k0 = k)) as [->|Hne]; simpl.
    + by rewrite decide_True.
    + rewrite decide_False by done. by rewrite IH.
Qed.

(** The live index after a spawn: the returned object is filed under
    the name of the configuration, in the index that the stop of a
    previous holder of the name has left. *)
Lemma _doSpawn_servers (config : ServerConfig.t) (out : SpawnOutcome)
    (pm : ProcessManager.t) :
  servers (_doSpawn config out pm).1
  = JsMap.set (ServerConfig.name config) (_doSpawn config out pm).2
      (servers (if JsMap.has (ServerConfig.name config) (servers pm)
                then stopServer (ServerConfig.name config) pm else pm))
  ∧ ManagedServer.name (_doSpawn config out pm).2 = ServerConfig.name config
  ∧ ManagedServer.config (_doSpawn config out pm).2 = config.
Proof.
  unfold _doSpawn. cbv zeta.
  set (pm1 := if JsMap.has _ _ then _ else _) in *.
  set (managed := fresh_managed (next_oid pm1) config).
  assert (Hsettled : ∀ (m : ManagedServer.t) (n : string),
             n = ServerConfig.name config →
             JsMap.set n m (JsMap.set (ManagedServer.name managed) managed (servers pm1))
             = JsMap.set (ServerConfig.name config) m (servers pm1)).
  { intros m n ->. simpl. apply set_set. }
  destruct (ServerConfig.type config).
  - destruct (_spawnStdio_keeps managed config out (reconnectTimers pm1))
      as [Hname Hconfig].
    destruct (_spawnStdio managed config out _) as [[m timers] [[]|e]]; simpl in *.
    + destruct (listTools_result out); simpl; (split; [by apply Hsettled | done]).
    + split; [by apply Hsettled | done].
  - destruct (_spawnSSE_keeps managed config out (reconnectTimers pm1))
      as [Hname Hconfig].
    destruct (_spawnSSE managed config out _) as [[m timers] [[]|e]]; simpl in *.
    + destruct (listTools_result out); simpl; (split; [by apply Hsettled | done]).
    + split; [by apply Hsettled | done].
  - destruct (_spawnStreamableHTTP_keeps managed config out (reconnectTimers pm1))
      as [Hname Hconfig].
    destruct (_spawnStreamableHTTP managed config out _) as [[m timers] [[]|e]];
      simpl in *.
    + destruct (listTools_result out); simpl; (split; [by apply Hsettled | done]).
    + split; [by apply Hsettled | done].
  - simpl. split; [by apply Hsettled | done].
Qed.

Lemma filed_by_name_stopServer (name : string) (pm : ProcessManager.t) :
  filed_by_name (servers pm) → filed_by_name (servers (stopServer name pm)).
Proof. intros Hpm. rewrite stopServer_servers. by apply filed_by_name_delete. Qed.

Lemma filed_by_name__doSpawn (config : ServerConfig.t) (out : SpawnOutcome)
    (pm : ProcessManager.t) :
  filed_by_name (servers pm) → filed_by_name (servers (_doSpawn config out pm).1).
Proof.
  intros Hpm. destruct (_doSpawn_servers config out pm) as (-> & Hname & Hconfig).
  rewrite <-Hname. apply filed_by_name_set; [by rewrite Hconfig, Hname|].
  case_match; [by apply filed_by_name_stopServer | done].
Qed.

End filed_by_name_facts.

Section filed_by_name_kept.
Import JsString ProcessManager.

Lemma get_Some_elem {V} (l : list (string * V)) (k : string) (v : V) :
  JsMap.get k l = Some v → (k, v) ∈ l.
Proof.
  induction l as [|[k0 v0] l IH]; simpl; [done|].
  destruct (decide (k0 = k)) as [->|Hne].
  - intros [= ->]. apply list_elem_of_here.
  - intros Hget. by apply list_elem_of_further, IH.
Qed.

Lemma filed_by_name_put (m : ManagedServer.t) (pm : ProcessManager.t) :
  ServerConfig.name (ManagedServer.config m) = ManagedServer.name m →
  filed_by_name (servers pm) → filed_by_name (servers (put m pm)).
Proof. intros Hm Hpm. by apply filed_by_name_set. Qed.

Lemma filed_by_name_transport_closed (name : string) (pm : ProcessManager.t) :
  filed_by_name (servers pm) → filed_by_name (servers (transport_closed name pm)).
Proof.
  intros Hpm. unfold transport_closed.
  destruct (JsMap.get name (servers pm)) as [managed|] eqn:Hget; [|done].
  apply get_Some_elem, Hpm in Hget as [Hname Hconfig].
  destruct (onclose_keeps managed (reconnectTimers pm)) as [Hname' Hconfig'].
  destruct (onclose managed (reconnectTimers pm)) as [managed' timers]. simpl in *.
  apply filed_by_name_put; [congruence | done].
Qed.

Lemma filed_by_name_reconnect_timer_fired (name : string) (out : SpawnOutcome)
    (pm : ProcessManager.t) :
  filed_by_name (servers pm) →
  filed_by_name (servers (reconnect_timer_fired name out pm)).
Proof.
  intros Hpm. unfold reconnect_timer_fired.
  destruct (reconnectTimers pm !! name) as [timer|]; [|done]. simpl.
  destruct (JsMap.get name (servers pm)) as [managed|]; [|done].
  case_match; [done|]. case_match; [done|].
  set (pm1 := set_servers _ _).
  assert (Hpm1 : filed_by_name (servers pm1)) by by apply filed_by_name_delete.
  pose proof (filed_by_name__doSpawn (ManagedServer.config managed) out pm1 Hpm1) as Hpm2.
  destruct (_doSpawn_servers (ManagedServer.config managed) out pm1) as (_ & Hname & Hconfig).
  destruct (_doSpawn (ManagedServer.config managed) out pm1) as [pm2 newManaged].
  simpl in *.
  case_match; (apply filed_by_name_put; [simpl; congruence | done]).
Qed.

Lemma filed_by_name__handleScaleUp (cap : nat) (base : string) (out : SpawnOutcome)
    (now : nat) (pm : ProcessManager.t) :
  filed_by_name (servers pm) →
  filed_by_name (servers (_handleScaleUp cap base out now pm)).
Proof.
  intros Hpm. unfold _handleScaleUp, spawnServer.
  destruct (scale_up_decision cap base pm) as [| |k internalName config]; [done..|].
  set (pm1 := set_scalingInProgress _ pm).
  pose proof (filed_by_name__doSpawn config out pm1 Hpm) as Hpm2.
  destruct (_doSpawn config out pm1) as [pm2 managed]. simpl in *.
  repeat case_match; simpl; try done. by apply filed_by_name_stopServer.
Qed.

Lemma filed_by_name_callToolQueued (server tool args : string) (sessionId : option string)
    (tempDir : string) (out : SpawnOutcome) (now : nat) (pm : ProcessManager.t) :
  filed_by_name (servers pm) →
  filed_by_name (servers (callToolQueued server tool args sessionId tempDir out now pm).1).
Proof.
  intros Hpm. unfold callToolQueued, _callStatefulInstance, spawnServer. cbv zeta.
  destruct (_ && _); [|done].
  destruct (_ && _); [|done]. simpl.
  destruct (JsMap.get server (servers pm)) as [primary|]; [|done].
  destruct (session_config _ _ _) as [sessionConfig [|]];
    match goal with
    | |- context [_doSpawn sessionConfig out ?p] =>
        pose proof (filed_by_name__doSpawn sessionConfig out p) as Hpm2;
        destruct (_doSpawn sessionConfig out p) as [pm2 managed]
    end;
    simpl in *; destruct (negb _); simpl; by apply Hpm2.
Qed.

Lemma foldl_keeps {A B} (P : A → Prop) (f : A → B → A) (l : list B) (a : A) :
  (∀ a b, P a → P (f a b)) → P a → P (foldl f a l).
Proof.
  intros Hf. revert a. induction l as [|b l IH]; intros a Ha; simpl; [done|].
  by apply IH, Hf.
Qed.

(** The invariant of the live index.  Started on an index in which
    every server is filed once, under its own name and the name of its
    configuration, each operation of the manager leaves such an index. *)
Theorem live_index_stays_filed_by_name (pm : ProcessManager.t) :
  filed_by_name (servers pm) →
  (∀ name, filed_by_name (servers (stopServer name pm)))
  ∧ (∀ config out, filed_by_name (servers (spawnServer config out pm).1))
  ∧ (∀ name out, filed_by_name (servers (restartServer name out pm).1))
  ∧ (∀ name, filed_by_name (servers (transport_closed name pm)))
  ∧ (∀ name out, filed_by_name (servers (reconnect_timer_fired name out pm)))
  ∧ (∀ cap base out now, filed_by_name (servers (_handleScaleUp cap base out now pm)))
  ∧ (∀ server tool args sessionId tempDir out now,
       filed_by_name
         (servers (callToolQueued server tool args sessionId tempDir out now pm).1))
  ∧ (∀ sessionId, filed_by_name (servers (releaseSessionInstances sessionId pm).1))
  ∧ (∀ idle now, filed_by_name (servers (_checkIdleInstances idle now pm)))
  ∧ filed_by_name (servers (stopAll pm)).
Proof.
  intros Hpm. repeat split_and.
  - intros name. by apply filed_by_name_stopServer.
  - intros config out. by apply filed_by_name__doSpawn.
  - intros name out. unfold restartServer, spawnServer.
    destruct (JsMap.get name (servers pm)) as [server|]; [|done].
    pose proof (filed_by_name__doSpawn (ManagedServer.config server) out
                  (stopServer name pm) (filed_by_name_stopServer name pm Hpm)) as H.
    by destruct (_doSpawn _ _ _).
  - intros name. by apply filed_by_name_transport_closed.
  - intros name out. by apply filed_by_name_reconnect_timer_fired.
  - intros cap base out now. by apply filed_by_name__handleScaleUp.
  - intros. by apply filed_by_name_callToolQueued.
  - intros sessionId. unfold releaseSessionInstances.
    destruct (sessionInstances pm !! sessionId) as [[|entry sessionMap]|]; [done| |done].
    set (pm1 := foldl _ pm _).
    assert (Hpm1 : filed_by_name (servers pm1)).
    { apply (foldl_keeps (λ p, filed_by_name (servers p))); [|done].
      intros p n Hp. case_match; [by apply filed_by_name_stopServer | done]. }
    simpl. by case_match.
  - intros idle now. unfold _checkIdleInstances.
    apply (foldl_keeps (λ p, filed_by_name (servers p))); [|done].
    intros p entry Hp.
    apply (foldl_keeps (λ p, filed_by_name (servers p))); [|done].
    intros p' instance Hp'. unfold reap. case_match; [|done].
    by apply filed_by_name_stopServer.
  - unfold stopAll.
    apply (foldl_keeps (λ p, filed_by_name (servers p))); [|done].
    intros p n Hp. by apply filed_by_name_stopServer.
Qed.

(** A concrete index is filed by name when its keys are distinct and
    every entry passes the two name tests. *)
Lemma filed_by_name_Forall (live : list (string * ManagedServer.t)) :
  NoDup (JsMap.keys live)
  ∧ Forall (λ km, ManagedServer.name km.2 = km.1
                  ∧ ServerConfig.name (ManagedServer.config km.2) = km.1) live →
  filed_by_name live.
Proof.
  intros [Hkeys Hall]. split; [done|]. intros k m Hin.
  by apply (proj1 (Forall_forall _ _) Hall (k, m)).
Qed.

(** The index after [alpha] and [beta] have been declared is filed by
    name, and so is the index after [alpha] is stopped. *)
Lemma live_index_stays_filed_by_name_witness :
  filed_by_name (servers (Scenario.after_beta).1)
  ∧ filed_by_name (servers (stopServer "alpha" (Scenario.after_beta).1)).
Proof.
  assert (H : filed_by_name (servers (Scenario.after_beta).1)).
  { apply filed_by_name_Forall, (bool_decide_unpack _). by vm_compute. }
  split; [exact H|].
  exact (proj1 (live_index_stays_filed_by_name _ H) "alpha").
Defined.

End filed_by_name_kept.

(** ** What the sweeps write *)

Section sweeps.
Import JsString ProcessManager.

Lemma same_rows_refl (name : string) (d : Db.t) : Db.same_rows name d d.
Proof. done. Qed.

Lemma same_rows_trans (name : string) (d1 d2 d3 : Db.t) :
  Db.same_rows name d1 d2 → Db.same_rows name d2 d3 → Db.same_rows name d1 d3.
Proof. intros [? ?] [? ?]. split; congruence. Qed.

(** [savePids] leaves alone every name it does not file a live server
    under, and every derived name. *)
Lemma savePids_loop_same_rows (entries : list (string * ManagedServer.t)) (d : Db.t)
    (name : string) :
  is_derived_name name = true ∨ name ∉ JsMap.keys entries →
  Db.same_rows name d (savePids_loop entries d).
Proof.
  revert d. induction entries as [|[k server] entries IH]; intros d Hname; simpl; [done|].
  assert (Hrest : is_derived_name name = true ∨ name ∉ JsMap.keys entries).
  { destruct Hname as [?|Hname]; [by left|]. right. intros Hin. apply Hname.
    by apply list_elem_of_further. }
  destruct (is_derived_name k) eqn:Hk; [by apply IH|].
  destruct (pid_truthy (ManagedServer.pid server)) as [pid|]; [|by apply IH].
  destruct d as [tables|]; simpl; [|done].
  eapply same_rows_trans; [|by apply IH].
  split; simpl; [done|]. apply lookup_insert_ne.
  intros ->. destruct Hname as [Hname|Hname]; [congruence|].
  apply Hname. apply list_elem_of_here.
Qed.

(** [saveLocalConfig] leaves alone every name that no live server has in
    its configuration, and, when the servers are filed by name, every
    derived name. *)
Lemma saveLocalConfig_loop_same_rows (values : list ManagedServer.t) (d : Db.t)
    (name : string) :
  (is_derived_name name = true
   ∧ ∀ m, m ∈ values → ServerConfig.name (ManagedServer.config m) = ManagedServer.name m)
  ∨ (∀ m, m ∈ values → ServerConfig.name (ManagedServer.config m) ≠ name) →
  Db.same_rows name d (saveLocalConfig_loop values d).
Proof.
  revert d. induction values as [|server values IH]; intros d Hname; simpl; [done|].
  assert (Hrest :
    (is_derived_name name = true
     ∧ ∀ m, m ∈ values → ServerConfig.name (ManagedServer.config m) = ManagedServer.name m)
    ∨ (∀ m, m ∈ values → ServerConfig.name (ManagedServer.config m) ≠ name)).
  { destruct Hname as [[? Hname]|Hname]; [left; split; [done|] | right];
      intros m Hm; apply Hname; by apply list_elem_of_further. }
  destruct (is_derived_name (ManagedServer.name server)) eqn:Hserver; [by apply IH|].
  destruct d as [tables|]; simpl; [|done].
  eapply same_rows_trans; [|by apply IH].
  split; simpl; [|done]. apply lookup_insert_ne.
  destruct Hname as [[Hderived Hname]|Hname].
  - rewrite (Hname server) by apply list_elem_of_here. congruence.
  - apply Hname, list_elem_of_here.
Qed.

Lemma values_filed (live : list (string * ManagedServer.t)) :
  filed_by_name live →
  ∀ m, m ∈ JsMap.values live →
    ServerConfig.name (ManagedServer.config m) = ManagedServer.name m.
Proof.
  intros [_ Hfiled] m Hm. unfold JsMap.values in Hm.
  apply list_elem_of_fmap in Hm as ([k m'] & -> & Hin). simpl.
  destruct (Hfiled k m' Hin). congruence.
Qed.

(** Both sweeps, one after the other, on an index filed by name. *)
Lemma sweeps_same_rows_derived (pm : ProcessManager.t) (name : string) :
  filed_by_name (servers pm) → is_derived_name name = true →
  Db.same_rows name (db pm) (db (saveLocalConfig (savePids pm))).
Proof.
  intros Hpm Hname. simpl.
  eapply same_rows_trans.
  - apply savePids_loop_same_rows. by left.
  - apply saveLocalConfig_loop_same_rows. left. split; [done|].
    by apply values_filed.
Qed.

Lemma stopServer_same_rows_derived (stopped name : string) (pm : ProcessManager.t) :
  filed_by_name (servers pm) → is_derived_name name = true →
  Db.same_rows name (db pm) (db (stopServer stopped pm)).
Proof.
  intros Hpm Hname. unfold stopServer. simpl.
  destruct (JsMap.get stopped (servers pm)) as [server|]; [|done].
  case_match; [|done].
  match goal with
  | |- Db.same_rows _ _ (db (saveLocalConfig (savePids ?p))) =>
      apply (sweeps_same_rows_derived p name); [|done]
  end.
  simpl. by apply filed_by_name_delete.
Qed.

Lemma _doSpawn_same_rows_derived (config : ServerConfig.t) (out : SpawnOutcome)
    (name : string) (pm : ProcessManager.t) :
  filed_by_name (servers pm) → is_derived_name name = true →
  Db.same_rows name (db pm) (db (_doSpawn config out pm).1).
Proof.
  intros Hpm Hname.
  pose proof (filed_by_name__doSpawn config out pm Hpm) as Hafter.
  revert Hafter. unfold _doSpawn. cbv zeta.
  set (pm1 := if JsMap.has _ _ then _ else _) in *.
  assert (Hpm1 : Db.same_rows name (db pm) (db pm1)).
  { unfold pm1. case_match; [by apply stopServer_same_rows_derived | done]. }
  set (managed := fresh_managed (next_oid pm1) config).
  assert (Hswept : ∀ (m2 : ManagedServer.t) (timers : gmap string Timer),
             let pm3 := set_reconnectTimers timers
                          (put managed (set_next_oid (S (next_oid pm1)) pm1)) in
             filed_by_name (servers (saveLocalConfig (savePids (put m2 pm3)))) →
             Db.same_rows name (db pm)
               (db (saveLocalConfig (savePids (put m2 pm3))))).
  { intros m2 timers pm3 Hfiled. eapply same_rows_trans; [exact Hpm1|].
    by apply (sweeps_same_rows_derived (put m2 pm3)). }
  destruct (ServerConfig.type config).
  - destruct (_spawnStdio managed config out _) as [[m timers] [[]|e]]; simpl; [|done].
    destruct (listTools_result out); apply (Hswept _ timers).
  - destruct (_spawnSSE managed config out _) as [[m timers] [[]|e]]; simpl; [|done].
    destruct (listTools_result out); apply (Hswept _ timers).
  - destruct (_spawnStreamableHTTP managed config out _) as [[m timers] [[]|e]];
      simpl; [|done].
    destruct (listTools_result out); apply (Hswept _ timers).
  - done.
Qed.

End sweeps.

Section derived_rows.
Import JsString ProcessManager.

Lemma filed_with_rows_stopServer (name stopped : string) (d : Db.t)
    (pm : ProcessManager.t) :
  is_derived_name name = true →
  filed_with_rows name d pm → filed_with_rows name d (stopServer stopped pm).
Proof.
  intros Hname [Hpm Hrows]. split; [by apply filed_by_name_stopServer|].
  eapply same_rows_trans; [exact Hrows|]. by apply stopServer_same_rows_derived.
Qed.

Lemma filed_with_rows__doSpawn (name : string) (config : ServerConfig.t)
    (out : SpawnOutcome) (d : Db.t) (pm : ProcessManager.t) :
  is_derived_name name = true →
  filed_with_rows name d pm → filed_with_rows name d (_doSpawn config out pm).1.
Proof.
  intros Hname [Hpm Hrows]. split; [by apply filed_by_name__doSpawn|].
  eapply same_rows_trans; [exact Hrows|]. by apply _doSpawn_same_rows_derived.
Qed.

Lemma filed_with_rows_same (name : string) (d : Db.t) (pm pm' : ProcessManager.t) :
  servers pm' = servers pm → db pm' = db pm →
  filed_with_rows name d pm → filed_with_rows name d pm'.
Proof. intros Hs Hd [? ?]. split; by rewrite ?Hs, ?Hd. Qed.

(** No operation of the manager writes under a derived name.  On an
    index filed by name, the rows that tables [servers] and [pids] hold
    under a name with [#] or [@] in it are the same before and after a
    stop, a spawn, a restart, a reconnect attempt, a scale-up, a queued
    or session call, the release of a session, the idle check and
    [stopAll]. *)
Theorem derived_rows_untouched (name : string) (pm : ProcessManager.t) :
  is_derived_name name = true →
  filed_by_name (servers pm) →
  (∀ stopped, Db.same_rows name (db pm) (db (stopServer stopped pm)))
  ∧ (∀ config out, Db.same_rows name (db pm) (db (spawnServer config out pm).1))
  ∧ (∀ restarted out, Db.same_rows name (db pm) (db (restartServer restarted out pm).1))
  ∧ (∀ fired out, Db.same_rows name (db pm) (db (reconnect_timer_fired fired out pm)))
  ∧ (∀ cap base out now,
       Db.same_rows name (db pm) (db (_handleScaleUp cap base out now pm)))
  ∧ (∀ server tool args sessionId tempDir out now,
       Db.same_rows name (db pm)
         (db (callToolQueued server tool args sessionId tempDir out now pm).1))
  ∧ (∀ sessionId, Db.same_rows name (db pm) (db (releaseSessionInstances sessionId pm).1))
  ∧ (∀ idle now, Db.same_rows name (db pm) (db (_checkIdleInstances idle now pm)))
  ∧ Db.same_rows name (db pm) (db (stopAll pm)).
Proof.
  intros Hname Hpm.
  assert (H0 : filed_with_rows name (db pm) pm) by (split; [done | apply same_rows_refl]).
  repeat split_and.
  - intros stopped. by apply (filed_with_rows_stopServer name stopped (db pm) pm).
  - intros config out. by apply (filed_with_rows__doSpawn name config out (db pm) pm).
  - intros restarted out. unfold restartServer, spawnServer.
    destruct (JsMap.get restarted (servers pm)) as [server|]; [|apply same_rows_refl].
    pose proof (filed_with_rows__doSpawn name (ManagedServer.config server) out (db pm)
                  (stopServer restarted pm) Hname
                  (filed_with_rows_stopServer name restarted (db pm) pm Hname H0)) as [_ H].
    by destruct (_doSpawn _ _ _).
  - intros fired out. unfold reconnect_timer_fired.
    destruct (reconnectTimers pm !! fired) as [timer|]; [|apply same_rows_refl]. simpl.
    destruct (JsMap.get fired (servers pm)) as [managed|]; [|apply same_rows_refl].
    case_match; [apply same_rows_refl|]. case_match; [apply same_rows_refl|].
    match goal with
    | |- context [_doSpawn ?c out ?p] =>
        assert (Hp : filed_with_rows name (db pm) p)
          by (split; [by apply filed_by_name_delete | apply same_rows_refl]);
        pose proof (filed_with_rows__doSpawn name c out (db pm) p Hname Hp) as [_ Hspawned];
        destruct (_doSpawn c out p) as [pm2 newManaged]
    end.
    by case_match.
  - intros cap base out now. unfold _handleScaleUp, spawnServer.
    destruct (scale_up_decision cap base pm) as [| |k internalName config];
      [apply same_rows_refl..|].
    match goal with
    | |- context [_doSpawn config out ?p] =>
        assert (Hp : filed_with_rows name (db pm) p) by done;
        pose proof (filed_with_rows__doSpawn name config out (db pm) p Hname Hp) as Hpm2;
        destruct (_doSpawn config out p) as [pm2 managed]
    end.
    simpl in *. repeat case_match; simpl; try apply Hpm2.
    by apply (filed_with_rows_stopServer name internalName (db pm) pm2).
  - intros server tool args sessionId tempDir out now.
    unfold callToolQueued, _callStatefulInstance, spawnServer. cbv zeta.
    destruct (_ && _); [|apply same_rows_refl].
    destruct (_ && _); [|apply same_rows_refl]. simpl.
    destruct (JsMap.get server (servers pm)) as [primary|]; [|apply same_rows_refl].
    destruct (session_config _ _ _) as [sessionConfig [|]];
      match goal with
      | |- context [_doSpawn sessionConfig out ?p] =>
          assert (Hp : filed_with_rows name (db pm) p) by done;
          pose proof (filed_with_rows__doSpawn name sessionConfig out (db pm) p Hname Hp)
            as [_ Hpm2];
          destruct (_doSpawn sessionConfig out p) as [pm2 managed]
      end;
      simpl in *; by destruct (negb _).
  - intros sessionId. unfold releaseSessionInstances.
    destruct (sessionInstances pm !! sessionId) as [[|entry sessionMap]|];
      [apply same_rows_refl| |apply same_rows_refl].
    set (pm1 := foldl _ pm _).
    assert (Hpm1 : filed_with_rows name (db pm) pm1).
    { apply (foldl_keeps (filed_with_rows name (db pm))); [|done].
      intros p n Hp. case_match; [by apply filed_with_rows_stopServer | done]. }
    destruct Hpm1 as [_ Hrows]. simpl. by case_match.
  - intros idle now. unfold _checkIdleInstances.
    apply (foldl_keeps (filed_with_rows name (db pm))); [|done].
    intros p entry Hp.
    apply (foldl_keeps (filed_with_rows name (db pm))); [|done].
    intros p' instance Hp'. unfold reap. case_match; [|done].
    apply filed_with_rows_stopServer; [done|].
    by apply (filed_with_rows_same name (db pm) p').
  - unfold stopAll.
    apply (foldl_keeps (filed_with_rows name (db pm))); [|done].
    intros p n Hp. by apply filed_with_rows_stopServer.
Qed.

End derived_rows.

(** ** Stop *)

Section stop.
Import JsString ProcessManager.

Lemma includes_indexOf (needle s : string) :
  includes needle s = true ↔ is_Some (indexOf needle s).
Proof.
  induction s as [|c s IH]; simpl.
  - destruct (startsWith needle ""); simpl; [by split; eauto|].
    split; [done | by intros [? ?]].
  - destruct (startsWith needle (String c s)); simpl; [by split; eauto|].
    rewrite IH. by rewrite fmap_is_Some.
Qed.

(** The base name as [stopServer] works it out is the one that
    [_getAllInstancesByBase] works out. *)
Lemma stop_base_of (name : string) :
  (if includes "#" name then slice0 (default 0 (indexOf "#" name)) name else name)
  = base_of name.
Proof.
  unfold base_of. destruct (includes "#" name) eqn:Hinc.
  - apply includes_indexOf in Hinc as [i Hi]. by rewrite Hi.
  - destruct (indexOf "#" name) as [i|] eqn:Hi; [|done].
    assert (includes "#" name = true) by (apply includes_indexOf; eauto). congruence.
Qed.

(** The base of [base#suffix] is [base]. *)
Lemma base_of_scaled (base suffix : string) :
  includes "#" base = false → base_of (base +:+ "#" +:+ suffix) = base.
Proof.
  unfold base_of. induction base as [|c base IH]; [done|].
  intros Hbase.
  change (includes "#" (String c base))
    with (startsWith "#" (String c base) || includes "#" base) in Hbase.
  apply orb_false_elim in Hbase as [Hstart Hbase]. specialize (IH Hbase).
  change (String c base +:+ "#" +:+ suffix) with (String c (base +:+ "#" +:+ suffix)).
  change (indexOf "#" (String c (base +:+ "#" +:+ suffix)))
    with (if startsWith "#" (String c (base +:+ "#" +:+ suffix)) then Some 0
          else S <$> indexOf "#" (base +:+ "#" +:+ suffix)).
  assert (Hstart' : startsWith "#" (String c (base +:+ "#" +:+ suffix)) = false).
  { simpl in *. by destruct (Ascii.eqb "#" c). }
  rewrite Hstart'.
  destruct (indexOf "#" (base +:+ "#" +:+ suffix)) as [i|] eqn:Hi; simpl;
    by rewrite IH.
Qed.

Lemma stopServer_reconnectTimers (name : string) (pm : ProcessManager.t) :
  reconnectTimers (stopServer name pm) = delete name (reconnectTimers pm).
Proof.
  unfold stopServer. simpl.
  destruct (JsMap.get name (servers pm)); [|done]. by case_match.
Qed.

Lemma stopServer_absent (name : string) (pm : ProcessManager.t) :
  JsMap.get name (servers pm) = None →
  reconnectTimers pm !! name = None →
  stopServer name pm = pm.
Proof.
  intros Hget Htimer. unfold stopServer. simpl. rewrite Hget.
  destruct pm. unfold set_reconnectTimers. simpl in *. f_equal.
  by apply delete_id.
Qed.

Lemma stopServer_gone (name : string) (pm : ProcessManager.t) :
  JsMap.has name (servers (stopServer name pm)) = false.
Proof.
  apply has_false_get. rewrite stopServer_servers, get_delete. by rewrite decide_True.
Qed.

(** [stopServer] is idempotent, and after it the name is not live and has
    no reconnect timer. *)
Theorem stopServer_idempotent (name : string) (pm : ProcessManager.t) :
  stopServer name (stopServer name pm) = stopServer name pm
  ∧ JsMap.has name (servers (stopServer name pm)) = false
  ∧ reconnectTimers (stopServer name pm) !! name = None.
Proof.
  assert (Hget : JsMap.get name (servers (stopServer name pm)) = None).
  { rewrite stopServer_servers, get_delete. by rewrite decide_True. }
  assert (Htimer : reconnectTimers (stopServer name pm) !! name = None).
  { rewrite stopServer_reconnectTimers. apply lookup_delete_eq. }
  split; [by apply stopServer_absent|]. split; [apply stopServer_gone | done].
Qed.

Lemma savePids_loop_stored_server (entries : list (string * ManagedServer.t)) (d : Db.t)
    (k : string) :
  Db.stored_server k (savePids_loop entries d) = Db.stored_server k d.
Proof.
  revert d. induction entries as [|[n server] entries IH]; intros d; simpl; [done|].
  destruct (is_derived_name n); [done|].
  destruct (pid_truthy _); [|done].
  destruct d as [tables|]; simpl; [|done]. by rewrite IH.
Qed.

Lemma keys_delete {V} (live : list (string * V)) (k : string) :
  k ∉ JsMap.keys (JsMap.delete k live).
Proof.
  unfold JsMap.keys, JsMap.delete. intros Hin.
  apply list_elem_of_fmap in Hin as ([k' v] & Hk & Hin). simpl in Hk. subst k'.
  by apply list_elem_of_filter in Hin as [Hne _].
Qed.

Lemma stopServer_same_rows_self (stopped : string) (pm : ProcessManager.t) :
  filed_by_name (servers pm) →
  Db.same_rows stopped (db pm) (db (stopServer stopped pm)).
Proof.
  intros Hpm. unfold stopServer. simpl.
  destruct (JsMap.get stopped (servers pm)) as [server|]; [|done].
  case_match; [|done]. simpl.
  pose proof (filed_by_name_delete (servers pm) stopped Hpm) as [Hnd Hfiled].
  eapply same_rows_trans.
  - apply savePids_loop_same_rows. right. apply keys_delete.
  - apply saveLocalConfig_loop_same_rows. right. intros m Hm.
    unfold JsMap.values in Hm. apply list_elem_of_fmap in Hm as ([k m'] & -> & Hin).
    simpl. destruct (Hfiled k m' Hin) as [_ ->]. intros ->.
    apply (keys_delete (servers pm) stopped).
    unfold JsMap.keys. apply list_elem_of_fmap. by exists (stopped, m').
Qed.

Lemma stopServer_stored_server (stopped k : string) (pm : ProcessManager.t) :
  is_Some (Db.stored_server k (db pm)) →
  is_Some (Db.stored_server k (db (stopServer stopped pm))).
Proof.
  intros Hk. unfold stopServer. simpl.
  destruct (JsMap.get stopped (servers pm)) as [server|]; [|done].
  case_match; [|done]. simpl.
  apply saveLocalConfig_loop_keeps. by rewrite savePids_loop_stored_server.
Qed.

(** Stopping a server keeps what the store holds: no row of table
    [servers] goes away, and the rows of the stopped server itself stay as
    they are, so that the server can be started again from them. *)
Theorem stopServer_keeps_rows (stopped : string) (pm : ProcessManager.t) :
  filed_by_name (servers pm) →
  Db.same_rows stopped (db pm) (db (stopServer stopped pm))
  ∧ ∀ k, is_Some (Db.stored_server k (db pm)) →
         is_Some (Db.stored_server k (db (stopServer stopped pm))).
Proof.
  intros Hpm. split; [by apply stopServer_same_rows_self|].
  intros k. apply stopServer_stored_server.
Qed.

Lemma includes_middle (needle before after : string) :
  includes needle (before +:+ needle +:+ after) = true.
Proof.
  induction before as [|c before IH]; simpl.
  - assert (Hstarts : startsWith needle (needle +:+ after) = true).
    { induction needle as [|a needle IHn]; simpl; [done|].
      by rewrite Ascii.eqb_refl. }
    destruct (needle +:+ after); simpl in *; by rewrite Hstarts.
  - rewrite IH. apply orb_true_r.
Qed.

(** Stopping one scaled instance takes the whole pool of its base out of
    the queue: no instance of the base stays registered, the primary
    included, the calls that wait for the base are rejected and the
    pending flag is cleared; the primary itself stays live and the store
    is not written. *)
Theorem stop_scaled_instance_drains_pool (base suffix : string) (pm : ProcessManager.t) :
  includes "#" base = false →
  JsMap.has (base +:+ "#" +:+ suffix) (servers pm) = true →
  let pm' := stopServer (base +:+ "#" +:+ suffix) pm in
  RequestQueue.getInstances base (requestQueue pm') = []
  ∧ RequestQueue.getQueueDepth base (requestQueue pm') = 0
  ∧ (base ∉ RequestQueue.pendingScaleUps (requestQueue pm'))
  ∧ JsMap.get base (servers pm') = JsMap.get base (servers pm)
  ∧ db pm' = db pm.
Proof.
  intros Hbase Hlive. cbv zeta.
  assert (Hne : base +:+ "#" +:+ suffix ≠ base).
  { intros Heq. pose proof (includes_middle "#" base suffix) as Hinc.
    rewrite Heq in Hinc. congruence. }
  split_and!; [| | |by rewrite stopServer_servers, get_delete, decide_False|].
  all: unfold stopServer; simpl.
  all: apply has_get in Hlive as [server Hserver]; rewrite Hserver.
  all: rewrite (stop_base_of (base +:+ "#" +:+ suffix)), base_of_scaled by done.
  all: rewrite (includes_middle "#" base suffix), andb_false_r; simpl.
  - unfold RequestQueue.getInstances. simpl. by rewrite lookup_delete_eq.
  - unfold RequestQueue.getQueueDepth. simpl. by rewrite lookup_delete_eq.
  - rewrite elem_of_difference, elem_of_singleton. by intros [_ Hne'].
  - done.
Qed.

End stop.

(** ** The request queue *)

Section queue_dispatch.
Import RequestQueue.

Lemma idle_cons (i : ServerInstance.t) (insts : list ServerInstance.t) :
  idle (i :: insts) = if ServerInstance.busy i then idle insts else i :: idle insts.
Proof.
  unfold idle. rewrite filter_cons. destruct (ServerInstance.busy i); by case_decide.
Qed.

Lemma dispatch_loop_fifo (insts : list ServerInstance.t) (queue : list QueuedRequest) :
  let '(insts', queue', started) := dispatch_loop insts queue in
  started.*1 ++ queue' = queue
  ∧ started.*2 = take (length started) (ServerInstance.internalName <$> idle insts)
  ∧ length started = length queue `min` length (idle insts)
  ∧ (queue' = [] ∨ Forall (λ i, ServerInstance.busy i = true) insts').
Proof.
  revert queue. induction insts as [|i insts IH]; intros queue.
  - simpl. split_and!; [done..| lia | by right].
  - destruct queue as [|request queue]; [simpl; split_and!; [done..| by left]|].
    rewrite idle_cons.
    change (dispatch_loop (i :: insts) (request :: queue))
      with (if ServerInstance.busy i then
              let '(rest', q', started) := dispatch_loop insts (request :: queue) in
              (i :: rest', q', started)
            else
              let '(rest', q', started) := dispatch_loop insts queue in
              (ServerInstance.set_busy true i :: rest', q',
               (request, ServerInstance.internalName i) :: started)).
    destruct (ServerInstance.busy i) eqn:Hbusy.
    + specialize (IH (request :: queue)).
      destruct (dispatch_loop insts (request :: queue)) as [[insts' queue'] started].
      destruct IH as (Hfifo & Hnames & Hlen & Hsat).
      split_and!; [done..|].
      destruct Hsat as [?|Hsat]; [by left|]. right. by apply Forall_cons.
    + specialize (IH queue).
      destruct (dispatch_loop insts queue) as [[insts' queue'] started].
      destruct IH as (Hfifo & Hnames & Hlen & Hsat).
      split_and!.
      * simpl. by f_equal.
      * simpl. by f_equal.
      * simpl. lia.
      * destruct Hsat as [?|Hsat]; [by left|]. right.
        apply Forall_cons. split; [by destruct i | done].
Qed.

(** One dispatch pass.  The calls it starts are the head of the queue, in
    the order in which they were enqueued, and what stays in the queue is
    the rest; they go, one each, to the instances that were idle, in the
    order of registration (to a primary registered on the spot when the
    pool has no instance); and the pass ends with an empty queue or with
    every instance busy. *)
Theorem dispatch_is_fifo_and_saturates (server : string) (now : nat) (q : RequestQueue.t) :
  let q' := _dispatch server now q in
  let started := drop (length (executing q)) (executing q') in
  let pool := match getInstances server q with
              | [] => [ServerInstance.mk server server 0 false now]
              | insts => insts
              end in
  executing q' = executing q ++ started
  ∧ started.*1 ++ default [] (queues q' !! server) = default [] (queues q !! server)
  ∧ started.*2 = take (length started) (ServerInstance.internalName <$> idle pool)
  ∧ length started = getQueueDepth server q `min` length (idle pool)
  ∧ (getQueueDepth server q' = 0
     ∨ Forall (λ i, ServerInstance.busy i = true) (getInstances server q')).
Proof.
  cbv zeta. unfold _dispatch, getQueueDepth.
  destruct (queues q !! server) as [[|request queue]|] eqn:Hqueue.
  - rewrite Hqueue, drop_all, app_nil_r. simpl. split_and!; [done..| by left].
  - set (q1 := match instances q !! server with
               | Some (_ :: _) => q
               | _ => registerInstance (ServerInstance.mk server server 0 false now) q
               end).
    assert (Hpool : default [] (instances q1 !! server)
                    = match getInstances server q with
                      | [] => [ServerInstance.mk server server 0 false now]
                      | insts => insts
                      end).
    { unfold q1, getInstances, registerInstance.
      destruct (instances q !! server) as [[|i arr]|] eqn:Hinst; simpl;
        by rewrite ?Hinst, ?lookup_insert_eq. }
    assert (Hexec : executing q1 = executing q).
    { unfold q1. by repeat case_match. }
    pose proof (dispatch_loop_fifo (default [] (instances q1 !! server))
                  (request :: queue)) as Hloop.
    cbv zeta. fold q1.
    destruct (dispatch_loop (default [] (instances q1 !! server)) (request :: queue))
      as [[insts' queue'] started].
    destruct Hloop as (Hfifo & Hnames & Hlen & Hsat).
    rewrite <-Hpool. cbn [executing queues instances].
    rewrite Hexec, drop_app_length, !lookup_insert_eq.
    cbn [default]. split_and!; [done..|].
    unfold getInstances. cbn [instances]. rewrite lookup_insert_eq. cbn [default].
    destruct Hsat as [->|Hsat]; [by left | by right].
  - rewrite Hqueue, drop_all, app_nil_r. simpl. split_and!; [done..| by left].
Qed.

End queue_dispatch.

(** ** The idle check, the end of a session and [stopAll] *)

Section idle_check.
Import JsString ProcessManager.

Lemma foldl_keeps_in {A B} (P : A → Prop) (f : A → B → A) (l : list B) (a : A) :
  (∀ a b, b ∈ l → P a → P (f a b)) → P a → P (foldl f a l).
Proof.
  revert a. induction l as [|b l IH]; intros a Hf Ha; simpl; [done|].
  apply IH; [intros a' b' Hb'; apply Hf; by right|]. apply Hf; [by left | done].
Qed.

Lemma instancesByBase_loop_entries (values : list ManagedServer.t) (seen : gset string)
    (q : RequestQueue.t) (base : string) (insts : list ServerInstance.t) :
  (base, insts) ∈ instancesByBase_loop values seen q →
  insts = RequestQueue.getInstances base q.
Proof.
  revert seen. induction values as [|server values IH]; intros seen; simpl.
  - by intros Hin%elem_of_nil.
  - case_bool_decide; [by apply IH|].
    destruct (RequestQueue.getInstances (base_of (ManagedServer.name server)) q)
      as [|i insts'] eqn:Hinsts; [by apply IH|].
    intros [Heq|Hin]%elem_of_cons; [|by apply (IH _ Hin)].
    injection Heq as -> ->. by rewrite Hinsts.
Qed.

(** The servers that the idle check takes out of the live index: every
    one of them was registered with the queue, when the check began, as
    an instance that has an index other than 0, is not busy, has no [@] in
    its name and was last active [IDLE_KILL_MS] or more ago.  All other
    names keep their entry. *)
Theorem idle_check_stops_only_idle_scaled_instances (IDLE_KILL_MS now : nat)
    (pm : ProcessManager.t) (name : string) :
  JsMap.get name (servers (_checkIdleInstances IDLE_KILL_MS now pm))
  = JsMap.get name (servers pm)
  ∨ (JsMap.get name (servers (_checkIdleInstances IDLE_KILL_MS now pm)) = None
     ∧ ∃ base instance,
         instance ∈ RequestQueue.getInstances base (requestQueue pm)
         ∧ ServerInstance.internalName instance = name
         ∧ ServerInstance.index instance ≠ 0
         ∧ ServerInstance.busy instance = false
         ∧ includes "@" name = false
         ∧ (Z.of_nat IDLE_KILL_MS
            ≤ Z.of_nat now - Z.of_nat (ServerInstance.lastActiveAt instance))%Z).
Proof.
  unfold _checkIdleInstances.
  set (P := λ acc : ProcessManager.t,
         JsMap.get name (servers acc) = JsMap.get name (servers pm)
         ∨ (JsMap.get name (servers acc) = None
            ∧ ∃ base instance,
                instance ∈ RequestQueue.getInstances base (requestQueue pm)
                ∧ ServerInstance.internalName instance = name
                ∧ ServerInstance.index instance ≠ 0
                ∧ ServerInstance.busy instance = false
                ∧ includes "@" name = false
                ∧ (Z.of_nat IDLE_KILL_MS
                   ≤ Z.of_nat now - Z.of_nat (ServerInstance.lastActiveAt instance))%Z)).
  apply (foldl_keeps_in P); [|by left].
  intros acc [base insts] Hentry Hacc. simpl.
  apply instancesByBase_loop_entries in Hentry as ->.
  apply (foldl_keeps_in P); [|done].
  clear acc Hacc. intros acc instance Hin Hacc.
  unfold reap. destruct (idle_victim IDLE_KILL_MS now instance) eqn:Hvictim; [|done].
  unfold P. rewrite stopServer_servers, get_delete. simpl.
  destruct (decide (ServerInstance.internalName instance = name)) as [Hname|Hname]; [|done].
  right. split; [done|]. exists base, instance.
  unfold idle_victim, RequestQueue.younger_than in Hvictim.
  repeat case_match; try done. repeat case_bool_decide; try done.
  split_and!; [done | done | done | done | by rewrite <-Hname | lia].
Qed.

Lemma delete_all_keys {V} (l : list (string * V)) (names : list string) :
  foldl (λ acc name, JsMap.delete name acc) l names
  = filter (λ kv, kv.1 ∉ names) l.
Proof.
  revert l. induction names as [|name names IH]; intros l; simpl.
  - induction l as [|kv l IHl]; [done|].
    rewrite filter_cons_True by apply not_elem_of_nil. by f_equal.
  - rewrite IH. unfold JsMap.delete. rewrite list_filter_filter.
    apply list_filter_iff. intros kv. rewrite not_elem_of_cons. tauto.
Qed.

Lemma filter_none {V} (l : list (string * V)) (names : list string) :
  (∀ kv, kv ∈ l → kv.1 ∈ names) → filter (λ kv, kv.1 ∉ names) l = [].
Proof.
  induction l as [|kv l IH]; intros Hall; [done|].
  rewrite filter_cons_False; [|intros Hkv; apply Hkv, Hall; by left].
  apply IH. intros kv' Hin. apply Hall. by right.
Qed.

Lemma stopServer_fold_servers (names : list string) (pm : ProcessManager.t) :
  servers (foldl (λ acc name, stopServer name acc) pm names)
  = foldl (λ acc name, JsMap.delete name acc) (servers pm) names.
Proof.
  revert pm. induction names as [|name names IH]; intros pm; simpl; [done|].
  by rewrite IH, stopServer_servers.
Qed.

(** After [stopAll] no server is live and no reconnect timer is set, and
    every server that had a row in table [servers] still has one: the
    servers come back at the next start. *)
Theorem stopAll_leaves_nothing_live (pm : ProcessManager.t) :
  servers (stopAll pm) = []
  ∧ reconnectTimers (stopAll pm) = ∅
  ∧ ∀ k, is_Some (Db.stored_server k (db pm)) →
         is_Some (Db.stored_server k (db (stopAll pm))).
Proof.
  unfold stopAll. split_and!.
  - rewrite stopServer_fold_servers, delete_all_keys. simpl.
    apply filter_none. intros kv Hin. apply list_elem_of_fmap. by exists kv.
  - apply (foldl_keeps (λ p, reconnectTimers p = ∅)); [|done].
    intros p name Hp. by rewrite stopServer_reconnectTimers, Hp, delete_empty.
  - intros k Hk.
    apply (foldl_keeps (λ p, is_Some (Db.stored_server k (db p)))); [|done].
    intros p name Hp. by apply stopServer_stored_server.
Qed.

End idle_check.

(** ** Session instances *)

Section session_instances.
Import JsString ProcessManager.

Lemma stopServer_session (name : string) (pm : ProcessManager.t) :
  sessionInstances (stopServer name pm) = sessionInstances pm
  ∧ sessionTempDirs (stopServer name pm) = sessionTempDirs pm.
Proof.
  unfold stopServer. simpl.
  destruct (JsMap.get name (servers pm)); [|done]. by case_match.
Qed.

Lemma _doSpawn_session (config : ServerConfig.t) (out : SpawnOutcome)
    (pm : ProcessManager.t) :
  sessionInstances (_doSpawn config out pm).1 = sessionInstances pm
  ∧ sessionTempDirs (_doSpawn config out pm).1 = sessionTempDirs pm.
Proof.
  unfold _doSpawn. cbv zeta.
  set (pm1 := if JsMap.has _ _ then _ else _).
  assert (Hpm1 : sessionInstances pm1 = sessionInstances pm
                 ∧ sessionTempDirs pm1 = sessionTempDirs pm).
  { unfold pm1. case_match; [apply stopServer_session | done]. }
  clearbody pm1. repeat case_match; simpl; done.
Qed.

Lemma session_name_differs (serverName shortSession : string) :
  serverName +:+ "@" +:+ shortSession ≠ serverName.
Proof.
  intros Heq. apply (f_equal len) in Heq.
  rewrite !len_app in Heq. change (len "@") with 1 in Heq. lia.
Qed.

(** A session keeps its instance.  Once a call of a session to a
    stateful server has been answered by the session's own instance,
    a later call to that server by this session, or by any session whose
    identifier has the same first eight characters, goes to that same
    instance, and no server is started or stopped for it. *)
Theorem session_instance_is_reused (serverName toolName args sessionId tempDir : string)
    (out : SpawnOutcome) (now : nat) (pm pm1 : ProcessManager.t)
    (internalName : string) (gate : CallGate) :
  callToolQueued serverName toolName args (Some sessionId) tempDir out now pm
  = (pm1, DirectCall internalName gate) →
  ∀ toolName' args' sessionId' tempDir' out' now',
    truthy sessionId' = true →
    slice0 8 sessionId' = slice0 8 sessionId →
    ∃ pm2,
      callToolQueued serverName toolName' args' (Some sessionId') tempDir' out' now' pm1
      = (pm2, DirectCall internalName (callTool_gate internalName pm1))
      ∧ servers pm2 = servers pm1
      ∧ internalName = serverName +:+ "@" +:+ slice0 8 sessionId.
Proof.
  intros Hfirst toolName' args' sessionId' tempDir' out' now' Htruthy Hshort.
  remember (slice0 8 sessionId) as short eqn:Hs.
  assert (Hpm1 : internalName = serverName +:+ "@" +:+ short
                 ∧ JsMap.has internalName (servers pm1) = true
                 ∧ JsMap.get serverName (servers pm1) = JsMap.get serverName (servers pm)
                 ∧ ∃ primary, JsMap.get serverName (servers pm) = Some primary
                     ∧ ServerConfig.stateful (ManagedServer.config primary) = Some true).
  { revert Hfirst. unfold callToolQueued. cbv zeta.
    destruct (JsMap.get serverName (servers pm)) as [primary|] eqn:Hprimary;
      [|by rewrite andb_false_r].
    destruct (truthy sessionId); simpl; [|done].
    case_bool_decide as Hstateful; [|done].
    unfold _callStatefulInstance, spawnServer. cbv zeta. rewrite <-Hs. simpl.
    destruct (JsMap.has (serverName +:+ "@" +:+ short) (servers pm))
      eqn:Hlive; simpl.
    - rewrite andb_false_r. intros [= <- <- _].
      split_and!; [done..|]. by exists primary.
    - rewrite andb_true_r, orb_true_r, Hprimary.
      destruct (session_config _ _ _) as [sessionConfig usedTempDir] eqn:Hconfig.
      assert (Hname : ServerConfig.name sessionConfig
                      = serverName +:+ "@" +:+ short).
      { revert Hconfig. unfold session_config.
        repeat case_match; by intros [= <- _]. }
      match goal with
      | |- context [_doSpawn sessionConfig out ?p] =>
          pose proof (_doSpawn_get sessionConfig out p) as Hget;
          destruct (_doSpawn sessionConfig out p) as [pm2 managed]
      end.
      simpl in Hget. case_bool_decide; simpl; [|done].
      intros [= <- <- _]. simpl. split_and!; [done | | |by exists primary].
      + apply bool_decide_eq_true. rewrite Hget, Hname. by rewrite decide_True.
      + rewrite Hget, Hname.
        rewrite decide_False by apply session_name_differs.
        by destruct usedTempDir. }
  destruct Hpm1 as (-> & Hlive & Hsame & primary & Hprimary & Hstateful).
  unfold callToolQueued. cbv zeta. rewrite Hsame, Hprimary, Htruthy. simpl.
  rewrite bool_decide_eq_true_2 by done.
  unfold _callStatefulInstance. cbv zeta. rewrite Hshort. simpl.
  rewrite Hlive. simpl.
  rewrite andb_false_r. by eexists.
Qed.

Lemma _doSpawn_status (config : ServerConfig.t) (out : SpawnOutcome)
    (pm : ProcessManager.t) :
  ManagedServer.status (_doSpawn config out pm).2 = connected
  ∨ ManagedServer.status (_doSpawn config out pm).2 = error.
Proof.
  unfold _doSpawn. cbv zeta.
  repeat case_match; simpl; auto.
Qed.

(** What a call of a session to a stateful server leaves when the
    session instance fails to start; [short] is the name of the
    instance. *)
Lemma session_spawn_failed (serverName toolName args sessionId tempDir : string)
    (out : SpawnOutcome) (now : nat) (pm pm1 : ProcessManager.t)
    (internalName : string) (errorMessage : option string) :
  callToolQueued serverName toolName args (Some sessionId) tempDir out now pm
  = (pm1, SessionSpawnFailed internalName errorMessage) →
  internalName = serverName +:+ "@" +:+ slice0 8 sessionId
  ∧ truthy sessionId = true
  ∧ (∃ failed, JsMap.get internalName (servers pm1) = Some failed
               ∧ ManagedServer.status failed = error)
  ∧ sessionInstances pm1 !! sessionId
    = Some (default [] (sessionInstances pm !! sessionId))
  ∧ ∃ primary,
      JsMap.get serverName (servers pm) = Some primary
      ∧ JsMap.get serverName (servers pm1) = Some primary
      ∧ ServerConfig.stateful (ManagedServer.config primary) = Some true
      ∧ sessionTempDirs pm1 !! sessionId
        = if (session_config (ManagedServer.config primary) internalName tempDir).2
          then Some (default [] (sessionTempDirs pm !! sessionId) ++ [tempDir])
          else sessionTempDirs pm !! sessionId.
Proof.
  remember (slice0 8 sessionId) as short eqn:Hs.
  unfold callToolQueued. cbv zeta.
  destruct (JsMap.get serverName (servers pm)) as [primary|] eqn:Hprimary;
    [|by rewrite andb_false_r].
  destruct (truthy sessionId); simpl; [|done].
  case_bool_decide as Hstateful; [|done].
  unfold _callStatefulInstance, spawnServer. cbv zeta. rewrite <-Hs. simpl.
  destruct (JsMap.has (serverName +:+ "@" +:+ short) (servers pm)) eqn:Hlive; simpl;
    [by rewrite andb_false_r|].
  rewrite andb_true_r, orb_true_r, Hprimary.
  destruct (session_config _ _ _) as [sessionConfig usedTempDir] eqn:Hconfig.
  assert (Hname : ServerConfig.name sessionConfig = serverName +:+ "@" +:+ short).
  { revert Hconfig. unfold session_config. repeat case_match; by intros [= <- _]. }
  match goal with
  | |- context [_doSpawn sessionConfig out ?p] =>
      pose proof (_doSpawn_get sessionConfig out p) as Hget;
      pose proof (_doSpawn_session sessionConfig out p) as [Hinstances HtempDirs];
      pose proof (_doSpawn_status sessionConfig out p) as Hstatus;
      destruct (_doSpawn sessionConfig out p) as [pm2 managed]
  end.
  simpl in Hget, Hinstances, HtempDirs, Hstatus.
  case_bool_decide as Hconnected; simpl; [done|].
  intros [= <- <- _]. split_and!; [done | done | | |].
  - exists managed. rewrite Hget, Hname, decide_True by done.
    split; [done|]. by destruct Hstatus.
  - rewrite Hinstances. destruct usedTempDir; simpl; by rewrite lookup_insert_eq.
  - exists primary. split_and!; [done | | done |].
    + rewrite Hget, Hname, decide_False by apply session_name_differs.
      by destruct usedTempDir.
    + rewrite Hconfig, HtempDirs. destruct usedTempDir; simpl; [|done].
      by rewrite lookup_insert_eq.
Qed.


(** The end of a session does not clear up after an instance that failed
    to start.  When the first call of a session to a stateful server
    fails to start the session instance, [releaseSessionInstances] for
    that session changes nothing and hands no directory to [rmSync]: the
    failed instance stays in the live index, and the directory made for a
    Puppeteer instance stays recorded. *)
Theorem failed_session_spawn_is_left_behind
    (serverName toolName args sessionId tempDir : string)
    (out : SpawnOutcome) (now : nat) (pm pm1 : ProcessManager.t)
    (internalName : string) (errorMessage : option string) :
  sessionInstances pm !! sessionId = None →
  callToolQueued serverName toolName args (Some sessionId) tempDir out now pm
  = (pm1, SessionSpawnFailed internalName errorMessage) →
  releaseSessionInstances sessionId pm1 = (pm1, [])
  ∧ JsMap.has internalName (servers pm1) = true
  ∧ ∃ primary,
      JsMap.get serverName (servers pm) = Some primary
      ∧ sessionTempDirs pm1 !! sessionId
        = if (session_config (ManagedServer.config primary) internalName tempDir).2
          then Some (default [] (sessionTempDirs pm !! sessionId) ++ [tempDir])
          else sessionTempDirs pm !! sessionId.
Proof.
  intros Hnew Hfirst.
  apply session_spawn_failed in Hfirst
    as (-> & _ & (failed & Hfailed & _) & Hinstances & primary & Hprimary & _ & _
        & HtempDirs).
  rewrite Hnew in Hinstances. simpl in Hinstances.
  split_and!.
  - unfold releaseSessionInstances. by rewrite Hinstances.
  - apply bool_decide_eq_true. by rewrite Hfailed.
  - by exists primary.
Qed.

End session_instances.

(** ** The queue: registration and the periodic checks *)

Section queue_registry.
Import RequestQueue.

Lemma replace_or_push_names (instance : ServerInstance.t) (arr : list ServerInstance.t) :
  ServerInstance.internalName <$> replace_or_push instance arr
  = if bool_decide (ServerInstance.internalName instance
                    ∈ ServerInstance.internalName <$> arr)
    then ServerInstance.internalName <$> arr
    else (ServerInstance.internalName <$> arr) ++ [ServerInstance.internalName instance].
Proof.
  induction arr as [|i arr IH]; csimpl; [done|].
  destruct (decide (ServerInstance.internalName i = ServerInstance.internalName instance))
    as [Heq|Hne]; csimpl.
  - rewrite bool_decide_eq_true_2 by (rewrite Heq; by left). by rewrite Heq.
  - rewrite IH. case_bool_decide as Hin.
    + rewrite bool_decide_eq_true_2 by by right. done.
    + rewrite bool_decide_eq_false_2; [done|].
      intros [?|?]%elem_of_cons; [by apply Hne | by apply Hin].
Qed.

Lemma replace_or_push_elem (instance : ServerInstance.t) (arr : list ServerInstance.t) :
  instance ∈ replace_or_push instance arr.
Proof.
  induction arr as [|i arr IH]; simpl; [by left|].
  case_decide; [by left | by right].
Qed.

Lemma splice_first_push (instance : ServerInstance.t) (arr : list ServerInstance.t) :
  ServerInstance.internalName instance ∉ ServerInstance.internalName <$> arr →
  splice_first (ServerInstance.internalName instance) (replace_or_push instance arr) = arr.
Proof.
  induction arr as [|i arr IH]; simpl; intros Hfresh.
  - by rewrite decide_True.
  - apply not_elem_of_cons in Hfresh as [Hne Hfresh].
    rewrite decide_False by done. simpl. rewrite decide_False by done.
    by rewrite IH.
Qed.

(** Registration keeps the names in a pool distinct: an instance
    registered under a name that the pool of its base already has
    replaces the holder of the name, in its place; a new name goes to the
    end.  The pools of other bases are not touched. *)
Theorem registerInstance_keeps_names_distinct (instance : ServerInstance.t)
    (q : RequestQueue.t) (base : string) :
  NoDup (ServerInstance.internalName <$> getInstances base q) →
  NoDup (ServerInstance.internalName <$> getInstances base (registerInstance instance q))
  ∧ instance ∈ getInstances (ServerInstance.baseName instance) (registerInstance instance q)
  ∧ (base ≠ ServerInstance.baseName instance →
     getInstances base (registerInstance instance q) = getInstances base q)
  ∧ length (getInstances (ServerInstance.baseName instance) (registerInstance instance q))
    = if bool_decide (ServerInstance.internalName instance
                      ∈ ServerInstance.internalName
                          <$> getInstances (ServerInstance.baseName instance) q)
      then length (getInstances (ServerInstance.baseName instance) q)
      else S (length (getInstances (ServerInstance.baseName instance) q)).
Proof.
  intros Hnames. unfold getInstances, registerInstance in *. simpl. split_and!.
  - destruct (decide (base = ServerInstance.baseName instance)) as [->|Hne].
    + rewrite lookup_insert_eq. simpl. rewrite replace_or_push_names.
      case_bool_decide as Hin; [done|].
      apply NoDup_app. split_and!; [done | | apply NoDup_singleton].
      intros name Hname ->%list_elem_of_singleton. by apply Hin.
    + by rewrite lookup_insert_ne.
  - rewrite lookup_insert_eq. simpl. apply replace_or_push_elem.
  - intros Hne. by rewrite lookup_insert_ne.
  - rewrite lookup_insert_eq. simpl.
    rewrite <-(length_fmap ServerInstance.internalName (replace_or_push _ _)).
    rewrite replace_or_push_names.
    case_bool_decide; rewrite ?length_app, !length_fmap; simpl; lia.
Qed.

(** Registering an instance under a new name and unregistering it again
    gives back the pools as they were. *)
Theorem register_then_unregister (instance : ServerInstance.t) (q : RequestQueue.t) :
  ServerInstance.internalName instance
    ∉ ServerInstance.internalName <$> getInstances (ServerInstance.baseName instance) q →
  ∀ base,
    getInstances base
      (unregisterInstance (ServerInstance.internalName instance)
         (ServerInstance.baseName instance) (registerInstance instance q))
    = getInstances base q.
Proof.
  intros Hfresh base. unfold getInstances, unregisterInstance, registerInstance in *.
  simpl. rewrite lookup_insert_eq. rewrite splice_first_push by done.
  case_bool_decide as Hlen; simpl.
  - destruct (decide (base = ServerInstance.baseName instance)) as [->|Hne].
    + rewrite lookup_delete_eq. simpl.
      by destruct (default [] (instances q !! ServerInstance.baseName instance)).
    + by rewrite lookup_delete_ne, lookup_insert_ne.
  - destruct (decide (base = ServerInstance.baseName instance)) as [->|Hne].
    + by rewrite lookup_insert_eq.
    + by rewrite !lookup_insert_ne.
Qed.

End queue_registry.

Section queue_tick.
Import RequestQueue.

Lemma expire_head_spec (ttl now : nat) (queue : list QueuedRequest) :
  (expire_head ttl now queue).1 ++ (expire_head ttl now queue).2 = queue
  ∧ Forall (λ r, (Z.of_nat ttl < Z.of_nat now - Z.of_nat (enqueuedAt r))%Z)
           (expire_head ttl now queue).1
  ∧ ∀ r, head (expire_head ttl now queue).2 = Some r →
         (Z.of_nat now - Z.of_nat (enqueuedAt r) ≤ Z.of_nat ttl)%Z.
Proof.
  induction queue as [|request queue IH]; simpl; [done|].
  unfold older_than. case_bool_decide as Hold.
  - destruct (expire_head ttl now queue) as [expired kept]. simpl in *.
    destruct IH as (Happ & Hexpired & Hkept).
    split_and!; [by f_equal | by apply Forall_cons | done].
  - simpl. split_and!; [done | done |]. intros r [= <-]. lia.
Qed.

(** The expiry pass on the queue of one server.  The requests it rejects
    are the head of the queue and what it keeps is the rest, in order;
    each rejected request has waited longer than [QUEUE_REQUEST_TTL_MS],
    and the first request it keeps has not; a queue that becomes empty
    is removed.  Instances and pending flags are not touched. *)
Theorem expiry_rejects_the_stale_head (QUEUE_REQUEST_TTL_MS now : nat)
    (q : RequestQueue.t) (server : string) :
  let q' := (_expireStaleRequests QUEUE_REQUEST_TTL_MS now q).1 in
  let expired :=
    default [] ((_expireStaleRequests QUEUE_REQUEST_TTL_MS now q).2 !! server) in
  let kept := default [] (queues q' !! server) in
  expired ++ kept = default [] (queues q !! server)
  ∧ Forall (λ r, (Z.of_nat QUEUE_REQUEST_TTL_MS
                  < Z.of_nat now - Z.of_nat (enqueuedAt r))%Z) expired
  ∧ (∀ r, head kept = Some r →
          (Z.of_nat now - Z.of_nat (enqueuedAt r) ≤ Z.of_nat QUEUE_REQUEST_TTL_MS)%Z)
  ∧ queues q' !! server ≠ Some []
  ∧ instances q' = instances q
  ∧ pendingScaleUps q' = pendingScaleUps q.
Proof.
  cbv zeta. unfold _expireStaleRequests. simpl.
  rewrite lookup_omap, map_lookup_filter, lookup_fmap.
  destruct (queues q !! server) as [queue|]; simpl; [|done].
  destruct (expire_head_spec QUEUE_REQUEST_TTL_MS now queue) as (Happ & Hexpired & Hkept).
  destruct (expire_head QUEUE_REQUEST_TTL_MS now queue) as [expired kept]. simpl in *.
  assert (Hrejected :
    default [] (guard (expired ≠ []) ≫= λ _, Some expired) = expired).
  { destruct expired; case_guard; done. }
  rewrite Hrejected.
  destruct kept as [|r kept]; simpl; split_and!; done.
Qed.

Lemma forallb_busy (insts : list ServerInstance.t) :
  forallb ServerInstance.busy insts = true
  ↔ Forall (λ i, ServerInstance.busy i = true) insts.
Proof.
  induction insts as [|i insts IH]; simpl; [done|].
  rewrite Forall_cons, andb_true_iff. by rewrite IH.
Qed.

Lemma wants_scale_up_spec (wait now : nat) (q : RequestQueue.t) (server : string)
    (queue : list QueuedRequest) :
  wants_scale_up wait now q server queue = true ↔
  (server ∉ pendingScaleUps q)
  ∧ (∃ oldest rest, queue = oldest :: rest
       ∧ (Z.of_nat wait ≤ Z.of_nat now - Z.of_nat (enqueuedAt oldest))%Z)
  ∧ getInstances server q ≠ []
  ∧ Forall (λ i, ServerInstance.busy i = true) (getInstances server q).
Proof.
  unfold wants_scale_up, younger_than, getInstances.
  destruct queue as [|oldest rest].
  { split; [done|]. by intros (_ & (? & ? & ? & _) & _). }
  case_bool_decide as Hpending; [split; [done | by intros [? _]]|].
  case_bool_decide as Hyoung.
  { split; [done|]. intros (_ & (? & ? & [= <- <-] & ?) & _). lia. }
  destruct (instances q !! server) as [[|i insts]|]; cbn [default].
  - split; [done | by intros (_ & _ & ? & _)].
  - rewrite forallb_busy. split.
    + intros Hbusy. split_and!; [done | exists oldest, rest; split; [done | lia] | done..].
    + by intros (_ & _ & _ & Hbusy).
  - split; [done | by intros (_ & _ & ? & _)].
Qed.

(** The scale-up check.  It signals the servers that have no pending
    flag, whose oldest waiting request has waited [SCALE_UP_WAIT_MS] or
    more, and whose instances are all busy, there being at least one; it
    sets their flag and changes nothing else.  No check signals a server
    again while its flag stays set. *)
Theorem scale_up_is_signalled_once (SCALE_UP_WAIT_MS now : nat) (q : RequestQueue.t) :
  let q' := (_checkScaleUp SCALE_UP_WAIT_MS now q).1 in
  let signalled := (_checkScaleUp SCALE_UP_WAIT_MS now q).2 in
  pendingScaleUps q' = pendingScaleUps q ∪ signalled
  ∧ queues q' = queues q
  ∧ instances q' = instances q
  ∧ (∀ server, server ∈ signalled ↔
       (server ∉ pendingScaleUps q)
       ∧ (∃ oldest rest, queues q !! server = Some (oldest :: rest)
            ∧ (Z.of_nat SCALE_UP_WAIT_MS
               ≤ Z.of_nat now - Z.of_nat (enqueuedAt oldest))%Z)
       ∧ getInstances server q ≠ []
       ∧ Forall (λ i, ServerInstance.busy i = true) (getInstances server q))
  ∧ ∀ now' q'',
      pendingScaleUps q' ⊆ pendingScaleUps q'' →
      (_checkScaleUp SCALE_UP_WAIT_MS now' q'').2 ## signalled.
Proof.
  cbv zeta.
  assert (Hsignalled : ∀ n (p : RequestQueue.t) server,
    server ∈ (_checkScaleUp SCALE_UP_WAIT_MS n p).2 ↔
    ∃ queue, queues p !! server = Some queue
             ∧ wants_scale_up SCALE_UP_WAIT_MS n p server queue = true).
  { intros n p server. unfold _checkScaleUp. simpl.
    rewrite elem_of_dom. unfold is_Some.
    setoid_rewrite map_lookup_filter_Some. simpl. naive_solver. }
  split_and!; [done..| |].
  - intros server. rewrite Hsignalled. split.
    + intros (queue & Hqueue & Hwants).
      apply wants_scale_up_spec in Hwants as (? & (oldest & rest & -> & ?) & ? & ?).
      split_and!; [done | by exists oldest, rest | done | done].
    + intros (? & (oldest & rest & Hqueue & ?) & ? & ?).
      exists (oldest :: rest). split; [done|].
      apply wants_scale_up_spec. split_and!; [done | by exists oldest, rest | done..].
  - intros now' q'' Hpending server Hagain Hfirst.
    apply Hsignalled in Hagain as (queue & _ & Hwants).
    apply wants_scale_up_spec in Hwants as [Hnot _].
    apply Hnot, Hpending. simpl. apply elem_of_union. by right.
Qed.

End queue_tick.

(** ** Reconnect timers *)

Section reconnect_backoff.
Import JsString ProcessManager.

Lemma _scheduleReconnect_timer (managed : ManagedServer.t) (timers : gmap string Timer)
    (n : string) (timer : Timer) :
  (_scheduleReconnect managed timers).2 !! n = Some timer →
  timers !! n = Some timer
  ∨ (n = ManagedServer.name managed
     ∧ ManagedServer.reconnectAttempts managed < Config.AUTO_RECONNECT_MAX_RETRIES
     ∧ delay timer
       = Config.AUTO_RECONNECT_BASE_DELAY_MS * 2 ^ ManagedServer.reconnectAttempts managed
     ∧ owner timer = ManagedServer.oid managed
     ∧ ManagedServer.reconnectAttempts (_scheduleReconnect managed timers).1
       = S (ManagedServer.reconnectAttempts managed)).
Proof.
  unfold _scheduleReconnect.
  case_decide; [by left|]. case_bool_decide as Hmax; [by left|]. simpl.
  destruct (decide (n = ManagedServer.name managed)) as [->|Hne].
  - rewrite lookup_insert_eq. intros [= <-]. right. simpl.
    split_and!; [done | lia | done..].
  - rewrite lookup_insert_ne by done. by left.
Qed.

(** The timers after a transport has closed.  A close sets at most one
    timer, under the name of the server whose transport closed; that
    server was connected or connecting and had used fewer than three
    attempts; the delay is 2000 ms doubled once per attempt used, that is
    2000, 4000 or 8000 ms.  Every other timer is one that was set
    before. *)
Theorem closed_transport_sets_bounded_timer (name : string) (pm : ProcessManager.t)
    (n : string) (timer : Timer) :
  reconnectTimers (transport_closed name pm) !! n = Some timer →
  reconnectTimers pm !! n = Some timer
  ∨ ∃ managed,
      JsMap.get name (servers pm) = Some managed
      ∧ n = ManagedServer.name managed
      ∧ is_up managed = true
      ∧ ManagedServer.reconnectAttempts managed < Config.AUTO_RECONNECT_MAX_RETRIES
      ∧ delay timer
        = Config.AUTO_RECONNECT_BASE_DELAY_MS * 2 ^ ManagedServer.reconnectAttempts managed
      ∧ Z.of_nat (delay timer) ∈ [2000; 4000; 8000]%Z.
Proof.
  unfold transport_closed.
  destruct (JsMap.get name (servers pm)) as [managed|]; [|by left].
  assert (Hcases :
    (onclose managed (reconnectTimers pm)).2 = reconnectTimers pm
    ∨ is_up managed = true
      ∧ ∃ m, ManagedServer.name m = ManagedServer.name managed
             ∧ ManagedServer.reconnectAttempts m = ManagedServer.reconnectAttempts managed
             ∧ (onclose managed (reconnectTimers pm)).2
               = (_scheduleReconnect m (reconnectTimers pm)).2).
  { unfold onclose, onclose_stdio, onclose_sse, onclose_http.
    destruct (is_up managed); repeat case_match; simpl; auto;
      right; (split; [done|]); eexists; (split_and!; [| |reflexivity]); done. }
  destruct (onclose managed (reconnectTimers pm)) as [managed' timers].
  simpl in *. intros Hn.
  destruct Hcases as [->|(Hup & m & Hname & Hattempts & ->)]; [by left|].
  apply _scheduleReconnect_timer in Hn as [?|(-> & Hlt & Hdelay & _)]; [by left|].
  right. exists managed. rewrite Hattempts in Hlt, Hdelay.
  split_and!; [done..|].
  rewrite Hdelay. unfold Config.AUTO_RECONNECT_MAX_RETRIES in Hlt.
  destruct (ManagedServer.reconnectAttempts managed) as [|[|[|a]]]; [| | |lia];
    apply (bool_decide_unpack _); by vm_compute.
Qed.

End reconnect_backoff.

(** ** Removing, stopping and starting a server through the tools *)

Section server_handlers.
Import JsString ProcessManager.

Lemma savePids_loop_initialised (entries : list (string * ManagedServer.t)) (d : Db.t) :
  is_Some d → is_Some (savePids_loop entries d).
Proof.
  revert d. induction entries as [|[n server] entries IH]; intros d Hd; simpl; [done|].
  destruct (is_derived_name n); [by apply IH|].
  destruct (pid_truthy _); [|by apply IH].
  destruct Hd as [tables ->]. simpl. by apply IH.
Qed.

Lemma saveLocalConfig_loop_initialised (values : list ManagedServer.t) (d : Db.t) :
  is_Some d → is_Some (saveLocalConfig_loop values d).
Proof.
  revert d. induction values as [|server values IH]; intros d Hd; simpl; [done|].
  destruct (is_derived_name _); [by apply IH|].
  destruct Hd as [tables ->]. simpl. by apply IH.
Qed.

Lemma stopServer_initialised (name : string) (pm : ProcessManager.t) :
  is_Some (db pm) → is_Some (db (stopServer name pm)).
Proof.
  intros Hd. unfold stopServer. simpl.
  destruct (JsMap.get name (servers pm)); [|done]. case_match; [|done]. simpl.
  by apply saveLocalConfig_loop_initialised, savePids_loop_initialised.
Qed.

(** A removed server is gone.  After [remove_managed_server] on an
    initialised store the server is not live and table [servers] has no
    row for it; the next start does not restore it, and [start_server]
    answers that it is not in the database and changes nothing. *)
Theorem removed_server_is_gone (name : string) (pm : ProcessManager.t) :
  truthy name = true →
  is_Some (db pm) →
  let pm' := (Tools.remove_managed_server name pm).1 in
  (∃ removed, (Tools.remove_managed_server name pm).2 = Tools.SuccessfullyRemoved removed)
  ∧ JsMap.has name (servers pm') = false
  ∧ Db.stored_server name (db pm') = None
  ∧ (∀ config, config ∈ Startup.restored (init (db pm')) → ServerConfig.name config ≠ name)
  ∧ ∀ out, Tools.start_server name out pm' = (pm', Tools.NotFoundInDatabase).
Proof.
  intros Hname Hdb. cbv zeta. unfold Tools.remove_managed_server. rewrite Hname. simpl.
  set (pm1 := if JsMap.has name (servers pm) then stopServer name pm else pm).
  assert (Hpm1 : is_Some (db pm1)).
  { unfold pm1. case_match; [by apply stopServer_initialised | done]. }
  assert (Hgone : JsMap.has name (servers pm1) = false).
  { unfold pm1. destruct (JsMap.has name (servers pm)) eqn:Hlive; [|done].
    apply stopServer_gone. }
  destruct Hpm1 as [tables Htables]. unfold Db.removeServer. rewrite Htables. simpl.
  split_and!; [by eexists | done | by rewrite lookup_delete_eq | |].
  - intros config Hin Heq. unfold Startup.restored, Startup.loadLocalConfig in Hin.
    simpl in Hin.
    apply list_elem_of_filter in Hin as [_ Hin].
    apply list_elem_of_filter in Hin as [_ Hin].
    apply list_elem_of_fmap in Hin as ([n row] & -> & Hin).
    apply elem_of_map_to_list in Hin. simpl in *. subst n.
    by rewrite lookup_delete_eq in Hin.
  - intros out. unfold Tools.start_server. simpl. rewrite Hgone. simpl.
    unfold Db.getServer. simpl. by rewrite lookup_delete_eq.
Qed.

(** A stopped server is started again from its stored row.  When a live
    server with a row in table [servers] is stopped with [stop_server]
    and then started with [start_server], the server that comes up is
    filed under its name with the configuration read from that row. *)
Theorem stop_then_start_uses_stored_row (name : string) (out : SpawnOutcome)
    (pm : ProcessManager.t) (row : Db.ServerRow) :
  filed_by_name (servers pm) →
  JsMap.has name (servers pm) = true →
  Db.stored_server name (db pm) = Some row →
  let pm1 := (Tools.stop_server name pm).1 in
  let pm2 := (Tools.start_server name out pm1).1 in
  (Tools.stop_server name pm).2 = Tools.StoppedConfigPreserved
  ∧ JsMap.has name (servers pm1) = false
  ∧ ∃ managed,
      JsMap.get name (servers pm2) = Some managed
      ∧ ManagedServer.config managed = Db.config_of_row name row
      ∧ (Tools.start_server name out pm1).2
        = if decide (ManagedServer.status managed = error)
          then Tools.StartFailed (ManagedServer.errorMessage managed)
          else Tools.StartedSuccessfully (ManagedServer.pid managed)
                 (length (ManagedServer.tools managed)).
Proof.
  intros Hpm Hlive Hrow. cbv zeta. unfold Tools.stop_server. rewrite Hlive. simpl.
  pose proof (stopServer_gone name pm) as Hgone.
  destruct (stopServer_same_rows_self name pm Hpm) as [Hstored _].
  rewrite Hrow in Hstored.
  split_and!; [done..|].
  unfold Tools.start_server, spawnServer. rewrite Hgone. simpl.
  unfold Db.getServer.
  destruct (db (stopServer name pm)) as [tables|] eqn:Htables; [|done].
  simpl in *. rewrite Hstored. simpl.
  pose proof (_doSpawn_get (Db.config_of_row name row) out (stopServer name pm) name) as Hget.
  destruct (_doSpawn_servers (Db.config_of_row name row) out (stopServer name pm))
    as (_ & _ & Hconfig).
  destruct (_doSpawn (Db.config_of_row name row) out (stopServer name pm))
    as [pm2 managed].
  simpl in *. rewrite decide_True in Hget by done.
  exists managed. by case_decide.
Qed.

End server_handlers.

(** ** HTTP sessions *)

Section http_sessions.
Import JsString ProcessManager HttpServer.

Lemma length_set {V} (k : string) (v : V) (m : list (string * V)) :
  length (JsMap.set k v m)
  = if JsMap.has k m then length m else S (length m).
Proof.
  unfold JsMap.has. induction m as [|[k' v'] m IH]; simpl; [done|].
  destruct (decide (k' = k)) as [->|Hne]; simpl; [done|].
  rewrite IH. by case_bool_decide.
Qed.

Lemma keys_set_present {V} (k : string) (v : V) (m : list (string * V)) :
  JsMap.has k m = true → JsMap.keys (JsMap.set k v m) = JsMap.keys m.
Proof.
  unfold JsMap.has, JsMap.keys. induction m as [|[k' v'] m IH]; simpl.
  - done.
  - destruct (decide (k' = k)) as [->|Hne]; simpl; [done|].
    intros Hhas. f_equal. by apply IH.
Qed.

Lemma length_delete {V} (k : string) (m : list (string * V)) :
  length (JsMap.delete k m) ≤ length m.
Proof. unfold JsMap.delete. apply length_filter. Qed.

Lemma cleanupSession_sessions (id : string) (st : HttpServer.t) :
  sessions (cleanupSession id st).1 = JsMap.delete id (sessions st).
Proof.
  unfold cleanupSession.
  destruct (JsMap.get id (sessions st)) eqn:Hget.
  - by destruct (releaseSessionInstances id (processManager st)).
  - simpl. by rewrite delete_absent.
Qed.

Lemma has_set {V} (id k : string) (v : V) (m : list (string * V)) :
  JsMap.has id (JsMap.set k v m) = true → JsMap.has id m = true ∨ id = k.
Proof.
  rewrite !has_get, get_set. destruct (decide (k = id)) as [->|]; [by right | by left].
Qed.

Lemma has_delete {V} (id k : string) (m : list (string * V)) :
  JsMap.has id (JsMap.delete k m) = true → JsMap.has id m = true.
Proof.
  rewrite !has_get, get_delete. destruct (decide (k = id)); [by intros [? ?] | done].
Qed.

Lemma transport_handleRequest_sessions (id : string) (handling : Handling)
    (st : HttpServer.t) :
  sessions (transport_handleRequest id handling st)
  = if closes handling then JsMap.delete id (sessions st) else sessions st.
Proof.
  unfold transport_handleRequest. destruct (closes handling); [|done].
  by rewrite cleanupSession_sessions.
Qed.

Lemma transport_handleRequest_length (id : string) (handling : Handling)
    (st : HttpServer.t) :
  length (sessions (transport_handleRequest id handling st)) ≤ length (sessions st).
Proof.
  rewrite transport_handleRequest_sessions.
  destruct (closes handling); [apply length_delete | done].
Qed.

Lemma transport_handleRequest_has (id open : string) (handling : Handling)
    (st : HttpServer.t) :
  JsMap.has open (sessions (transport_handleRequest id handling st)) = true →
  JsMap.has open (sessions st) = true.
Proof.
  rewrite transport_handleRequest_sessions.
  destruct (closes handling); [apply has_delete | done].
Qed.

(** The cap on sessions.  With at most [MAX_SESSIONS] sessions open, a
    request for [/mcp] leaves at most [MAX_SESSIONS] open, whatever the
    transport does with a request handed to it.  The sessions open
    afterwards were open before, but for the one a POST creates; a
    session is created only by a POST, and only below the cap; at the
    cap a POST that names no open session is answered with 503 and
    changes nothing; and a request that is not handed to a transport
    changes nothing. *)
Theorem session_cap_is_kept (MAX_SESSIONS : nat) (method : Method) (header : option string)
    (uuid : string) (now : nat) (handling : Handling) (st : HttpServer.t) :
  length (sessions st) ≤ MAX_SESSIONS →
  let st' := (handleRequest_mcp MAX_SESSIONS method header uuid now handling st).1 in
  let reply := (handleRequest_mcp MAX_SESSIONS method header uuid now handling st).2 in
  length (sessions st') ≤ MAX_SESSIONS
  ∧ (∀ id, JsMap.has id (sessions st') = true →
       JsMap.has id (sessions st) = true ∨ (id = uuid ∧ reply = ToNewSession uuid))
  ∧ (reply = ToNewSession uuid → method = POST ∧ length (sessions st) < MAX_SESSIONS)
  ∧ (method = POST → MAX_SESSIONS ≤ length (sessions st) →
     (∀ id, header = Some id → JsMap.has id (sessions st) = false) →
     reply = TooManySessions503 ∧ st' = st)
  ∧ match reply with
    | ToTransport _ | ToNewSession _ => True
    | _ => st' = st
    end.
Proof.
  intros Hcap. cbv zeta. unfold handleRequest_mcp.
  set (given := match header with Some id => truthy id | None => false end).
  set (id := default "" header).
  assert (Hrouted : ∀ session,
            (if given then JsMap.get id (sessions st) else None) = Some session →
            JsMap.has id (sessions st) = true ∧ header = Some id).
  { intros session Hget. subst given id.
    destruct header as [h|]; [|done]. simpl in *.
    destruct (truthy h); [|done]. split; [|done].
    apply bool_decide_eq_true. by rewrite Hget. }
  assert (Hhanded : ∀ session,
            JsMap.has id (sessions st) = true →
            let st1 := transport_handleRequest id handling
                         (HttpServer.mk (JsMap.set id session (sessions st))
                                        (processManager st)) in
            length (sessions st1) ≤ MAX_SESSIONS
            ∧ ∀ open, JsMap.has open (sessions st1) = true →
                      JsMap.has open (sessions st) = true).
  { intros session Hopen. cbv zeta. split.
    - etrans; [apply transport_handleRequest_length|]. simpl.
      by rewrite length_set, Hopen.
    - intros open Hin. apply transport_handleRequest_has, has_set in Hin as [Hin | ->];
        done. }
  assert (Hcreate :
    length (sessions st) < MAX_SESSIONS →
    let st1 := transport_handleRequest uuid handling
                 (HttpServer.mk
                    (JsMap.set uuid {| sessionId := uuid; createdAt := now;
                                       lastActiveAt := now |} (sessions st))
                    (processManager st)) in
    length (sessions st1) ≤ MAX_SESSIONS
    ∧ ∀ open, JsMap.has open (sessions st1) = true →
              JsMap.has open (sessions st) = true ∨ open = uuid).
  { intros Hlt. cbv zeta. split.
    - etrans; [apply transport_handleRequest_length|]. simpl.
      rewrite length_set. destruct (JsMap.has uuid (sessions st)); lia.
    - intros open Hin. by apply transport_handleRequest_has, has_set in Hin. }
  clearbody given id.
  destruct method; [split_and!; by auto|..];
    (destruct (if given then JsMap.get id (sessions st) else None) as [session|] eqn:Hget;
     [destruct (Hrouted session eq_refl) as [Hopen Hheader];
      destruct (Hhanded {| sessionId := sessionId session;
                           createdAt := createdAt session;
                           lastActiveAt := now |} Hopen) as [Hlen Hsub];
      cbn [fst snd];
      split_and!;
        [done | by auto | done
         | intros _ _ Hnone; specialize (Hnone id Hheader); congruence
         | done]|]).
  - cbn [fst snd]. split_and!; [done | by auto | by destruct given | done
                                | by destruct given].
  - case_bool_decide as Hfull; cbn [fst snd].
    + split_and!; [done | by auto | done | done | done].
    + destruct Hcreate as [Hlen Hsub]; [lia|].
      split_and!; [done | | intros _; split; [done | lia] | intros _ ?; lia | done].
      intros open Hin. destruct (Hsub open Hin) as [? | ->]; [by left | by right].
  - cbn [fst snd]. split_and!; [done | by auto | by destruct given | done
                                | by destruct given].
  - cbn [fst snd]. split_and!; [done | by auto | done | done | done].
Qed.

Lemma stopServer_not_live (stopped name : string) (pm : ProcessManager.t) :
  JsMap.has name (servers pm) = false →
  JsMap.has name (servers (stopServer stopped pm)) = false.
Proof.
  intros Hgone. apply has_false_get. rewrite stopServer_servers, get_delete.
  case_decide; [done|]. by apply has_false_get.
Qed.

Lemma release_loop_stops (names : list string) (pm : ProcessManager.t) (name : string) :
  name ∈ names ∨ JsMap.has name (servers pm) = false →
  JsMap.has name
    (servers (foldl (λ acc internalName,
                       if JsMap.has internalName (servers acc)
                       then stopServer internalName acc else acc) pm names)) = false.
Proof.
  revert pm. induction names as [|n names IH]; intros pm Hname; simpl.
  - destruct Hname as [Hin|?]; [by apply elem_of_nil in Hin | done].
  - apply IH. destruct Hname as [[->|Hin]%elem_of_cons|Hgone].
    + right. destruct (JsMap.has n (servers pm)) eqn:Hlive; [|done].
      apply stopServer_gone.
    + by left.
    + right. case_match; [by apply stopServer_not_live | done].
Qed.

Lemma release_loop_keeps (names : list string) (pm : ProcessManager.t) (name : string) :
  name ∉ names →
  JsMap.get name
    (servers (foldl (λ acc internalName,
                       if JsMap.has internalName (servers acc)
                       then stopServer internalName acc else acc) pm names))
  = JsMap.get name (servers pm).
Proof.
  revert pm. induction names as [|n names IH]; intros pm Hname; simpl; [done|].
  apply not_elem_of_cons in Hname as [Hne Hname].
  rewrite IH by done. case_match; [|done].
  rewrite stopServer_servers, get_delete. by rewrite decide_False.
Qed.

Lemma releaseSessionInstances_servers (sessionId : string) (pm : ProcessManager.t) :
  servers (releaseSessionInstances sessionId pm).1
  = servers (foldl (λ acc internalName,
                      if JsMap.has internalName (servers acc)
                      then stopServer internalName acc else acc)
                   pm (JsMap.values (default [] (sessionInstances pm !! sessionId)))).
Proof.
  unfold releaseSessionInstances.
  destruct (sessionInstances pm !! sessionId) as [[|entry sessionMap]|]; [done| |done].
  cbn [default]. by case_match.
Qed.

(** The end of a session.  [cleanupSession] for an open session closes
    it and leaves every other session as it is; afterwards no instance
    named in the session's map of instances is live, and every other
    server is in the live map as before. *)
Theorem closed_session_releases_its_instances (id : string) (st : HttpServer.t) :
  JsMap.has id (sessions st) = true →
  let st' := (cleanupSession id st).1 in
  let owned := JsMap.values (default [] (sessionInstances (processManager st) !! id)) in
  JsMap.has id (sessions st') = false
  ∧ (∀ other, other ≠ id → JsMap.get other (sessions st') = JsMap.get other (sessions st))
  ∧ (∀ name, name ∈ owned → JsMap.has name (servers (processManager st')) = false)
  ∧ (∀ name, name ∉ owned →
       JsMap.get name (servers (processManager st'))
       = JsMap.get name (servers (processManager st))).
Proof.
  intros Hopen. cbv zeta.
  assert (Hpm : processManager (cleanupSession id st).1
                = (releaseSessionInstances id (processManager st)).1).
  { unfold cleanupSession. apply has_get in Hopen as [session ->].
    by destruct (releaseSessionInstances id (processManager st)). }
  rewrite Hpm, cleanupSession_sessions, releaseSessionInstances_servers.
  split_and!.
  - apply has_false_get. rewrite get_delete. by rewrite decide_True.
  - intros other Hother. rewrite get_delete. by rewrite decide_False.
  - intros name Hname. apply release_loop_stops. by left.
  - intros name Hname. by apply release_loop_keeps.
Qed.

Lemma filter_all {A} (P : A → Prop) `{!∀ x, Decision (P x)} (l : list A) :
  (∀ x, x ∈ l → P x) → filter P l = l.
Proof.
  induction l as [|x l IH]; intros Hall; [done|].
  rewrite filter_cons_True by (apply Hall; by left).
  f_equal. apply IH. intros y Hy. apply Hall. by right.
Qed.

Lemma filter_ext_in {A} (P Q : A → Prop) `{!∀ x, Decision (P x)} `{!∀ x, Decision (Q x)}
    (l : list A) :
  (∀ x, x ∈ l → P x ↔ Q x) → filter P l = filter Q l.
Proof.
  induction l as [|x l IH]; intros Hall; [done|].
  rewrite !filter_cons.
  rewrite IH by (intros y Hy; apply Hall; by right).
  pose proof (Hall x (list_elem_of_here _ _)) as Hx.
  destruct (decide (P x)) as [HP|HP], (decide (Q x)) as [HQ|HQ]; tauto.
Qed.

Lemma cleanup_fold_sessions (now : nat) (entries : list (string * BridgeSession))
    (st : HttpServer.t) :
  sessions
    (foldl (λ acc entry,
              if bool_decide (SESSION_IDLE_TIMEOUT_MS
                              < Z.of_nat now - Z.of_nat (lastActiveAt entry.2))%Z
              then (cleanupSession entry.1 acc).1 else acc) st entries)
  = filter (λ kv, kv.1 ∉ JsMap.keys
                          (filter (λ entry, (SESSION_IDLE_TIMEOUT_MS
                                             < Z.of_nat now
                                               - Z.of_nat (lastActiveAt entry.2))%Z)
                                  entries))
           (sessions st).
Proof.
  revert st. induction entries as [|entry entries IH]; intros st; simpl.
  - symmetry. apply filter_all. intros kv _. apply not_elem_of_nil.
  - rewrite IH, filter_cons. case_bool_decide as Hidle.
    + rewrite decide_True by done. rewrite cleanupSession_sessions.
      unfold JsMap.delete. rewrite list_filter_filter. apply list_filter_iff.
      intros kv. unfold JsMap.keys. rewrite fmap_cons, not_elem_of_cons. tauto.
    + by rewrite decide_False by done.
Qed.

(** The session cleanup timer.  With every session filed once, a tick
    closes exactly the sessions that were last active more than
    [SESSION_IDLE_TIMEOUT_MS] (30 minutes) ago: the sessions open
    afterwards are the others, in order and unchanged. *)
Theorem cleanup_tick_closes_the_idle_sessions (now : nat) (st : HttpServer.t) :
  NoDup (JsMap.keys (sessions st)) →
  sessions (cleanup_tick now st)
  = filter (λ kv, (Z.of_nat now - Z.of_nat (lastActiveAt kv.2) ≤ 30 * 60 * 1000)%Z)
           (sessions st).
Proof.
  intros Hkeys. unfold cleanup_tick. rewrite cleanup_fold_sessions.
  apply filter_ext_in. intros [k session] Hin. simpl.
  change SESSION_IDLE_TIMEOUT_MS with (30 * 60 * 1000)%Z. split.
  - intros Hnot. apply Z.le_ngt. intros Hidle. apply Hnot.
    apply list_elem_of_fmap. exists (k, session). split; [done|].
    by apply list_elem_of_filter.
  - intros Hfresh Hidle.
    apply list_elem_of_fmap in Hidle as ([k' session'] & Hk & Hidle). simpl in Hk. subst k'.
    apply list_elem_of_filter in Hidle as [Hold Hin']. simpl in Hold.
    assert (session' = session); [|subst; lia].
    clear Hold Hfresh. revert Hkeys Hin Hin'. generalize (sessions st) as l.
    induction l as [|[k0 s0] l IH]; simpl; [by intros _ ?%elem_of_nil|].
    intros [Hk0 Hl]%NoDup_cons [Heq|Hin]%elem_of_cons [Heq'|Hin']%elem_of_cons.
    + congruence.
    + exfalso. apply Hk0. injection Heq as -> ->.
      apply list_elem_of_fmap. by exists (k0, session').
    + exfalso. apply Hk0. injection Heq' as -> ->.
      apply list_elem_of_fmap. by exists (k0, session).
    + by apply IH.
Qed.

End http_sessions.

(** ** The merged search results *)

Section search_merge.
Import JsString RegistrySearch.

Lemma compare_ranks (a b : TaggedServer) : (compare a b ≤ 0)%Z ↔ ranks_before a b.
Proof.
  unfold compare, ranks_before.
  destruct (hasInstallInfo a), (hasInstallInfo b);
    repeat case_bool_decide; try done; intuition (congruence || lia).
Qed.

Lemma ranks_before_trans (a b c : TaggedServer) :
  ranks_before a b → ranks_before b c → ranks_before a c.
Proof.
  unfold ranks_before.
  destruct (hasInstallInfo a), (hasInstallInfo b), (hasInstallInfo c);
    intuition (congruence || lia).
Qed.

Lemma ranks_before_total (a b : TaggedServer) : ranks_before a b ∨ ranks_before b a.
Proof.
  unfold ranks_before.
  destruct (hasInstallInfo a), (hasInstallInfo b);
    destruct (decide (default 0 (_popularity b) ≤ default 0 (_popularity a)));
    intuition (congruence || lia).
Qed.

Lemma insert_perm (x : TaggedServer) (l : list TaggedServer) : insert x l ≡ₚ x :: l.
Proof.
  induction l as [|y l IH]; simpl; [done|].
  case_bool_decide; [done|]. rewrite IH. apply Permutation_swap.
Qed.

Lemma sort_perm (l : list TaggedServer) : sort l ≡ₚ l.
Proof.
  induction l as [|x l IH]; simpl; [done|].
  unfold sort in *. simpl. by rewrite insert_perm, IH.
Qed.

Lemma insert_sorted (x : TaggedServer) (l : list TaggedServer) :
  StronglySorted ranks_before l → StronglySorted ranks_before (insert x l).
Proof.
  induction l as [|y l IH]; simpl; intros Hsorted.
  - by repeat constructor.
  - apply StronglySorted_inv in Hsorted as [Hl Hy].
    case_bool_decide as Hcmp.
    + apply compare_ranks in Hcmp. constructor; [by constructor|].
      constructor; [done|].
      eapply Forall_impl; [exact Hy|]. intros z. by apply ranks_before_trans.
    + constructor; [by apply IH|].
      rewrite insert_perm. constructor; [|done].
      destruct (ranks_before_total x y) as [Hxy|]; [|done].
      by apply compare_ranks in Hxy.
Qed.

Lemma sort_sorted (l : list TaggedServer) : StronglySorted ranks_before (sort l).
Proof.
  induction l as [|x l IH]; [constructor|]. by apply insert_sorted.
Qed.

Lemma deduped_set (seen : list TaggedServer) (byKey : list (string * TaggedServer))
    (entry : TaggedServer) :
  deduped seen byKey →
  (∀ v, JsMap.get (key_of entry) byKey = Some v →
        hasInstallInfo v = true → hasInstallInfo entry = true) →
  deduped (seen ++ [entry]) (JsMap.set (key_of entry) entry byKey).
Proof.
  intros (Hkeys & Hfiled & Hseen) Hbetter. split_and!.
  - by apply keys_set_NoDup.
  - intros k v Hin. apply elem_of_set in Hin as [[-> ->]|Hin].
    + split; [done|]. apply elem_of_app. right. by left.
    + destruct (Hfiled k v Hin). split; [done|]. apply elem_of_app. by left.
  - intros e [He|He%list_elem_of_singleton]%elem_of_app.
    + destruct (Hseen e He) as (v & Hget & Hinstall).
      rewrite get_set. case_decide as Hkey; [|by exists v].
      exists entry. split; [done|]. intros Hinst. apply (Hbetter v); [by rewrite Hkey|].
      by apply Hinstall.
    + subst e. exists entry. by rewrite get_set, decide_True.
Qed.

Lemma dedupe_step_deduped (seen : list TaggedServer)
    (byKey : list (string * TaggedServer)) (entry : TaggedServer) :
  deduped seen byKey → deduped (seen ++ [entry]) (dedupe_step byKey entry).
Proof.
  intros Hded. unfold dedupe_step.
  destruct (JsMap.get (key_of entry) byKey) as [existing|] eqn:Hget.
  - destruct (hasInstallInfo existing) eqn:Hexisting; simpl.
    + destruct Hded as (Hkeys & Hfiled & Hseen). split_and!; [done | |].
      * intros k v Hin. destruct (Hfiled k v Hin). split; [done|].
        apply elem_of_app. by left.
      * intros e [He|He%list_elem_of_singleton]%elem_of_app; [by apply Hseen|].
        subst e. by exists existing.
    + destruct (hasInstallInfo entry) eqn:Hentry; simpl.
      * apply deduped_set; [done|]. by intros v _ _.
      * destruct Hded as (Hkeys & Hfiled & Hseen). split_and!; [done | |].
        -- intros k v Hin. destruct (Hfiled k v Hin). split; [done|].
           apply elem_of_app. by left.
        -- intros e [He|He%list_elem_of_singleton]%elem_of_app; [by apply Hseen|].
           subst e. exists existing. split; [done|]. by rewrite Hentry.
  - apply deduped_set; [done|]. intros v Hv. congruence.
Qed.

Lemma dedupe_loop_deduped (all seen : list TaggedServer)
    (byKey : list (string * TaggedServer)) :
  deduped seen byKey → deduped (seen ++ all) (foldl dedupe_step byKey all).
Proof.
  revert seen byKey. induction all as [|entry all IH]; intros seen byKey Hded; simpl.
  - by rewrite app_nil_r.
  - replace (seen ++ entry :: all) with ((seen ++ [entry]) ++ all)
      by (by rewrite <-(assoc_L (++))).
    by apply IH, dedupe_step_deduped.
Qed.

Lemma dedupe_all (all : list TaggedServer) : deduped all (foldl dedupe_step [] all).
Proof.
  apply (dedupe_loop_deduped all [] []).
  split_and!; [apply NoDup_nil_2 | by intros k v Hin%elem_of_nil
              | by intros e Hin%elem_of_nil].
Qed.

Lemma values_keys (byKey : list (string * TaggedServer)) :
  (∀ k v, (k, v) ∈ byKey → key_of v = k) →
  key_of <$> JsMap.values byKey = JsMap.keys byKey.
Proof.
  unfold JsMap.values, JsMap.keys.
  induction byKey as [|[k v] byKey IH]; intros Hfiled; csimpl; [done|].
  rewrite (Hfiled k v) by by left. f_equal. apply IH.
  intros k' v' Hin. apply Hfiled. by right.
Qed.

(** The merged search result has at most [limit] entries, each of them
    an entry of one of the three sources; no two of them have the same
    normalised name; and they are ordered: entries with install
    information first, and among entries that agree on that, the more
    popular first. *)
Theorem search_results_distinct_sorted_bounded
    (official fromNpm fromSmithery : list TaggedServer) (limit : nat) :
  let result := searchRegistry official fromNpm fromSmithery limit in
  length result ≤ limit
  ∧ (∀ r, r ∈ result → r ∈ official ++ fromNpm ++ fromSmithery)
  ∧ NoDup (key_of <$> result)
  ∧ StronglySorted ranks_before result.
Proof.
  cbv zeta. unfold searchRegistry.
  set (all := official ++ fromNpm ++ fromSmithery).
  destruct (dedupe_all all) as (Hkeys & Hfiled & _).
  set (byKey := foldl dedupe_step [] all) in *.
  assert (Hsorted : sort (JsMap.values byKey) ≡ₚ JsMap.values byKey) by apply sort_perm.
  split_and!.
  - rewrite length_take. lia.
  - intros r Hr.
    pose proof (elem_of_sublist _ _ _ Hr (sublist_take _ _)) as Hin.
    rewrite Hsorted in Hin.
    apply list_elem_of_fmap in Hin as ([k v] & -> & Hin). by apply (Hfiled k v).
  - rewrite fmap_take. eapply sublist_NoDup; [|apply sublist_take].
    rewrite Hsorted, values_keys; [done|]. intros k v Hin. by apply (Hfiled k v).
  - apply (StronglySorted_app_1_l _ _ (drop limit (sort (JsMap.values byKey)))).
    rewrite take_drop. apply sort_sorted.
Qed.

(** When [limit] does not cut the result, every name found by a source
    is in it, and under a name for which some source gave install
    information the result has an entry with install information. *)
Theorem search_results_prefer_install_info
    (official fromNpm fromSmithery : list TaggedServer) (limit : nat) :
  length (official ++ fromNpm ++ fromSmithery) ≤ limit →
  ∀ e, e ∈ official ++ fromNpm ++ fromSmithery →
    ∃ r, r ∈ searchRegistry official fromNpm fromSmithery limit
         ∧ key_of r = key_of e
         ∧ (hasInstallInfo e = true → hasInstallInfo r = true).
Proof.
  intros Hlimit e He. unfold searchRegistry.
  set (all := official ++ fromNpm ++ fromSmithery) in *.
  destruct (dedupe_all all) as (Hkeys & Hfiled & Hseen).
  set (byKey := foldl dedupe_step [] all) in *.
  destruct (Hseen e He) as (v & Hget & Hinstall).
  apply get_Some_elem in Hget.
  exists v. split_and!; [|by apply (Hfiled _ _ Hget) | done].
  assert (Hlen : length (sort (JsMap.values byKey)) ≤ limit).
  { rewrite sort_perm. etrans; [|exact Hlimit].
    rewrite <-(length_fmap key_of (JsMap.values byKey)), <-(length_fmap key_of all).
    apply submseteq_length, NoDup_submseteq.
    - rewrite values_keys; [done|]. intros k v' Hin. by apply (Hfiled k v').
    - intros k Hk. apply list_elem_of_fmap in Hk as (v' & -> & Hv').
      apply list_elem_of_fmap in Hv' as ([k' v''] & -> & Hin). simpl.
      apply list_elem_of_fmap. exists v''. split; [done|]. by apply (Hfiled k' v''). }
  rewrite take_ge by done. rewrite sort_perm.
  apply list_elem_of_fmap. by exists (key_of e, v).
Qed.

End search_merge.

(** ** Normalised names *)

Section normalised_names.
Import JsString RegistrySearch.

Lemma no_slash_cons (c : ascii) (s : string) :
  includes "/" (String c s) = false ↔ c ≠ "/"%char ∧ includes "/" s = false.
Proof.
  change (includes "/" (String c s))
    with ((if Ascii.eqb "/" c then true else false) || includes "/" s).
  destruct (Ascii.eqb_spec "/" c) as [<-|Hne]; simpl.
  - split; [done | by intros [? _]].
  - split; [by intros ?; split; [intros ->|] | by intros [_ ?]].
Qed.

Lemma no_slash_indexOf (s : string) : includes "/" s = false → indexOf "/" s = None.
Proof.
  intros Hs. destruct (indexOf "/" s) as [i|] eqn:Hi; [|done].
  assert (includes "/" s = true) by (apply includes_indexOf; eauto). congruence.
Qed.

Lemma indexOf_segment (s n : string) :
  includes "/" s = false → indexOf "/" (s +:+ "/" +:+ n) = Some (len s).
Proof.
  induction s as [|c s IH]; [done|].
  intros [Hc Hs]%no_slash_cons.
  change (indexOf "/" (String c s +:+ "/" +:+ n))
    with (if (if Ascii.eqb "/" c then true else false) then Some 0
          else S <$> indexOf "/" (s +:+ "/" +:+ n)).
  destruct (Ascii.eqb_spec "/" c) as [<-|_]; [done|].
  by rewrite IH.
Qed.

Lemma slice_from_segment (s n : string) :
  slice_from (S (len s)) (s +:+ "/" +:+ n) = n.
Proof. induction s as [|c s IH]; [done|]. exact IH. Qed.

Lemma no_slash_slice_from (k : nat) (s : string) :
  includes "/" s = false → includes "/" (slice_from k s) = false.
Proof.
  revert s. induction k as [|k IH]; intros [|c s]; try done.
  intros [_ Hs]%no_slash_cons. by apply IH.
Qed.

(** A name with no slash in it loses nothing to the three prefix
    rules. *)
Lemma no_slash_no_prefix (n : string) :
  includes "/" n = false →
  drop_npm_scope n = n ∧ drop_registry_prefix n = n ∧ drop_first_segment n = n.
Proof.
  intros Hn. split_and!.
  - unfold drop_npm_scope. destruct n as [|c n]; [done|].
    apply no_slash_cons in Hn as [_ Hn]. rewrite (no_slash_indexOf n Hn).
    by repeat case_match.
  - unfold drop_registry_prefix. case_match; [|done].
    by rewrite (no_slash_indexOf _ (no_slash_slice_from 10 n Hn)).
  - unfold drop_first_segment. by rewrite (no_slash_indexOf n Hn).
Qed.

Lemma drop_segment (s n : string) :
  s ≠ "" → includes "/" s = false →
  match indexOf "/" (s +:+ "/" +:+ n) with
  | Some (S k) => slice_from (S (S k)) (s +:+ "/" +:+ n)
  | _ => s +:+ "/" +:+ n
  end = n.
Proof.
  intros Hne Hs. rewrite indexOf_segment by done.
  destruct s as [|c s]; [done|]. cbn [len String.length].
  apply (slice_from_segment (String c s)).
Qed.

Lemma startsWith_segment (p s n : string) :
  includes "/" p = false →
  startsWith p (s +:+ "/" +:+ n) = true → ∃ s', s = p +:+ s'.
Proof.
  revert s. induction p as [|a p IH]; intros s Hp Hstarts; [by exists s|].
  apply no_slash_cons in Hp as [Ha Hp].
  destruct s as [|b s]; simpl in Hstarts.
  - destruct (Ascii.eqb_spec a "/"); [done | done].
  - destruct (Ascii.eqb_spec a b) as [->|]; [|done].
    destruct (IH s Hp Hstarts) as [s' ->]. by exists s'.
Qed.

(** The rules on a lower-case name [s/n] whose first segment [s] is not
    empty: what is left is [n]. *)
Lemma drop_prefixes_segment (s n : string) :
  s ≠ "" → includes "/" s = false → includes "/" n = false →
  drop_first_segment (drop_registry_prefix (drop_npm_scope (s +:+ "/" +:+ n))) = n.
Proof.
  intros Hne Hs Hn.
  destruct (no_slash_no_prefix n Hn) as (_ & Hregistry & Hfirst).
  assert (Hscope : drop_npm_scope (s +:+ "/" +:+ n) = n
                   ∨ drop_npm_scope (s +:+ "/" +:+ n) = s +:+ "/" +:+ n).
  { unfold drop_npm_scope. destruct s as [|c s]; [done|].
    change (String c s +:+ "/" +:+ n) with (String c (s +:+ "/" +:+ n)).
    apply no_slash_cons in Hs as [_ Hs].
    repeat case_match; auto. left.
    destruct s as [|c' s]; [by simplify_eq/=|].
    pose proof (drop_segment (String c' s) n) as Hd.
    match goal with H : indexOf _ _ = _ |- _ => rewrite H in Hd end. by apply Hd. }
  destruct Hscope as [-> | ->]; [by rewrite Hregistry, Hfirst|].
  assert (Hprefix : drop_registry_prefix (s +:+ "/" +:+ n) = n
                    ∨ drop_registry_prefix (s +:+ "/" +:+ n) = s +:+ "/" +:+ n).
  { unfold drop_registry_prefix.
    destruct (startsWith "io.github." (s +:+ "/" +:+ n)) eqn:Hstarts; [|by right].
    apply startsWith_segment in Hstarts as [s' ->]; [|done].
    change (slice_from 10 (("io.github." +:+ s') +:+ "/" +:+ n)) with (s' +:+ "/" +:+ n).
    assert (Hs' : includes "/" s' = false)
      by apply (no_slash_slice_from 10 ("io.github." +:+ s') Hs).
    destruct s' as [|c' s']; [by right|]. left.
    rewrite indexOf_segment by done. cbn [len String.length].
    apply (slice_from_segment (String c' s')). }
  destruct Hprefix as [-> | ->]; [done|].
  unfold drop_first_segment. by apply drop_segment.
Qed.

Lemma toLowerCase_app (a b : string) :
  ProcessManager.toLowerCase (a +:+ b)
  = ProcessManager.toLowerCase a +:+ ProcessManager.toLowerCase b.
Proof. induction a as [|c a IH]; simpl; [done | by rewrite IH]. Qed.

Lemma lower_char_slash (c : ascii) :
  c ≠ "/"%char → ProcessManager.lower_char c ≠ "/"%char.
Proof. destruct c as [[] [] [] [] [] [] [] []]; by vm_compute. Qed.

Lemma no_slash_toLowerCase (s : string) :
  includes "/" s = false → includes "/" (ProcessManager.toLowerCase s) = false.
Proof.
  induction s as [|c s IH]; [done|].
  intros [Hc Hs]%no_slash_cons.
  change (ProcessManager.toLowerCase (String c s))
    with (String (ProcessManager.lower_char c) (ProcessManager.toLowerCase s)).
  apply no_slash_cons. split; [by apply lower_char_slash | by apply IH].
Qed.

(** Names that differ in their first segment only have the same key.
    For a name with no slash in it, putting a first segment in front of
    it (an npm scope [@scope/], a registry prefix [io.github.user/], a
    Smithery namespace [user/]) does not change the normalised name, so
    the merge takes the two for the same server. *)
Theorem first_segment_does_not_change_the_key (segment name : string) :
  segment ≠ "" →
  includes "/" segment = false →
  includes "/" name = false →
  normalizeServerName (segment +:+ "/" +:+ name) = normalizeServerName name.
Proof.
  intros Hne Hsegment Hname. unfold normalizeServerName.
  rewrite !toLowerCase_app. change (ProcessManager.toLowerCase "/") with "/".
  rewrite drop_prefixes_segment.
  - destruct (no_slash_no_prefix _ (no_slash_toLowerCase name Hname)) as (-> & -> & ->).
    done.
  - by destruct segment.
  - by apply no_slash_toLowerCase.
  - by apply no_slash_toLowerCase.
Qed.

End normalised_names.

(** ** User profiles, and calls to a server that is not there *)

Section user_profiles.
Import JsString ProcessManager Tools.

(** The life of a user profile.  Created under a name that is neither
    the name of a built-in profile nor the name of a member of
    [Object.prototype], with at least one server and on an open store,
    the profile is found by [activate_profile] and [deactivate_profile]
    as a custom profile with the servers given, and [list_profiles]
    lists it; [delete_profile] then removes it, after which it is not
    found, a second [delete_profile] says so, and the other stored
    profiles are what they were before the profile was created. *)
Theorem user_profile_round_trip (profilesConfig : ProfilesConfig)
    (params : CreateProfileParams) (tables : Db.Tables) :
  cp_servers params ≠ [] →
  JsMap.get (cp_name params) profilesConfig = None →
  cp_name params ∉ JsObject.prototype_names →
  let created := (create_profile params (Some tables)).1 in
  let deleted := (delete_profile profilesConfig (cp_name params) created).1 in
  lookup_profile profilesConfig (cp_name params) created
  = ProfileFound custom (Db.row_profile_servers (bundle_of params))
  ∧ (cp_name params, custom, cp_description params,
     Db.row_profile_servers (bundle_of params)) ∈ list_profiles profilesConfig created
  ∧ (delete_profile profilesConfig (cp_name params) created).2 = ProfileDeleted
  ∧ lookup_profile profilesConfig (cp_name params) deleted = ProfileNotFound
  ∧ (delete_profile profilesConfig (cp_name params) deleted).2 = ProfileNotInDatabase
  ∧ ∀ other, other ≠ cp_name params →
      Db.stored_profile other deleted = Db.stored_profile other (Some tables).
Proof.
  intros Hservers Hcustom Hplain. cbv zeta. unfold create_profile.
  rewrite bool_decide_eq_false_2
    by (destruct (cp_servers params); [done | simpl; lia]).
  assert (Hmissing : JsObject.get (cp_name params) profilesConfig = JsObject.Missing)
    by (unfold JsObject.get; by rewrite Hcustom, bool_decide_eq_false_2).
  simpl. unfold delete_profile, lookup_profile. rewrite !Hmissing. simpl.
  rewrite lookup_insert_eq. simpl.
  rewrite !lookup_delete_eq. simpl.
  split_and!; [done | | done | done | done |].
  - unfold list_profiles. apply elem_of_app. right. simpl.
    apply list_elem_of_fmap. exists (cp_name params, bundle_of params).
    split; [done|]. apply list_elem_of_filter. split.
    + simpl. rewrite elem_of_list_to_set. intros Hin.
      apply key_get_Some in Hin. rewrite Hcustom in Hin. by destruct Hin.
    + apply elem_of_map_to_list. by rewrite lookup_insert_eq.
  - intros other Hother. by rewrite lookup_delete_ne, lookup_insert_ne.
Qed.

(** A user profile under a name that objects inherit.  [constructor],
    [toString] and the other names of [Object.prototype] pass the
    schema of a profile name.  Created under such a name that no
    built-in profile has, with at least one server and on an open
    store, the profile is stored and [list_profiles] lists it as a
    custom profile, but [activate_profile] and [deactivate_profile]
    answer with an error, and [delete_profile] refuses the name as that
    of a built-in profile and leaves the profile in the store. *)
Theorem inherited_name_profile_is_stuck (profilesConfig : ProfilesConfig)
    (params : CreateProfileParams) (tables : Db.Tables) :
  cp_servers params ≠ [] →
  JsMap.get (cp_name params) profilesConfig = None →
  cp_name params ∈ JsObject.prototype_names →
  let result := create_profile params (Some tables) in
  name_matches (cp_name params) = true
  ∧ result.2 = ProfileCreated (cp_name params) (length (cp_servers params))
  ∧ Db.stored_profile (cp_name params) result.1 = Some (bundle_of params)
  ∧ (cp_name params, custom, cp_description params,
     Db.row_profile_servers (bundle_of params)) ∈ list_profiles profilesConfig result.1
  ∧ lookup_profile profilesConfig (cp_name params) result.1 = ServersUndefined
  ∧ delete_profile profilesConfig (cp_name params) result.1
    = (result.1, CannotDeleteBuiltin).
Proof.
  intros Hservers Hcustom Hproto. cbv zeta. unfold create_profile.
  rewrite bool_decide_eq_false_2
    by (destruct (cp_servers params); [done | simpl; lia]).
  assert (Hinherited : JsObject.get (cp_name params) profilesConfig
                       = JsObject.Inherited)
    by (unfold JsObject.get; by rewrite Hcustom, bool_decide_eq_true_2).
  simpl. unfold delete_profile, lookup_profile. rewrite !Hinherited.
  split_and!; [ | done | by rewrite lookup_insert_eq | | done | done].
  - unfold JsObject.prototype_names in Hproto.
    repeat (apply elem_of_cons in Hproto as [-> | Hproto]; [by vm_compute|]).
    by apply elem_of_nil in Hproto.
  - unfold list_profiles. apply elem_of_app. right. simpl.
    apply list_elem_of_fmap. exists (cp_name params, bundle_of params).
    split; [done|]. apply list_elem_of_filter. split.
    + simpl. rewrite elem_of_list_to_set. intros Hin.
      apply key_get_Some in Hin. rewrite Hcustom in Hin. by destruct Hin.
    + apply elem_of_map_to_list. by rewrite lookup_insert_eq.
Qed.

(** A call to a server that is not there.  When [callToolQueued] is
    called for a name that is not in the live map, has no registered
    instance and no waiting request, the call is not left waiting: the
    queue registers a primary instance under that name on the spot and
    hands it the call, which [callTool] answers with [not found]; no
    server is started, and the instance stays registered. *)
Theorem call_to_unknown_server_is_answered_at_once
    (serverName toolName args : string) (sessionId : option string) (tempDir : string)
    (out : SpawnOutcome) (now : nat) (pm : ProcessManager.t) :
  JsMap.get serverName (servers pm) = None →
  RequestQueue.getInstances serverName (requestQueue pm) = [] →
  RequestQueue.getQueueDepth serverName (requestQueue pm) = 0 →
  let pm' := (callToolQueued serverName toolName args sessionId tempDir out now pm).1 in
  (callToolQueued serverName toolName args sessionId tempDir out now pm).2 = Enqueued
  ∧ servers pm' = servers pm
  ∧ RequestQueue.executing (requestQueue pm')
    = RequestQueue.executing (requestQueue pm)
      ++ [({| RequestQueue.serverName := serverName; RequestQueue.toolName := toolName;
              RequestQueue.args := args; RequestQueue.enqueuedAt := now |}, serverName)]
  ∧ callTool_gate serverName pm' = ServerNotFound
  ∧ RequestQueue.getQueueDepth serverName (requestQueue pm') = 0
  ∧ RequestQueue.getInstances serverName (requestQueue pm')
    = [ServerInstance.mk serverName serverName 0 true now].
Proof.
  intros Hgone Hinstances Hdepth. cbv zeta.
  unfold callToolQueued. cbv zeta. rewrite Hgone, andb_false_r.
  assert (Hhas : JsMap.has serverName (servers pm) = false) by by apply has_false_get.
  rewrite Hhas, andb_false_r. cbn [fst snd].
  unfold callTool_gate. cbn [servers set_requestQueue]. rewrite Hgone.
  unfold RequestQueue.getInstances, RequestQueue.getQueueDepth in *.
  assert (Hqueue : default [] (RequestQueue.queues (requestQueue pm) !! serverName) = []).
  { by apply nil_length_inv. }
  unfold RequestQueue.enqueue, RequestQueue._dispatch. cbn [RequestQueue.queues].
  rewrite lookup_insert_eq, Hqueue. cbn [app RequestQueue.instances].
  destruct (RequestQueue.instances (requestQueue pm) !! serverName) as [[|i insts]|]
    eqn:Hinst; [|done|];
    unfold RequestQueue.registerInstance; simpl; rewrite Hinst; simpl;
    rewrite !lookup_insert_eq; simpl; by rewrite ?lookup_insert_eq.
Qed.

End user_profiles.

(** ** Updating a server *)

Section update.
Import JsString ProcessManager.

Lemma elem_get {V} (l : list (string * V)) (k : string) (v : V) :
  NoDup (JsMap.keys l) → (k, v) ∈ l → JsMap.get k l = Some v.
Proof.
  unfold JsMap.keys. induction l as [|[k0 v0] l IH]; simpl.
  - by intros _ ?%elem_of_nil.
  - intros [Hk0 Hl]%NoDup_cons [[= -> ->]|Hin]%elem_of_cons.
    + by rewrite decide_True.
    + rewrite decide_False; [by apply IH|]. intros ->. apply Hk0.
      apply list_elem_of_fmap. by exists (k, v).
Qed.

(** The sweep leaves the row of [name] as it is when every live server
    that it would file under [name] has that row. *)
Lemma saveLocalConfig_loop_row (values : list ManagedServer.t) (d : Db.t)
    (name : string) (row : Db.ServerRow) :
  (∀ m, m ∈ values → ServerConfig.name (ManagedServer.config m) = name →
        Db.row_of (ManagedServer.config m) = row) →
  Db.stored_server name d = Some row →
  Db.stored_server name (saveLocalConfig_loop values d) = Some row.
Proof.
  revert d. induction values as [|server values IH]; intros d Hall Hd; simpl; [done|].
  assert (Hrest : ∀ m, m ∈ values →
            ServerConfig.name (ManagedServer.config m) = name →
            Db.row_of (ManagedServer.config m) = row)
    by (intros m Hm; apply Hall; by right).
  destruct (is_derived_name _); [by apply IH|].
  destruct d as [tables|]; [|done]. simpl. apply IH; [done|]. simpl.
  destruct (decide (ServerConfig.name (ManagedServer.config server) = name)) as [Heq|Hne].
  - rewrite Heq, lookup_insert_eq. f_equal. apply Hall; [by left | done].
  - by rewrite lookup_insert_ne.
Qed.

Lemma _doSpawn_db (config : ServerConfig.t) (out : SpawnOutcome) (pm : ProcessManager.t) :
  let pm1 := if JsMap.has (ServerConfig.name config) (servers pm)
             then stopServer (ServerConfig.name config) pm else pm in
  let pm' := (_doSpawn config out pm).1 in
  db pm' = db pm1
  ∨ db pm' = saveLocalConfig_loop (JsMap.values (servers pm'))
               (savePids_loop (servers pm') (db pm1)).
Proof.
  cbv zeta. unfold _doSpawn. cbv zeta.
  set (pm1 := if JsMap.has _ _ then _ else _).
  repeat case_match; simpl; auto.
Qed.

(** A spawn does not change the row of its own server when that row is
    the row of the configuration spawned. *)
Lemma _doSpawn_own_row (config : ServerConfig.t) (out : SpawnOutcome)
    (pm : ProcessManager.t) :
  filed_by_name (servers pm) →
  JsMap.has (ServerConfig.name config) (servers pm) = false →
  Db.stored_server (ServerConfig.name config) (db pm) = Some (Db.row_of config) →
  Db.stored_server (ServerConfig.name config) (db (_doSpawn config out pm).1)
  = Some (Db.row_of config).
Proof.
  intros Hpm Hgone Hrow.
  pose proof (filed_by_name__doSpawn config out pm Hpm) as [Hkeys Hfiled].
  pose proof (_doSpawn_get config out pm (ServerConfig.name config)) as Hget.
  rewrite decide_True in Hget by done.
  destruct (_doSpawn_servers config out pm) as (_ & _ & Hconfig).
  pose proof (_doSpawn_db config out pm) as Hdb. cbv zeta in Hdb. rewrite Hgone in Hdb.
  destruct Hdb as [-> | ->]; [done|].
  apply saveLocalConfig_loop_row; [|by rewrite savePids_loop_stored_server].
  intros m Hm Hname. unfold JsMap.values in Hm.
  apply list_elem_of_fmap in Hm as ([k m'] & -> & Hin). simpl in *.
  destruct (Hfiled k m' Hin) as [_ Hk]. rewrite Hname in Hk. subst k.
  apply (elem_get _ _ _ Hkeys) in Hin. rewrite Hget in Hin.
  injection Hin as <-. by rewrite Hconfig.
Qed.

(** [update_server] on a live server.  On a live map filed by name and
    an open store, the handler merges the fields given into the
    configuration of the live server, and afterwards the row of the
    server in table [servers] is the row of the merged configuration and
    the server in the live map has the merged configuration, whether
    the restart connects or fails. *)
Theorem update_server_persists_and_restarts (params : Tools.UpdateServerParams)
    (out : SpawnOutcome) (pm : ProcessManager.t) (existing : ManagedServer.t) :
  filed_by_name (servers pm) →
  is_Some (db pm) →
  JsMap.get (Tools.u_name params) (servers pm) = Some existing →
  let config := Tools.merge_update params (ManagedServer.config existing) in
  let pm' := (Tools.update_server params out pm).1 in
  Db.stored_server (Tools.u_name params) (db pm') = Some (Db.row_of config)
  ∧ ∃ managed,
      JsMap.get (Tools.u_name params) (servers pm') = Some managed
      ∧ ManagedServer.config managed = config
      ∧ (Tools.update_server params out pm).2
        = if decide (ManagedServer.status managed = error)
          then Tools.UpdatedButFailedToRestart (ManagedServer.errorMessage managed)
          else Tools.UpdatedAndRestarted (ManagedServer.pid managed)
                 (length (ManagedServer.tools managed)).
Proof.
  intros Hpm [tables Htables] Hexisting. cbv zeta.
  pose proof (get_Some_elem _ _ _ Hexisting) as Hin.
  destruct Hpm as [Hkeys Hfiled]. destruct (Hfiled _ _ Hin) as [_ Hname].
  set (config := Tools.merge_update params (ManagedServer.config existing)).
  assert (Hconfig_name : ServerConfig.name config = Tools.u_name params) by done.
  unfold Tools.update_server. rewrite Hexisting. fold config.
  unfold Db.upsertServer. rewrite Htables. simpl.
  assert (Hlive : JsMap.has (Tools.u_name params) (servers pm) = true)
    by (apply bool_decide_eq_true; by rewrite Hexisting).
  rewrite Hlive. unfold spawnServer.
  set (pm1 := set_db _ pm).
  assert (Hpm1 : filed_by_name (servers pm1)) by done.
  assert (Hrow1 : Db.stored_server (Tools.u_name params) (db pm1) = Some (Db.row_of config)).
  { simpl. by rewrite Hname, lookup_insert_eq. }
  pose proof (stopServer_same_rows_self (Tools.u_name params) pm1 Hpm1) as [Hrow2 _].
  rewrite Hrow1 in Hrow2.
  pose proof (filed_by_name_stopServer (Tools.u_name params) pm1 Hpm1) as Hpm2.
  assert (Hgone : JsMap.has (ServerConfig.name config)
                    (servers (stopServer (Tools.u_name params) pm1)) = false)
    by (rewrite Hconfig_name; apply stopServer_gone).
  assert (Hrow2' : Db.stored_server (ServerConfig.name config)
                     (db (stopServer (Tools.u_name params) pm1)) = Some (Db.row_of config))
    by (by rewrite Hconfig_name).
  pose proof (_doSpawn_own_row config out _ Hpm2 Hgone Hrow2') as Hrow3.
  pose proof (_doSpawn_get config out (stopServer (Tools.u_name params) pm1)
                (Tools.u_name params)) as Hget.
  rewrite decide_True in Hget by done.
  destruct (_doSpawn_servers config out (stopServer (Tools.u_name params) pm1))
    as (_ & _ & Hconfig).
  destruct (_doSpawn config out (stopServer (Tools.u_name params) pm1)) as [pm2 managed].
  simpl in *. rewrite Hconfig_name in Hrow3.
  destruct (decide (ManagedServer.status managed = error)) as [Herror|Herror]; simpl;
    (split; [done|]); exists managed; (split_and!; [done | done |]).
  - by rewrite decide_True.
  - by rewrite decide_False.
Qed.

End update.

(** ** The properties above on concrete runs *)

Section concrete_runs.
Import JsString ProcessManager.

Lemma after_beta_filed_by_name : filed_by_name (servers (Scenario.after_beta).1).
Proof. apply filed_by_name_Forall, (bool_decide_unpack _). by vm_compute. Qed.

Lemma beta_scaled_filed_by_name : filed_by_name (servers Scenario.beta_scaled).
Proof. apply filed_by_name_Forall, (bool_decide_unpack _). by vm_compute. Qed.

(** The configuration of [beta], with the three optional fields that the
    store fills in given, is read back as it was written. *)
Lemma upsertServer_getServer_exact_witness :
  ∃ db1,
    Db.upsertServer
      (ServerConfig.mk "beta" STDIO (Some "uvx") (Some ["mcp-server-fetch"]) (Some [])
                       None None None (Some false)) (Some Db.empty) = Ok db1
    ∧ Db.getServer "beta" db1
      = Ok (Some (ServerConfig.mk "beta" STDIO (Some "uvx") (Some ["mcp-server-fetch"])
                                  (Some []) None None None (Some false)))
    ∧ ∀ other, other ≠ "beta" → Db.getServer other db1 = Db.getServer other (Some Db.empty).
Proof.
  apply (upsertServer_getServer_exact
           (ServerConfig.mk "beta" STDIO (Some "uvx") (Some ["mcp-server-fetch"]) (Some [])
                            None None None (Some false)) Db.empty);
    simpl; first [discriminate | by eexists].
Defined.

(** [beta] is stopped while [beta#1] runs, and a worker [gamma] is
    started while [beta#1] runs: the sweeps that save the pids and the
    configurations pass over [beta#1], and what the store holds under
    that name is as it was. *)
Lemma derived_rows_untouched_witness :
  JsMap.has "beta#1" (servers Scenario.beta_scaled) = true
  ∧ Db.same_rows "beta#1" (db Scenario.beta_scaled)
                 (db (stopServer "beta" Scenario.beta_scaled))
  ∧ Db.same_rows "beta#1" (db Scenario.beta_scaled)
                 (db (spawnServer
                        (ServerConfig.with_name "gamma"
                           (Tools.config_of Scenario.beta_params))
                        (Scenario.connects (Some 4250)) Scenario.beta_scaled).1).
Proof.
  assert (Hlive : JsMap.has "beta#1" (servers Scenario.beta_scaled) = true)
    by (by vm_compute).
  destruct (derived_rows_untouched "beta#1" Scenario.beta_scaled eq_refl
              beta_scaled_filed_by_name) as (Hstop & Hspawn & _).
  exact (conj Hlive (conj (Hstop "beta")
                          (Hspawn (ServerConfig.with_name "gamma"
                                     (Tools.config_of Scenario.beta_params))
                                  (Scenario.connects (Some 4250))))).
Defined.

(** Stopping [beta] keeps its rows. *)
Lemma stopServer_keeps_rows_witness :
  Db.same_rows "beta" (db (Scenario.after_beta).1)
               (db (stopServer "beta" (Scenario.after_beta).1)).
Proof.
  exact (proj1 (stopServer_keeps_rows "beta" (Scenario.after_beta).1
                  after_beta_filed_by_name)).
Defined.

(** Stopping [beta#1] leaves no instance of [beta] registered. *)
Lemma stop_scaled_instance_drains_pool_witness :
  JsMap.has "beta#1" (servers Scenario.beta_scaled) = true
  ∧ RequestQueue.getInstances "beta"
      (requestQueue (stopServer "beta#1" Scenario.beta_scaled)) = [].
Proof.
  assert (Hlive : JsMap.has ("beta" +:+ "#" +:+ "1") (servers Scenario.beta_scaled) = true)
    by (by vm_compute).
  split; [exact Hlive|].
  exact (proj1 (stop_scaled_instance_drains_pool "beta" "1" Scenario.beta_scaled
                  eq_refl Hlive)).
Defined.

(** A second call of the session of [notes], and a call of another
    session with the same first eight characters, go to [notes@a1b2c3d4]. *)
Lemma session_instance_is_reused_witness :
  ∃ pm2,
    callToolQueued "notes" "write" "{}" (Some "a1b2c3d4-0000") "/tmp/mcp-a1b2c3d4-q"
                   (Scenario.fails "unused") 11 (Scenario.notes_in_session).1
    = (pm2, DirectCall "notes@a1b2c3d4"
              (callTool_gate "notes@a1b2c3d4" (Scenario.notes_in_session).1))
    ∧ servers pm2 = servers (Scenario.notes_in_session).1
    ∧ "notes@a1b2c3d4"
      = "notes" +:+ "@" +:+ slice0 8 "a1b2c3d4-5e6f-4a7b-8c9d-0123456789ab".
Proof.
  assert (Hfirst :
    callToolQueued "notes" "read" "{}" (Some "a1b2c3d4-5e6f-4a7b-8c9d-0123456789ab")
                   "/tmp/mcp-a1b2c3d4-x" (Scenario.connects None) 10
                   (Tools.add_managed_server Scenario.notes_params (Scenario.connects None)
                      (init (Some Db.empty))).1
    = ((Scenario.notes_in_session).1, DirectCall "notes@a1b2c3d4" Forwarded))
    by (by vm_compute).
  exact (session_instance_is_reused _ _ _ _ _ _ _ _ _ _ _ Hfirst
           "write" "{}" "a1b2c3d4-0000" "/tmp/mcp-a1b2c3d4-q" (Scenario.fails "unused") 11
           eq_refl eq_refl).
Defined.


(** Releasing that session changes nothing. *)
Lemma failed_session_spawn_is_left_behind_witness :
  releaseSessionInstances "a1b2c3d4-5e6f-4a7b-8c9d-0123456789ab"
    (Scenario.browser_session_failed).1
  = ((Scenario.browser_session_failed).1, [])
  ∧ JsMap.has "browser@a1b2c3d4" (servers (Scenario.browser_session_failed).1) = true.
Proof.
  assert (Hnew : sessionInstances Scenario.browser_declared
                   !! "a1b2c3d4-5e6f-4a7b-8c9d-0123456789ab" = None)
    by (by vm_compute).
  assert (Hfirst :
    callToolQueued "browser" "navigate" "{}"
                   (Some "a1b2c3d4-5e6f-4a7b-8c9d-0123456789ab")
                   "/tmp/mcp-a1b2c3d4-Zk3" (Scenario.fails "Connection closed") 10
                   Scenario.browser_declared
    = ((Scenario.browser_session_failed).1,
       SessionSpawnFailed "browser@a1b2c3d4" (Some "Connection closed")))
    by (by vm_compute).
  destruct (failed_session_spawn_is_left_behind _ _ _ _ _ _ _ _ _ _ _ Hnew Hfirst)
    as (Hrelease & Hlive & _).
  exact (conj Hrelease Hlive).
Defined.

(** Registering [beta#1] beside the primary of [beta]. *)
Lemma registerInstance_keeps_names_distinct_witness :
  NoDup (ServerInstance.internalName
           <$> RequestQueue.getInstances "beta"
                 (RequestQueue.registerInstance (ServerInstance.mk "beta#1" "beta" 1 false 20)
                    (requestQueue Scenario.beta_busy))).
Proof.
  assert (Hnames : NoDup (ServerInstance.internalName
                            <$> RequestQueue.getInstances "beta"
                                  (requestQueue Scenario.beta_busy))).
  { apply (bool_decide_unpack _). by vm_compute. }
  exact (proj1 (registerInstance_keeps_names_distinct
                  (ServerInstance.mk "beta#1" "beta" 1 false 20)
                  (requestQueue Scenario.beta_busy) "beta" Hnames)).
Defined.

Lemma register_then_unregister_witness :
  RequestQueue.getInstances "beta"
    (RequestQueue.unregisterInstance "beta#1" "beta"
       (RequestQueue.registerInstance (ServerInstance.mk "beta#1" "beta" 1 false 20)
          (requestQueue Scenario.beta_busy)))
  = RequestQueue.getInstances "beta" (requestQueue Scenario.beta_busy).
Proof.
  assert (Hfresh : "beta#1" ∉ ServerInstance.internalName
                      <$> RequestQueue.getInstances "beta"
                            (requestQueue Scenario.beta_busy)).
  { apply (bool_decide_unpack _). by vm_compute. }
  exact (register_then_unregister (ServerInstance.mk "beta#1" "beta" 1 false 20)
           (requestQueue Scenario.beta_busy) Hfresh "beta").
Defined.

(** The transport of [beta] closes for the first time: the timer is set
    for 2000 ms. *)
Lemma closed_transport_sets_bounded_timer_witness :
  reconnectTimers (Scenario.after_beta).1 !! "beta" = Some {| delay := 2000; owner := 1 |}
  ∨ ∃ managed,
      JsMap.get "beta" (servers (Scenario.after_beta).1) = Some managed
      ∧ "beta" = ManagedServer.name managed
      ∧ is_up managed = true
      ∧ ManagedServer.reconnectAttempts managed < Config.AUTO_RECONNECT_MAX_RETRIES
      ∧ delay {| delay := 2000; owner := 1 |}
        = Config.AUTO_RECONNECT_BASE_DELAY_MS * 2 ^ ManagedServer.reconnectAttempts managed
      ∧ Z.of_nat (delay {| delay := 2000; owner := 1 |}) ∈ [2000; 4000; 8000]%Z.
Proof.
  assert (Htimer : reconnectTimers (transport_closed "beta" (Scenario.after_beta).1) !! "beta"
                   = Some {| delay := 2000; owner := 1 |})
    by (by vm_compute).
  exact (closed_transport_sets_bounded_timer "beta" (Scenario.after_beta).1 "beta"
           {| delay := 2000; owner := 1 |} Htimer).
Defined.

(** [beta] is removed. *)
Lemma removed_server_is_gone_witness :
  JsMap.has "beta" (servers (Tools.remove_managed_server "beta" (Scenario.after_beta).1).1)
  = false
  ∧ Db.stored_server "beta" (db (Tools.remove_managed_server "beta" (Scenario.after_beta).1).1)
    = None.
Proof.
  assert (Hdb : is_Some (db (Scenario.after_beta).1)).
  { apply (bool_decide_unpack _). by vm_compute. }
  destruct (removed_server_is_gone "beta" (Scenario.after_beta).1 eq_refl Hdb)
    as (_ & Hgone & Hrow & _).
  exact (conj Hgone Hrow).
Defined.

(** [beta] is stopped and started again. *)
Lemma stop_then_start_uses_stored_row_witness :
  (Tools.stop_server "beta" (Scenario.after_beta).1).2 = Tools.StoppedConfigPreserved
  ∧ JsMap.has "beta" (servers (Tools.stop_server "beta" (Scenario.after_beta).1).1) = false.
Proof.
  assert (Hlive : JsMap.has "beta" (servers (Scenario.after_beta).1) = true)
    by (by vm_compute).
  assert (Hrow : Db.stored_server "beta" (db (Scenario.after_beta).1)
                 = Some {| Db.row_type := STDIO; Db.row_command := Some "uvx";
                           Db.row_args := ["mcp-server-fetch"]; Db.row_env := [];
                           Db.row_url := None; Db.row_description := None;
                           Db.row_headers := []; Db.row_stateful := false |})
    by (by vm_compute).
  destruct (stop_then_start_uses_stored_row "beta" (Scenario.connects (Some 4300))
              (Scenario.after_beta).1 _ after_beta_filed_by_name Hlive Hrow)
    as (Hreply & Hgone & _).
  exact (conj Hreply Hgone).
Defined.

(** A POST without a session header while one session is open and the
    cap is 1: the request is answered with 503 and nothing changes. *)
Lemma session_cap_is_kept_witness :
  HttpServer.handleRequest_mcp 1 HttpServer.POST None
    "0f1e2d3c-4b5a-4978-8695-a4b3c2d1e0f9" 100
    {| HttpServer.runs := λ pm, pm; HttpServer.closes := false |} Scenario.http_open
  = (Scenario.http_open, HttpServer.TooManySessions503).
Proof.
  assert (Hcap : length (HttpServer.sessions Scenario.http_open) ≤ 1).
  { apply (bool_decide_unpack _). by vm_compute. }
  assert (Hfull : 1 ≤ length (HttpServer.sessions Scenario.http_open)).
  { apply (bool_decide_unpack _). by vm_compute. }
  assert (Hnone : ∀ id : string,
            None = Some id →
            JsMap.has id (HttpServer.sessions Scenario.http_open) = false)
    by (intros id Hid; discriminate Hid).
  destruct (session_cap_is_kept 1 HttpServer.POST None
              "0f1e2d3c-4b5a-4978-8695-a4b3c2d1e0f9" 100
              {| HttpServer.runs := λ pm, pm; HttpServer.closes := false |}
              Scenario.http_open Hcap) as (_ & _ & _ & Hrefused & _).
  destruct (Hrefused eq_refl Hfull Hnone) as [Hreply Hstate].
  apply injective_projections; [exact Hstate | exact Hreply].
Defined.

(** The session of [notes_in_session] ends. *)
Lemma closed_session_releases_its_instances_witness :
  JsMap.has "a1b2c3d4-5e6f-4a7b-8c9d-0123456789ab"
    (HttpServer.sessions
       (HttpServer.cleanupSession "a1b2c3d4-5e6f-4a7b-8c9d-0123456789ab"
          Scenario.http_open).1) = false.
Proof.
  assert (Hopen : JsMap.has "a1b2c3d4-5e6f-4a7b-8c9d-0123456789ab"
                    (HttpServer.sessions Scenario.http_open) = true)
    by (by vm_compute).
  exact (proj1 (closed_session_releases_its_instances
                  "a1b2c3d4-5e6f-4a7b-8c9d-0123456789ab" Scenario.http_open Hopen)).
Defined.

(** The tick half an hour and eleven milliseconds after the start
    closes the session that was last active at 10 and keeps the one
    opened at 1800000. *)
Lemma cleanup_tick_closes_the_idle_sessions_witness :
  HttpServer.sessions (HttpServer.cleanup_tick (Z.to_nat 1800011) Scenario.http_two_open)
  = [("0f1e2d3c-4b5a-4978-8695-a4b3c2d1e0f9",
      {| HttpServer.sessionId := "0f1e2d3c-4b5a-4978-8695-a4b3c2d1e0f9";
         HttpServer.createdAt := Z.to_nat 1800000;
         HttpServer.lastActiveAt := Z.to_nat 1800000 |})].
Proof.
  assert (Hkeys : NoDup (JsMap.keys (HttpServer.sessions Scenario.http_two_open))).
  { change (NoDup ["a1b2c3d4-5e6f-4a7b-8c9d-0123456789ab";
                   "0f1e2d3c-4b5a-4978-8695-a4b3c2d1e0f9"]).
    apply NoDup_cons. split; [|apply NoDup_singleton].
    rewrite list_elem_of_singleton. discriminate. }
  rewrite (cleanup_tick_closes_the_idle_sessions (Z.to_nat 1800011)
             Scenario.http_two_open Hkeys).
  change (HttpServer.sessions Scenario.http_two_open)
    with [("a1b2c3d4-5e6f-4a7b-8c9d-0123456789ab",
           {| HttpServer.sessionId := "a1b2c3d4-5e6f-4a7b-8c9d-0123456789ab";
              HttpServer.createdAt := 5; HttpServer.lastActiveAt := 10 |});
          ("0f1e2d3c-4b5a-4978-8695-a4b3c2d1e0f9",
           {| HttpServer.sessionId := "0f1e2d3c-4b5a-4978-8695-a4b3c2d1e0f9";
              HttpServer.createdAt := Z.to_nat 1800000;
              HttpServer.lastActiveAt := Z.to_nat 1800000 |})].
  rewrite filter_cons, decide_False by (cbn [snd HttpServer.lastActiveAt]; lia).
  rewrite filter_cons, decide_True by (cbn [snd HttpServer.lastActiveAt]; lia).
  by rewrite filter_nil.
Defined.

(** The official registry and Smithery both find [server-github]; only
    the registry gives install information. *)
Lemma search_results_prefer_install_info_witness :
  ∃ r, r ∈ RegistrySearch.searchRegistry [Scenario.github_official] []
             [Scenario.github_smithery] 10
       ∧ RegistrySearch.key_of r = RegistrySearch.key_of Scenario.github_smithery
       ∧ (RegistrySearch.hasInstallInfo Scenario.github_smithery = true →
          RegistrySearch.hasInstallInfo r = true).
Proof.
  assert (Hlimit : length ([Scenario.github_official] ++ [] ++ [Scenario.github_smithery])
                   ≤ 10).
  { apply (bool_decide_unpack _). by vm_compute. }
  assert (Hin : Scenario.github_smithery
                ∈ [Scenario.github_official] ++ [] ++ [Scenario.github_smithery]).
  { apply elem_of_app. right. apply list_elem_of_here. }
  exact (search_results_prefer_install_info [Scenario.github_official] []
           [Scenario.github_smithery] 10 Hlimit Scenario.github_smithery Hin).
Defined.

Lemma first_segment_does_not_change_the_key_witness :
  RegistrySearch.normalizeServerName ("@modelcontextprotocol" +:+ "/" +:+ "server-github")
  = RegistrySearch.normalizeServerName "server-github".
Proof.
  assert (Hne : "@modelcontextprotocol" ≠ "") by done.
  exact (first_segment_does_not_change_the_key "@modelcontextprotocol" "server-github"
           Hne eq_refl eq_refl).
Defined.

(** The user profile [research] beside the built-in profile [web], on
    a store that holds a user profile already. *)
Lemma user_profile_round_trip_witness :
  let created := (Tools.create_profile Scenario.research_params
                    (Some Scenario.web_filed)).1 in
  let deleted := (Tools.delete_profile Scenario.builtin_profiles
                    (Tools.cp_name Scenario.research_params) created).1 in
  Tools.lookup_profile Scenario.builtin_profiles
    (Tools.cp_name Scenario.research_params) created
  = Tools.ProfileFound Tools.custom
      (Db.row_profile_servers (Tools.bundle_of Scenario.research_params))
  ∧ (Tools.cp_name Scenario.research_params, Tools.custom,
     Tools.cp_description Scenario.research_params,
     Db.row_profile_servers (Tools.bundle_of Scenario.research_params))
    ∈ Tools.list_profiles Scenario.builtin_profiles created
  ∧ (Tools.delete_profile Scenario.builtin_profiles
       (Tools.cp_name Scenario.research_params) created).2 = Tools.ProfileDeleted
  ∧ Tools.lookup_profile Scenario.builtin_profiles
      (Tools.cp_name Scenario.research_params) deleted = Tools.ProfileNotFound
  ∧ (Tools.delete_profile Scenario.builtin_profiles
       (Tools.cp_name Scenario.research_params) deleted).2
    = Tools.ProfileNotInDatabase
  ∧ Db.stored_profile "web" deleted
    = Db.stored_profile "web" (Some Scenario.web_filed)
  ∧ Db.stored_profile "web" (Some Scenario.web_filed)
    = Some (Tools.bundle_of Scenario.web_params).
Proof.
  assert (Hservers : Tools.cp_servers Scenario.research_params ≠ []) by done.
  assert (Hplain : Tools.cp_name Scenario.research_params ∉ JsObject.prototype_names).
  { apply (bool_decide_unpack _). by vm_compute. }
  destruct (user_profile_round_trip Scenario.builtin_profiles Scenario.research_params
              Scenario.web_filed Hservers eq_refl Hplain)
    as (Hfound & Hlisted & Hdeleted & Hgone & Hagain & Hothers).
  assert (Hother : "web" ≠ Tools.cp_name Scenario.research_params) by done.
  exact (conj Hfound (conj Hlisted (conj Hdeleted (conj Hgone (conj Hagain
           (conj (Hothers "web" Hother) eq_refl)))))).
Defined.

(** The user profile [constructor] beside the built-in profile [web]. *)
Lemma inherited_name_profile_is_stuck_witness :
  let result := Tools.create_profile Scenario.constructor_params (Some Db.empty) in
  Tools.name_matches (Tools.cp_name Scenario.constructor_params) = true
  ∧ result.2 = Tools.ProfileCreated (Tools.cp_name Scenario.constructor_params)
                 (length (Tools.cp_servers Scenario.constructor_params))
  ∧ Db.stored_profile (Tools.cp_name Scenario.constructor_params) result.1
    = Some (Tools.bundle_of Scenario.constructor_params)
  ∧ (Tools.cp_name Scenario.constructor_params, Tools.custom,
     Tools.cp_description Scenario.constructor_params,
     Db.row_profile_servers (Tools.bundle_of Scenario.constructor_params))
    ∈ Tools.list_profiles Scenario.builtin_profiles result.1
  ∧ Tools.lookup_profile Scenario.builtin_profiles
      (Tools.cp_name Scenario.constructor_params) result.1 = Tools.ServersUndefined
  ∧ Tools.delete_profile Scenario.builtin_profiles
      (Tools.cp_name Scenario.constructor_params) result.1
    = (result.1, Tools.CannotDeleteBuiltin).
Proof.
  assert (Hservers : Tools.cp_servers Scenario.constructor_params ≠ []) by done.
  assert (Hproto : Tools.cp_name Scenario.constructor_params ∈ JsObject.prototype_names).
  { apply (bool_decide_unpack _). by vm_compute. }
  exact (inherited_name_profile_is_stuck Scenario.builtin_profiles
           Scenario.constructor_params Db.empty Hservers eq_refl Hproto).
Defined.

(** A call to [gamma], which was never declared. *)
Lemma call_to_unknown_server_is_answered_at_once_witness :
  (callToolQueued "gamma" "ping" "{}" None "" (Scenario.connects None) 30
     (Scenario.after_beta).1).2 = Enqueued.
Proof.
  assert (Hgone : JsMap.get "gamma" (servers (Scenario.after_beta).1) = None)
    by (by vm_compute).
  assert (Hinstances : RequestQueue.getInstances "gamma"
                         (requestQueue (Scenario.after_beta).1) = [])
    by (by vm_compute).
  assert (Hdepth : RequestQueue.getQueueDepth "gamma"
                     (requestQueue (Scenario.after_beta).1) = 0)
    by (by vm_compute).
  exact (proj1 (call_to_unknown_server_is_answered_at_once "gamma" "ping" "{}" None ""
                  (Scenario.connects None) 30 (Scenario.after_beta).1
                  Hgone Hinstances Hdepth)).
Defined.

(** [beta] gets new arguments. *)
Lemma update_server_persists_and_restarts_witness :
  Db.stored_server "beta"
    (db (Tools.update_server Scenario.beta_update (Scenario.connects (Some 4400))
           (Scenario.after_beta).1).1)
  = Some (Db.row_of
            (Tools.merge_update Scenario.beta_update
               (ManagedServer.config
                  (default (fresh_managed 0 (Tools.config_of Scenario.beta_params))
                     (JsMap.get "beta" (servers (Scenario.after_beta).1)))))).
Proof.
  assert (Hdb : is_Some (db (Scenario.after_beta).1)).
  { apply (bool_decide_unpack _). by vm_compute. }
  assert (Hexisting :
    JsMap.get (Tools.u_name Scenario.beta_update) (servers (Scenario.after_beta).1)
    = Some (default (fresh_managed 0 (Tools.config_of Scenario.beta_params))
              (JsMap.get "beta" (servers (Scenario.after_beta).1))))
    by (by vm_compute).
  exact (proj1 (update_server_persists_and_restarts Scenario.beta_update
                  (Scenario.connects (Some 4400)) (Scenario.after_beta).1 _
                  after_beta_filed_by_name Hdb Hexisting)).
Defined.

End concrete_runs.
